(** * attentive: the AT response parser and the FreeRTOS command dispatcher

    A shallow embedding of [at_parser.c] and of [at-freertos_hal.c],
    followed by the properties of the two that the specification states
    and by further properties of the code.

    Conventions.
    - A [size_t] or an [int] is a [Z]; the wrap-around of [size_t]
      arithmetic is written out with [size_t_wrap].
    - A byte ([char], [uint8_t]) is a [Z]; memory reachable from a pointer
      is the [list Z] of the bytes that start there.
    - The response buffer is a [list Z] updated in place with stdpp's
      [<[i:=x]>]. A well-formed instance ([ParserSpec.parser_wf]) has
      [buf_used] below the length of the list and every write is at
      [buf_used] or below, so the silent out-of-range behaviour of the list
      update is never relied on.
    - [handle_response] and [handle_urc] return nothing: a call is an entry
      of the trace the parser functions return, together with the parser
      instance as it is at the time of the call. *)

From Stdlib Require Import ZArith String Ascii Lia Bool.
From stdpp Require Import base tactics list.

Local Open Scope Z_scope.

(** ** C strings *)

Module CString.

(** The bytes of a string literal, without the terminating NUL. *)
Definition bytes (s : string) : list Z :=
  map (fun c => Z.of_N (N_of_ascii c)) (list_ascii_of_string s).

(** [*s] for a pointer into NUL-terminated memory: reading at the end of
    what is modelled gives the terminator. *)
Definition deref (s : list Z) : Z := hd 0 s.

(** [strlen]: the number of bytes before the first NUL. *)
Fixpoint strlen (s : list Z) : nat :=
  match s with
  | [] => O
  | c :: s' => if c =? 0 then O else S (strlen s')
  end.

(** The contents of a C string: the bytes before the first NUL. *)
Definition contents (s : list Z) : list Z := take (strlen s) s.

(** [strncmp(s1, s2, n)]: compare at most [n] bytes, stopping after a NUL. *)
Fixpoint strncmp (s1 s2 : list Z) (n : nat) : Z :=
  match n with
  | O => 0
  | S n' =>
      let c1 := deref s1 in
      let c2 := deref s2 in
      if c1 =? c2
      then if c1 =? 0 then 0 else strncmp (tl s1) (tl s2) n'
      else c1 - c2
  end.

(** A byte string with no NUL in it. *)
Definition nul_free (t : list Z) : Prop := Forall (fun c => c <> 0) t.

End CString.

(** ** The line parser, [at_parser.c] *)

Module Parser.

(** [size_t] is 32 bits wide on the targets of the FreeRTOS port. *)
Definition SIZE_BITS : Z := 32.
Definition SIZE_MOD : Z := 2 ^ SIZE_BITS.
Definition size_t_wrap (x : Z) : Z := x mod SIZE_MOD.

(** Modelled from the spec: [at_parser.h], which declares
    [enum at_response_type], is not among the sources. The spec fixes
    [AT_RESPONSE_UNKNOWN] to zero, the category to the low byte of the value
    and the payload length to the bytes above it; the other categories are
    numbered here in the order the spec lists them, and nothing below
    depends on the numbering beyond the values being distinct, non-zero and
    within the low byte. *)
Definition AT_RESPONSE_UNKNOWN : Z := 0.
Definition AT_RESPONSE_INTERMEDIATE : Z := 1.
Definition AT_RESPONSE_FINAL_OK : Z := 2.
Definition AT_RESPONSE_FINAL : Z := 3.
Definition AT_RESPONSE_URC : Z := 4.
Definition _AT_RESPONSE_RAWDATA_FOLLOWS : Z := 5.
Definition _AT_RESPONSE_HEXDATA_FOLLOWS : Z := 6.
Definition _AT_RESPONSE_ENCODED_LENGTH_BIT : Z := 8.
Definition _AT_RESPONSE_TYPE_MASK : Z := 255.

Definition AT_RESPONSE_RAWDATA_FOLLOWS (amount : Z) : Z :=
  Z.lor _AT_RESPONSE_RAWDATA_FOLLOWS
        (Z.shiftl amount _AT_RESPONSE_ENCODED_LENGTH_BIT).
Definition AT_RESPONSE_HEXDATA_FOLLOWS (amount : Z) : Z :=
  Z.lor _AT_RESPONSE_HEXDATA_FOLLOWS
        (Z.shiftl amount _AT_RESPONSE_ENCODED_LENGTH_BIT).

Inductive at_parser_state : Set :=
| STATE_IDLE
| STATE_READLINE
| STATE_DATAPROMPT
| STATE_RAWDATA
| STATE_HEXDATA.

Global Instance at_parser_state_eq_dec : EqDecision at_parser_state.
Proof. solve_decision. Defined.

(** A line scanner ([line_scanner_t], and the [scan_line] callback) is
    handed the line and its length and answers with a response type. It is
    modelled as a function of the [len] bytes of the line. *)
Definition line_scanner : Type := list Z -> Z -> Z.

(** [struct at_parser]. Of [cbs] only [scan_line] is data: it may be null.
    [handle_response] and [handle_urc] are always called and show in the
    trace. *)
Record at_parser : Type := mk_parser {
  cbs_scan_line : option line_scanner;
  priv : Z;
  per_command_scanner : option line_scanner;
  state : at_parser_state;
  data_left : Z;
  nibble : Z;
  buf : list Z;
  buf_used : Z;
  buf_size : Z;
  buf_current : Z;
}.

Definition set_per_command_scanner (s : option line_scanner) (p : at_parser) :=
  mk_parser (cbs_scan_line p) (priv p) s (state p) (data_left p) (nibble p)
            (buf p) (buf_used p) (buf_size p) (buf_current p).
Definition set_state (s : at_parser_state) (p : at_parser) :=
  mk_parser (cbs_scan_line p) (priv p) (per_command_scanner p) s (data_left p)
            (nibble p) (buf p) (buf_used p) (buf_size p) (buf_current p).
Definition set_data_left (n : Z) (p : at_parser) :=
  mk_parser (cbs_scan_line p) (priv p) (per_command_scanner p) (state p) n
            (nibble p) (buf p) (buf_used p) (buf_size p) (buf_current p).
Definition set_nibble (n : Z) (p : at_parser) :=
  mk_parser (cbs_scan_line p) (priv p) (per_command_scanner p) (state p)
            (data_left p) n (buf p) (buf_used p) (buf_size p) (buf_current p).
Definition set_buf (b : list Z) (p : at_parser) :=
  mk_parser (cbs_scan_line p) (priv p) (per_command_scanner p) (state p)
            (data_left p) (nibble p) b (buf_used p) (buf_size p) (buf_current p).
Definition set_buf_used (n : Z) (p : at_parser) :=
  mk_parser (cbs_scan_line p) (priv p) (per_command_scanner p) (state p)
            (data_left p) (nibble p) (buf p) n (buf_size p) (buf_current p).
Definition set_buf_current (n : Z) (p : at_parser) :=
  mk_parser (cbs_scan_line p) (priv p) (per_command_scanner p) (state p)
            (data_left p) (nibble p) (buf p) (buf_used p) (buf_size p) n.

(** [parser->buf[i] = ch] *)
Definition store (i : Z) (ch : Z) (p : at_parser) : at_parser :=
  set_buf (<[Z.to_nat i := ch]> (buf p)) p.

(** A callback invocation, with its arguments. A buffer argument is the
    [len] bytes it points to. *)
Inductive callback : Type :=
| HandleResponse (payload : list Z) (len : Z)
| HandleUrc (line : list Z) (len : Z)
| ScanLine (line : list Z) (len : Z)
| CommandScan (line : list Z) (len : Z).

(** The trace: each call with the instance as it is when the call is made. *)
Definition trace : Type := list (callback * at_parser).

Definition calls (tr : trace) : list callback := map fst tr.

Definition ok_responses : list (list Z) :=
  [CString.bytes "OK"; CString.bytes "> "].
Definition error_responses : list (list Z) :=
  [CString.bytes "ERROR"; CString.bytes "NO CARRIER";
   CString.bytes "+CME ERROR:"; CString.bytes "+CMS ERROR:"].
Definition urc_responses : list (list Z) :=
  [CString.bytes "RING"].

Definition at_parser_reset (p : at_parser) : at_parser :=
  set_data_left 0
    (set_buf_current 0
       (set_buf_used 0
          (set_per_command_scanner None
             (set_state STATE_IDLE p)))).

(** [at_parser_alloc], for the case that both allocations succeed.
    [malloc] hands out memory whose contents are not determined: the bytes
    of the buffer and the value of [nibble], which [at_parser_alloc] does
    not set, are arguments. *)
Definition at_parser_alloc (scan_line : option line_scanner) (bufsize : Z)
    (priv : Z) (heap_buf : list Z) (heap_nibble : Z) : at_parser :=
  at_parser_reset
    (mk_parser scan_line priv None STATE_IDLE 0 heap_nibble heap_buf 0 bufsize 0).

Definition at_parser_await_response (p : at_parser) (dataprompt : bool)
    (scanner : option line_scanner) : at_parser :=
  set_state (if dataprompt then STATE_DATAPROMPT else STATE_READLINE)
    (set_per_command_scanner scanner p).

(** The loop of [at_prefix_in_table], over the entries before the null. *)
Fixpoint at_prefix_in_table (line : list Z) (table : list (list Z)) : bool :=
  match table with
  | [] => false
  | t :: table' =>
      if CString.strncmp line t (length t) =? 0 then true
      else at_prefix_in_table line table'
  end.

Definition generic_line_scanner (line : list Z) (len : Z) : Z :=
  if at_prefix_in_table line urc_responses then AT_RESPONSE_URC
  else if at_prefix_in_table line error_responses then AT_RESPONSE_FINAL
  else if at_prefix_in_table line ok_responses then AT_RESPONSE_FINAL_OK
  else AT_RESPONSE_INTERMEDIATE.

Definition parser_append (p : at_parser) (ch : Z) : at_parser :=
  if buf_used p <? size_t_wrap (buf_size p - 1)
  then set_buf_used (size_t_wrap (buf_used p + 1)) (store (buf_used p) ch p)
  else p.

(** The line [parser->buf + parser->buf_current] as memory, and the [len]
    bytes of it that the callbacks are given. *)
Definition line_mem (p : at_parser) : list Z :=
  drop (Z.to_nat (buf_current p)) (buf p).
Definition line_len (p : at_parser) : Z :=
  size_t_wrap (buf_used p - buf_current p).
Definition line_bytes (p : at_parser) : list Z :=
  take (Z.to_nat (line_len p)) (line_mem p).

(** "Determine response type": the three scanners in turn, each consulted
    when the type is still [AT_RESPONSE_UNKNOWN]. *)
Definition scan_per_command (p : at_parser) : Z * trace :=
  match per_command_scanner p with
  | Some f => (f (line_bytes p) (line_len p),
               [(CommandScan (line_bytes p) (line_len p), p)])
  | None => (AT_RESPONSE_UNKNOWN, [])
  end.

Definition scan_session (p : at_parser) (type : Z) : Z * trace :=
  match cbs_scan_line p with
  | Some g =>
      if type =? 0
      then (g (line_bytes p) (line_len p),
            [(ScanLine (line_bytes p) (line_len p), p)])
      else (type, [])
  | None => (type, [])
  end.

Definition scan_generic (p : at_parser) (type : Z) : Z :=
  if type =? 0 then generic_line_scanner (line_mem p) (line_len p) else type.

Definition determine_type (p : at_parser) : Z * trace :=
  let '(type, tr1) := scan_per_command p in
  let '(type, tr2) := scan_session p type in
  (scan_generic p type, tr1 ++ tr2).

(** "Discard the newline before the line (if any)", then the line. *)
Definition discard_line (p : at_parser) : at_parser :=
  let p := if buf_current p >? 0
           then set_buf_current (size_t_wrap (buf_current p - 1)) p
           else p in
  set_buf_used (buf_current p) p.

(** [(int)type]: the value as an [int] of 32 bits in two's complement. *)
Definition int_cast (x : Z) : Z :=
  (x + 2 ^ (SIZE_BITS - 1)) mod 2 ^ SIZE_BITS - 2 ^ (SIZE_BITS - 1).

(** [(int)type >> 8], stored into the [size_t] [data_left]: the shift of
    an [int] keeps the sign, and a negative result wraps around in the
    conversion to [size_t]. *)
Definition encoded_length (type : Z) : Z :=
  size_t_wrap (Z.shiftr (int_cast type) _AT_RESPONSE_ENCODED_LENGTH_BIT).

(** [parser_handle_line], without the two [printf]s that log the line. *)
Definition parser_handle_line (p : at_parser) : at_parser * trace :=
  (* Skip empty lines. *)
  if buf_used p =? buf_current p then (p, [])
  else
    (* NUL-terminate the response. *)
    let p := store (buf_used p) 0 p in
    let '(type, tr) := determine_type p in
    if (type =? AT_RESPONSE_URC) || bool_decide (state p = STATE_IDLE)
    then
      (discard_line p, tr ++ [(HandleUrc (line_bytes p) (line_len p), p)])
    else
      let p :=
        if negb (type =? AT_RESPONSE_FINAL_OK)
        then set_buf_current (buf_used p) p
        else let p := discard_line p in store (buf_used p) 0 p in
      let category := Z.land type _AT_RESPONSE_TYPE_MASK in
      if (category =? AT_RESPONSE_FINAL_OK) || (category =? AT_RESPONSE_FINAL)
      then
        (at_parser_reset p,
         tr ++ [(HandleResponse (take (Z.to_nat (buf_used p)) (buf p))
                                (buf_used p), p)])
      else if category =? _AT_RESPONSE_RAWDATA_FOLLOWS
      then (set_state STATE_RAWDATA (set_data_left (encoded_length type) p), tr)
      else if category =? _AT_RESPONSE_HEXDATA_FOLLOWS
      then (set_state STATE_HEXDATA
              (set_nibble (-1) (set_data_left (encoded_length type) p)), tr)
      else (p, tr).

(** How a run of the [while] loop of [at_parser_feed] ends: the function
    returns; or it reads [*buf] beyond the bytes that are there; or it is
    still in the loop when the fuel of the model is used up. *)
Inductive feed_status : Set :=
| FeedReturned
| FeedOverread
| FeedLooping.

Definition CR : Z := 13.
Definition LF : Z := 10.

(** "Add a newline if there's some preceding content", then "append the
    character". *)
Definition feed_line_append (p : at_parser) (ch : Z) : at_parser :=
  let p :=
    if (buf_used p >? 0) && (buf_current p =? buf_used p)
    then let p := parser_append p LF in set_buf_current (buf_used p) p
    else p in
  parser_append p ch.

(** One pass through the body of the loop in the three line states, for the
    byte [ch] just read. *)
Definition feed_line_byte (p : at_parser) (ch : Z) : at_parser * trace :=
  let p :=
    if negb (ch =? CR) && negb (ch =? LF)
    then feed_line_append p ch
    else p in
  if (ch =? LF)
     || (bool_decide (state p = STATE_DATAPROMPT)
         && (buf_used p =? 2)
         && bool_decide (take 2 (buf p) = CString.bytes "> "))
  then parser_handle_line p
  else (p, []).

(** The body of the loop in [STATE_RAWDATA]. *)
Definition feed_rawdata_byte (p : at_parser) (ch : Z) : at_parser :=
  let p :=
    if data_left p >? 0
    then let p := parser_append p ch in
         set_data_left (size_t_wrap (data_left p - 1)) p
    else p in
  if data_left p =? 0
  then let p := parser_append p LF in
       set_state STATE_READLINE (set_buf_current (buf_used p) p)
  else p.

(** [at_parser_feed]. [data] is the memory at the pointer the caller
    passes, [len] the length the caller passes; they are separate, as in
    the source, where [buf] is advanced by every read and [len] only where
    the code says so. *)
Fixpoint at_parser_feed_loop (fuel : nat) (p : at_parser) (data : list Z) (len : Z)
  : feed_status * at_parser * trace :=
  if len >? 0 then
    match fuel with
    | O => (FeedLooping, p, [])
    | S fuel' =>
        match state p with
        | STATE_IDLE | STATE_READLINE | STATE_DATAPROMPT =>
            match data with
            | [] => (FeedOverread, p, [])
            | ch :: data' =>
                let len' := size_t_wrap (len - 1) in
                let '(p', tr) := feed_line_byte p ch in
                let '(st, p'', tr') := at_parser_feed_loop fuel' p' data' len' in
                (st, p'', tr ++ tr')
            end
        | STATE_RAWDATA =>
            match data with
            | [] => (FeedOverread, p, [])
            | ch :: data' =>
                at_parser_feed_loop fuel' (feed_rawdata_byte p ch) data' len
            end
        | STATE_HEXDATA =>
            at_parser_feed_loop fuel' p data len
        end
    end
  else (FeedReturned, p, []).

Definition at_parser_feed := at_parser_feed_loop.

(** Feeding a byte string that is exactly the object the pointer points
    to, with fuel for two passes of the loop per byte. *)
Definition feed_bytes (p : at_parser) (data : list Z) : feed_status * at_parser * trace :=
  at_parser_feed (2 * length data + 1) p data (Z.of_nat (length data)).

End Parser.

(** ** The command path of the dispatcher, [at-freertos_hal.c] *)

Module Hal.
Import Parser.

Definition AT_COMMAND_LENGTH : Z := 80.

(** [struct at_callbacks]: either member may be null. [handle_urc] returns
    nothing, so only whether it is set is data; the lines it is given are
    logged in the dispatcher. *)
Record at_callbacks : Type := mk_callbacks {
  scan_line_cb : option line_scanner;
  handle_urc_cb : bool;
}.

(** [struct at_freertos], with the [struct at] it starts with. The
    transport is the log of what [ops->write] was handed; the binary
    semaphore is whether it can be taken. *)
Record at_freertos : Type := mk_at {
  parser : at_parser;
  cbs : option at_callbacks;
  command_scanner : option line_scanner;
  timeout : Z;
  response : list Z;
  xSem : bool;
  uart_tx : list (list Z);
  urc_log : list (list Z);
  open : bool;
  waiting : bool;
}.

Definition set_parser (p : at_parser) (a : at_freertos) :=
  mk_at p (cbs a) (command_scanner a) (timeout a) (response a) (xSem a)
        (uart_tx a) (urc_log a) (open a) (waiting a).
Definition set_command_scanner (s : option line_scanner) (a : at_freertos) :=
  mk_at (parser a) (cbs a) s (timeout a) (response a) (xSem a)
        (uart_tx a) (urc_log a) (open a) (waiting a).
Definition set_response (r : list Z) (a : at_freertos) :=
  mk_at (parser a) (cbs a) (command_scanner a) (timeout a) r (xSem a)
        (uart_tx a) (urc_log a) (open a) (waiting a).
Definition set_xSem (b : bool) (a : at_freertos) :=
  mk_at (parser a) (cbs a) (command_scanner a) (timeout a) (response a) b
        (uart_tx a) (urc_log a) (open a) (waiting a).
Definition set_uart_tx (w : list (list Z)) (a : at_freertos) :=
  mk_at (parser a) (cbs a) (command_scanner a) (timeout a) (response a) (xSem a)
        w (urc_log a) (open a) (waiting a).
Definition set_urc_log (u : list (list Z)) (a : at_freertos) :=
  mk_at (parser a) (cbs a) (command_scanner a) (timeout a) (response a) (xSem a)
        (uart_tx a) u (open a) (waiting a).
Definition set_open (b : bool) (a : at_freertos) :=
  mk_at (parser a) (cbs a) (command_scanner a) (timeout a) (response a) (xSem a)
        (uart_tx a) (urc_log a) b (waiting a).
Definition set_waiting (b : bool) (a : at_freertos) :=
  mk_at (parser a) (cbs a) (command_scanner a) (timeout a) (response a) (xSem a)
        (uart_tx a) (urc_log a) (open a) b.

(** What the other tasks do while the caller of a command is blocked: the
    reader task, which is taken to be running, reads a byte and feeds it to
    the parser, or some task calls [at_close]. A [tick] is what happens
    during one blocking wait. *)
Inductive env_action : Type :=
| EnvByte (ch : Z)
| EnvClose.

Definition tick : Type := list env_action.

Section WithBufSize.

(** [AT_BUF_SIZE], the size of [response], comes from a header that is not
    among the sources. *)
Variable AT_BUF_SIZE : Z.

(** The parser callbacks the dispatcher installs. *)
Definition handle_response (buf : list Z) (len : Z) (a : at_freertos) : at_freertos :=
  let len := if len <? size_t_wrap (AT_BUF_SIZE - 1)
             then len else size_t_wrap (AT_BUF_SIZE - 1) in
  let n := Z.to_nat len in
  let copied := take n buf ++ drop n (response a) in
  set_xSem true (set_waiting false (set_response (<[n := 0]> copied) a)).

(** [handle_urc] reads [at->cbs->handle_urc] without testing [at->cbs]:
    with no callbacks set the call has no result. *)
Definition handle_urc (buf : list Z) (len : Z) (a : at_freertos) : option at_freertos :=
  match cbs a with
  | None => None
  | Some c =>
      if handle_urc_cb c
      then Some (set_urc_log (urc_log a ++ [take (Z.to_nat len) buf]) a)
      else Some a
  end.

Definition scan_line (a : at_freertos) : line_scanner :=
  fun line len =>
    let type := match command_scanner a with
                | Some f => f line len
                | None => AT_RESPONSE_UNKNOWN
                end in
    if type =? 0
    then match cbs a with
         | Some c => match scan_line_cb c with
                     | Some g => g line len
                     | None => type
                     end
         | None => type
         end
    else type.

(** The calls of a parser trace, run against the dispatcher. The scanners
    have no effect of their own. *)
Fixpoint run_callbacks (cs : list callback) (a : at_freertos) : option at_freertos :=
  match cs with
  | [] => Some a
  | HandleResponse buf len :: cs' => run_callbacks cs' (handle_response buf len a)
  | HandleUrc buf len :: cs' =>
      match handle_urc buf len a with
      | Some a' => run_callbacks cs' a'
      | None => None
      end
  | _ :: cs' => run_callbacks cs' a
  end.

(** One round of [at_reader_thread] that read a byte: [ch] is a [char] of
    the task's own, fed with length one. The parser calls back into the
    dispatcher; its [scan_line] reads the command scanner as it is then. *)
Definition reader_feed (ch : Z) (a : at_freertos) : option at_freertos :=
  let p := parser a in
  let p := mk_parser (Some (scan_line a)) (priv p) (per_command_scanner p)
                     (state p) (data_left p) (nibble p) (buf p) (buf_used p)
                     (buf_size p) (buf_current p) in
  match feed_bytes p [ch] with
  | (FeedReturned, p', tr) => run_callbacks (calls tr) (set_parser p' a)
  | _ => None
  end.

(** [at_close], called by some task on a dispatcher that has been opened.
    The transport pointer [xUART] is no member of [at_freertos] here:
    [at_open] sets [open] only where [xUART] is non-null and [at_close]
    alone clears either, so that from [at_open] on [xUART] is null exactly
    when [open] is clear. [at_close] reaches [priv->xUART->ops->deinit]
    with no test of [xUART]: on a channel that was closed before, the call
    has no result. *)
Definition at_close (a : at_freertos) : option at_freertos :=
  if open a
  then (* Mark the port descriptor as invalid. *) Some (set_open false a)
  else None.

Definition run_action (e : env_action) (a : at_freertos) : option at_freertos :=
  match e with
  | EnvByte ch => if open a then reader_feed ch a else Some a
  | EnvClose => at_close a
  end.

Fixpoint run_tick (t : tick) (a : at_freertos) : option at_freertos :=
  match t with
  | [] => Some a
  | e :: t' => match run_action e a with
               | Some a' => run_tick t' a'
               | None => None
               end
  end.

(** [xSemaphoreTake(priv->xSem, 0)]: take it if it is there. *)
Definition xSemaphoreTake_now (a : at_freertos) : bool * at_freertos :=
  (xSem a, set_xSem false a).

(** How far a command gets: it returns its result, a null pointer being
    [None]; or the caller is still blocked in the wait when the ticks of the
    model are used up, or when the reader task never comes back from the
    parser. *)
Inductive cmd_status : Type :=
| CmdReturned (result : option (list Z))
| CmdBlocked.

(** The loop
    [while (timeout-- && priv->open && priv->waiting) if (take) break;].
    Each blocking take lets the other tasks run for one tick. The boolean
    tells whether the loop was left. *)
Fixpoint wait_loop (env : list tick) (a : at_freertos) (timeout : Z)
  : bool * at_freertos * list tick :=
  if (timeout =? 0) || negb (open a) || negb (waiting a) then (true, a, env)
  else
    match env with
    | [] => (false, a, env)
    | t :: env' =>
        match run_tick t a with
        | None => (false, a, env')
        | Some a' =>
            if xSem a' then (true, set_xSem false a', env')
            else wait_loop env' a' (timeout - 1)
        end
    end.

(** The three-way resolution after the wait. *)
Definition resolve (a : at_freertos) : option (list Z) * at_freertos :=
  if negb (open a)
  then (* The serial port was closed behind our back. *) (None, a)
  else if waiting a
  then (* Timed out waiting for a response. *)
    (None, set_parser (at_parser_reset (parser a)) a)
  else (* Response arrived. *) (Some (response a), a).

(** The part of [_at_command] between the test of [open] and the loop. *)
Definition waiting_for (a : at_freertos) (data : list Z) (size : Z) : at_freertos :=
  (* Prepare parser. *)
  let a := set_parser (at_parser_await_response (parser a) false None) a in
  (* Send the command. *)
  let a := set_uart_tx (uart_tx a ++ [take (Z.to_nat size) data]) a in
  (* Wait for the parser thread to collect a response. *)
  let a := set_waiting true a in
  let a := snd (xSemaphoreTake_now a) in
  snd (xSemaphoreTake_now a).

(** [_at_command]. The call of [at_parser_await_response] passes the
    parser alone; it is taken as arming for a plain line response with no
    scanner of the parser's own, the command scanner being the
    dispatcher's. The result is the memory at [priv->response]. *)
Definition _at_command (a : at_freertos) (data : list Z) (size : Z)
    (env : list tick) : cmd_status * at_freertos * list tick :=
  (* Bail out if the channel is closing or closed. *)
  if negb (open a) then (CmdReturned None, a, env)
  else
    let a := waiting_for a data size in
    let '(returned, a, env') := wait_loop env a (timeout a) in
    if returned
    then
      let '(result, a) := resolve a in
      (* Reset per-command settings. *)
      (CmdReturned result, set_command_scanner None a, env')
    else (CmdBlocked, a, env').

(** [vsnprintf(line, size, format, ap)], for the text [formatted] that the
    format and its arguments expand to: the bytes stored, NUL included, and
    the value returned. *)
Definition vsnprintf (size : Z) (formatted : list Z) : list Z * Z :=
  (take (Z.to_nat (size - 1)) formatted ++ [0], Z.of_nat (length formatted)).

(** [at_command], given the expansion of its format. *)
Definition at_command (a : at_freertos) (formatted : list Z) (env : list tick)
  : cmd_status * at_freertos * list tick :=
  let '(line, len) := vsnprintf (AT_COMMAND_LENGTH - 1) formatted in
  (* Bail out if we run out of space. *)
  if len >=? AT_COMMAND_LENGTH - 1 then (CmdReturned None, a, env)
  else
    (* Append modem-style newline. *)
    let line := <[Z.to_nat len := CR]> line in
    let len := len + 1 in
    _at_command a line len env.

End WithBufSize.

(** [at_config] runs on [at_command] alone. It is stated over any
    dispatch primitive: [St] is all that a command can change, a command
    gives the response (or null) and the new [St], or no result at all. *)
Section Config.

Variable St : Type.
Variable command : list Z -> St -> option (option (list Z) * St).
(** [vTaskDelay(pdMS_TO_TICKS(1000))] *)
Variable delay : St -> option St.

(** The expansions of ["AT+%s=%s"], ["AT+%s?"] and ["+%s: %s"]. *)
Definition fmt_set (opt value : list Z) : list Z :=
  CString.bytes "AT+" ++ CString.contents opt ++ CString.bytes "="
    ++ CString.contents value.
Definition fmt_query (opt : list Z) : list Z :=
  CString.bytes "AT+" ++ CString.contents opt ++ CString.bytes "?".
Definition fmt_expected (opt value : list Z) : list Z :=
  CString.bytes "+" ++ CString.contents opt ++ CString.bytes ": "
    ++ CString.contents value.

Definition EXPECTED_SIZE : Z := 32.

Fixpoint at_config_loop (n : nat) (opt value : list Z) (s : St) : option (Z * St) :=
  match n with
  | O => Some (0, s)
  | S n' =>
      (* Blindly try to set the configuration option. *)
      match command (fmt_set opt value) s with
      | None => None
      | Some (_, s) =>
          (* Query the setting status. *)
          match command (fmt_query opt) s with
          | None => None
          | Some (None, s) => Some (-2, s)
          | Some (Some response, s) =>
              let '(expected, n) :=
                vsnprintf EXPECTED_SIZE (fmt_expected opt value) in
              if n >=? EXPECTED_SIZE then Some (-1, s)
              else if CString.strncmp response expected (CString.strlen expected) =? 0
                   then Some (0, s)
                   else match delay s with
                        | None => None
                        | Some s => at_config_loop n' opt value s
                        end
          end
      end
  end.

Definition at_config (opt value : list Z) (attempts : Z) (s : St) : option (Z * St) :=
  at_config_loop (Z.to_nat attempts) opt value s.

End Config.

(** [at_config] on the dispatcher: [St] is the dispatcher and the ticks to
    come; the delay lets one tick pass. *)
Definition hal_state : Type := at_freertos * list tick.

Definition hal_command (AT_BUF_SIZE : Z) (formatted : list Z) (s : hal_state)
  : option (option (list Z) * hal_state) :=
  match at_command AT_BUF_SIZE (fst s) formatted (snd s) with
  | (CmdReturned r, a, env) => Some (r, (a, env))
  | (CmdBlocked, _, _) => None
  end.

Definition hal_delay (AT_BUF_SIZE : Z) (s : hal_state) : option hal_state :=
  match snd s with
  | [] => None
  | t :: env =>
      match run_tick AT_BUF_SIZE t (fst s) with
      | Some a => Some (a, env)
      | None => None
      end
  end.

End Hal.

(** ** Statements: what the properties below are about *)

Module ParserSpec.
Import Parser.

(** The predicate on the buffer cursors. *)
Definition cursors_ok (p : at_parser) : Prop :=
  0 <= buf_current p <= buf_used p /\ buf_used p < buf_size p.

(** A well-formed instance: the cursors are in order, [buf_size] is a
    [size_t] and [buf] is the [buf_size] bytes that [malloc] returned. *)
Definition parser_wf (p : at_parser) : Prop :=
  cursors_ok p /\ buf_size p < SIZE_MOD /\ Z.of_nat (length (buf p)) = buf_size p.

(** The calls a user of the parser makes. A feed carries the memory at its
    pointer, its length argument and the fuel of the model. *)
Inductive call : Type :=
| Feed (data : list Z) (len : Z) (fuel : nat)
| AwaitResponse (dataprompt : bool) (scanner : option line_scanner)
| Reset.

Definition do_call (c : call) (p : at_parser) : feed_status * at_parser * trace :=
  match c with
  | Feed data len fuel => at_parser_feed fuel p data len
  | AwaitResponse dataprompt scanner =>
      (FeedReturned, at_parser_await_response p dataprompt scanner, [])
  | Reset => (FeedReturned, at_parser_reset p, [])
  end.

(** The instance at every observable point of a sequence of calls: before
    each call, at each callback, after each call. After a feed that does
    not return there is no later call. *)
Fixpoint observable (cs : list call) (p : at_parser) : list at_parser :=
  p :: match cs with
       | [] => []
       | c :: cs' =>
           let '(st, p', tr) := do_call c p in
           map snd tr ++
             match st with
             | FeedReturned => observable cs' p'
             | _ => [p']
             end
       end.

(** The instance after a sequence of calls that all return. *)
Fixpoint run_calls (cs : list call) (p : at_parser) : option at_parser :=
  match cs with
  | [] => Some p
  | c :: cs' =>
      match do_call c p with
      | (FeedReturned, p', _) => run_calls cs' p'
      | _ => None
      end
  end.

(** The three states in which the parser reads lines. *)
Definition line_state (s : at_parser_state) : bool :=
  match s with
  | STATE_IDLE | STATE_READLINE | STATE_DATAPROMPT => true
  | STATE_RAWDATA | STATE_HEXDATA => false
  end.

(** The loop of [at_parser_feed] as it runs in the line states: the
    bytes one after the other. *)
Fixpoint feed_lines (p : at_parser) (data : list Z) : at_parser * trace :=
  match data with
  | [] => (p, [])
  | ch :: data' =>
      let '(p', tr) := feed_line_byte p ch in
      let '(p'', tr') := feed_lines p' data' in
      (p'', tr ++ tr')
  end.

(** The bytes of the buffer that are in use. *)
Definition used_bytes (p : at_parser) : list Z :=
  take (Z.to_nat (buf_used p)) (buf p).

(** Lines joined by single LFs, with no LF at the end. *)
Fixpoint join (ls : list (list Z)) : list Z :=
  match ls with
  | [] => []
  | l :: ls' =>
      match ls' with
      | [] => l
      | _ :: _ => l ++ LF :: join ls'
      end
  end.

(** The same, followed by the LF that separates them from a next line. *)
Definition lead (ls : list (list Z)) : list Z :=
  match ls with
  | [] => []
  | _ :: _ => join ls ++ [LF]
  end.

Definition not_newline (c : Z) : Prop := c <> CR /\ c <> LF.

(** A line as the parser collects it: not empty, no CR or LF in it. *)
Definition text_line (l : list Z) : Prop := l <> [] /\ Forall not_newline l.

(** The shapes of the bytes in use [used] and of [buf_current] while
    the lines [ls] are committed: between two lines; within a line [cur]
    that follows the separator; or full, right after a separator. *)
Inductive buffer_shape (size : Z) : list Z -> Z -> list (list Z) -> Prop :=
| shape_between (ls : list (list Z)) :
    buffer_shape size (join ls) (Z.of_nat (length (join ls))) ls
| shape_in_line (ls : list (list Z)) (cur : list Z) :
    cur <> [] -> Forall not_newline cur ->
    buffer_shape size (lead ls ++ cur) (Z.of_nat (length (lead ls))) ls
| shape_full (ls : list (list Z)) :
    ls <> [] -> Z.of_nat (length (lead ls)) = size - 1 ->
    buffer_shape size (lead ls) (Z.of_nat (length (lead ls))) ls.

Definition holds_lines (p : at_parser) (ls : list (list Z)) : Prop :=
  Forall text_line ls
  /\ buffer_shape (buf_size p) (used_bytes p) (buf_current p) ls.

(** Response types and scanners that announce no raw or hex data. *)
Definition text_type (t : Z) : Prop :=
  Z.land t _AT_RESPONSE_TYPE_MASK <> _AT_RESPONSE_RAWDATA_FOLLOWS
  /\ Z.land t _AT_RESPONSE_TYPE_MASK <> _AT_RESPONSE_HEXDATA_FOLLOWS.

Definition text_scanner (f : line_scanner) : Prop :=
  forall (line : list Z) (len : Z), text_type (f line len).

Definition text_only (p : at_parser) : Prop :=
  (forall f, per_command_scanner p = Some f -> text_scanner f)
  /\ (forall g, cbs_scan_line p = Some g -> text_scanner g).

(** What holds of the parser between any two bytes of a command whose
    scanners announce no data: it is well formed, the buffer has the shape
    of some committed lines, it is in one of the line states. *)
Definition text_inv (p : at_parser) : Prop :=
  parser_wf p /\ (exists ls, holds_lines p ls)
  /\ line_state (state p) = true /\ text_only p.

(** A call of [handle_response] whose payload is lines joined by single
    LFs. *)
Definition response_of_lines (c : callback) : Prop :=
  match c with
  | HandleResponse payload len =>
      exists ls, Forall text_line ls /\ payload = join ls
                 /\ len = Z.of_nat (length payload)
  | _ => True
  end.

(** The classifier chain, after the words of the spec: the scanners that
    are installed are consulted in priority order, and an answer of
    [AT_RESPONSE_UNKNOWN] defers to the next one. *)
Inductive classifier : Type :=
| PerCommand (f : line_scanner)
| Session (g : line_scanner)
| BuiltIn.

Definition starts_with (line prefix : list Z) : Prop := prefix `prefix_of` line.

Definition starts_with_any (line : list Z) (table : list string) : Prop :=
  Exists (fun t => starts_with line (CString.bytes t)) table.

Global Instance starts_with_dec (line t : list Z) : Decision (starts_with line t).
Proof. unfold starts_with. apply _. Defined.

Global Instance starts_with_any_dec (line : list Z) (table : list string) :
  Decision (starts_with_any line table).
Proof. unfold starts_with_any. apply _. Defined.

Definition urc_prefixes : list string := ["RING"%string].
Definition error_prefixes : list string :=
  ["ERROR"%string; "NO CARRIER"%string; "+CME ERROR:"%string;
   "+CMS ERROR:"%string].
Definition ok_prefixes : list string := ["OK"%string; "> "%string].

Definition builtin_scanner (line : list Z) : Z :=
  if decide (starts_with_any line urc_prefixes) then AT_RESPONSE_URC
  else if decide (starts_with_any line error_prefixes) then AT_RESPONSE_FINAL
  else if decide (starts_with_any line ok_prefixes) then AT_RESPONSE_FINAL_OK
  else AT_RESPONSE_INTERMEDIATE.

Definition installed (p : at_parser) : list classifier :=
  match per_command_scanner p with Some f => [PerCommand f] | None => [] end
  ++ match cbs_scan_line p with Some g => [Session g] | None => [] end
  ++ [BuiltIn].

Definition answer (c : classifier) (line : list Z) (len : Z) : Z :=
  match c with
  | PerCommand f => f line len
  | Session g => g line len
  | BuiltIn => builtin_scanner line
  end.

(** The type the chain settles on, and the classifiers it asks on the way. *)
Fixpoint chain_type (chain : list classifier) (line : list Z) (len : Z) : Z :=
  match chain with
  | [] => AT_RESPONSE_UNKNOWN
  | c :: rest =>
      if answer c line len =? AT_RESPONSE_UNKNOWN
      then chain_type rest line len
      else answer c line len
  end.

Fixpoint chain_asked (chain : list classifier) (line : list Z) (len : Z)
  : list classifier :=
  match chain with
  | [] => []
  | c :: rest =>
      c :: if answer c line len =? AT_RESPONSE_UNKNOWN
           then chain_asked rest line len
           else []
  end.

(** The callback a consulted classifier shows as; the built-in scanner is
    no callback. *)
Definition classifier_call (line : list Z) (len : Z) (c : classifier)
  : list callback :=
  match c with
  | PerCommand _ => [CommandScan line len]
  | Session _ => [ScanLine line len]
  | BuiltIn => []
  end.

End ParserSpec.

(** ** Concrete instances *)

Module Fixtures.
Import Parser ParserSpec.

(** A parser allocated with a 64 byte buffer and no session [scan_line], on
    zeroed memory. *)
Definition fresh : at_parser :=
  at_parser_alloc None 64 0 (replicate 64 0) 0.

(** A per-command scanner that announces two bytes of raw data after a
    line that starts with "+D" and defers on every other line. *)
Definition raw_scanner : line_scanner :=
  fun line len =>
    if bool_decide (CString.bytes "+D" `prefix_of` line)
    then AT_RESPONSE_RAWDATA_FOLLOWS 2
    else AT_RESPONSE_UNKNOWN.

(** A per-command scanner that announces one byte of hex data after any
    line. *)
Definition hex_scanner : line_scanner :=
  fun line len => AT_RESPONSE_HEXDATA_FOLLOWS 1.

(** The parser after the line "+D" of a command with [raw_scanner]: it
    waits for two bytes of raw data. *)
Definition after_raw_header : at_parser :=
  snd (fst (feed_bytes (at_parser_await_response fresh false (Some raw_scanner))
                       (CString.bytes "+D" ++ [LF]))).

(** The same after the two raw bytes "ab" and the bytes of the line "OK",
    read by a feed of length two; the LF of the line has not been read. *)
Definition after_raw_ok : at_parser :=
  snd (fst (at_parser_feed 10 after_raw_header (CString.bytes "abOK") 2)).

(** The parser after the first line of a command with [hex_scanner]. *)
Definition after_hex_header : at_parser :=
  snd (fst (feed_bytes (at_parser_await_response fresh false (Some hex_scanner))
                       (CString.bytes "+H" ++ [LF]))).

(** The bytes "ab" of raw data and the final line "ERROR", and the array
    they are read from, which goes on with a CR LF that is not fed. *)
Definition raw_stream : list Z := CString.bytes "abERROR" ++ [LF].
Definition raw_array : list Z := raw_stream ++ [CR; LF].

(** The parser of a command after the bytes of the response
    "+CSQ: 21,0", "OK" up to, and without, the last LF. *)
Definition armed : at_parser := at_parser_await_response fresh false None.
Definition before_ok_lf : at_parser :=
  snd (fst (at_parser_feed 40 armed
              (CString.bytes "+CSQ: 21,0" ++ [CR; LF] ++ CString.bytes "OK" ++ [CR])
              15)).

(** Two feeds one after the other, the traces joined. *)
Definition feed_then (fuel : nat) (p : at_parser)
    (data1 : list Z) (len1 : Z) (data2 : list Z) (len2 : Z)
  : feed_status * at_parser * trace :=
  match at_parser_feed fuel p data1 len1 with
  | (FeedReturned, p', tr) =>
      let '(st, p'', tr') := at_parser_feed fuel p' data2 len2 in
      (st, p'', tr ++ tr')
  | r => r
  end.

End Fixtures.

Module HalSpec.
Import Hal.

(** What the other tasks leave alone: the transport log and the command
    scanner. *)
Definition same_tx (a a' : at_freertos) : Prop :=
  uart_tx a' = uart_tx a /\ command_scanner a' = command_scanner a.

(** The texts of [at_config], after the words of the spec: it retries
    "AT+opt=val" and "AT+opt?" and expects a response that starts with
    "+opt: val". [opt] and [val] are the texts of the option and of the
    value, byte by byte; 'A' is 65, 'T' 84, '+' 43, '=' 61, '?' 63, ':' 58
    and ' ' 32. *)
Definition set_text (opt val : list Z) : list Z :=
  65 :: 84 :: 43 :: opt ++ 61 :: val.
Definition query_text (opt : list Z) : list Z :=
  65 :: 84 :: 43 :: opt ++ [63].
Definition expected_text (opt val : list Z) : list Z :=
  43 :: opt ++ 58 :: 32 :: val.

End HalSpec.

Module HalFixtures.
Import Parser Hal Fixtures.

(** An open dispatcher with a timeout of three seconds, session callbacks
    with a URC handler and no scanner, and a 32 byte response buffer. *)
Definition idle_channel : at_freertos :=
  mk_at fresh (Some (mk_callbacks None true)) None 3 (replicate 32 0)
        false [] [] true false.

(** The same, closed, with a command scanner set for a command to come. *)
Definition closed_channel : at_freertos :=
  set_command_scanner (Some hex_scanner) (set_open false idle_channel).

(** The bytes of a response as the reader task feeds them in one tick. *)
Definition arrives (s : string) : tick :=
  map EnvByte (CString.bytes s ++ [CR; LF]).

(** The dispatcher after the command "AT+CSQ" whose response "+CSQ: 21,0",
    "OK" arrives in the second and third tick of the wait. *)
Definition after_csq : at_freertos :=
  snd (fst (_at_command 32 idle_channel (CString.bytes "AT+CSQ" ++ [CR]) 7
              [[]; arrives "+CSQ: 21,0"; arrives "OK"; []])).

(** The ticks of a run of [at_config] for "CMEE" and "2": the set
    command is answered with "OK", the query with "+CMEE: 2", "OK". *)
Definition config_ticks : list tick :=
  [arrives "OK"; arrives "+CMEE: 2"; arrives "OK"].

Definition after_set : hal_state :=
  match hal_command 32 (fmt_set (CString.bytes "CMEE") (CString.bytes "2"))
          (idle_channel, config_ticks) with
  | Some (_, s) => s
  | None => (idle_channel, [])
  end.

(** An option of thirty letters: with it "AT+opt?" is a command of 34
    bytes, and "+opt: 1" needs more than the 32 bytes of the scratch of
    [at_config]. *)
Definition long_option : list Z := replicate 30 65.

Definition after_query : hal_state :=
  match hal_command 32 (fmt_query (CString.bytes "CMEE")) after_set with
  | Some (_, s) => s
  | None => (idle_channel, [])
  end.

End HalFixtures.

(** ** The rest of the dispatcher, [at-freertos_hal.c] *)

Module HalSend.
Import Parser Hal.

(** [byte_to_hex]: the two characters stored at [hex[0]] and [hex[1]].
    [byte] is a [char], promoted to [int]; [&] and [>>] are those of a
    two's complement [int]. *)
Definition byte_to_hex (byte : Z) : Z * Z :=
  let h := Z.land byte 15 in
  let hex1 := if h <? 10 then 48 + h else 65 + h - 10 in
  let h := Z.land (Z.shiftr byte 4) 15 in
  let hex0 := if h <? 10 then 48 + h else 65 + h - 10 in
  (hex0, hex1).

(** [at_command_raw] *)
Definition at_command_raw (AT_BUF_SIZE : Z) (a : at_freertos) (data : list Z)
    (size : Z) (env : list tick) : cmd_status * at_freertos * list tick :=
  _at_command AT_BUF_SIZE a data size env.

(** How a call of [at_send_hex] ends: it returns; or it reads [data]
    beyond the bytes that are there; or it is still in its loop when the
    fuel of the model is used up. *)
Inductive hex_status : Set :=
| HexReturned (ok : bool)
| HexOverread
| HexLooping.

Section WithWrite.

(** [priv->xUART->ops->write]: the transport is not among the sources.
    What it returns for the bytes it is handed is left open; the bytes are
    logged in [uart_tx]. *)
Variable ops_write : list Z -> Z.

(** [_at_send]; the value of [write] is returned as a [bool]. *)
Definition _at_send (a : at_freertos) (data : list Z) (size : Z)
  : bool * at_freertos :=
  (* Bail out if the channel is closing or closed. *)
  if negb (open a) then (false, a)
  else
    let chunk := take (Z.to_nat size) data in
    (negb (ops_write chunk =? 0), set_uart_tx (uart_tx a ++ [chunk]) a).

(** [at_send], given the expansion of its format. *)
Definition at_send (a : at_freertos) (formatted : list Z) : bool * at_freertos :=
  let '(line, len) := vsnprintf (AT_COMMAND_LENGTH - 1) formatted in
  (* Bail out if we run out of space. *)
  if len >=? AT_COMMAND_LENGTH - 1 then (false, a)
  else _at_send a line len.

Definition at_send_raw (a : at_freertos) (data : list Z) (size : Z)
  : bool * at_freertos :=
  _at_send a data size.

(** The [for] loop of [at_send_hex]: [len] bytes from [data + oset] on,
    two characters each, from the start of the scratch [line]. *)
Definition hex_line (data : list Z) (oset len : Z) : option (list Z) :=
  let bytes := take (Z.to_nat len) (drop (Z.to_nat oset) data) in
  if Z.of_nat (length bytes) <? len then None
  else Some (concat (map (fun b => [fst (byte_to_hex b); snd (byte_to_hex b)]) bytes)).

(** The [while] loop of [at_send_hex]. [oset] and [len] are [int]s, [size]
    is a [size_t]: the comparison and the subtraction are those of
    [size_t]. *)
Fixpoint at_send_hex_loop (fuel : nat) (a : at_freertos) (data : list Z)
    (size oset : Z) : hex_status * at_freertos :=
  if size_t_wrap oset <? size then
    match fuel with
    | O => (HexLooping, a)
    | S fuel' =>
        let len := AT_COMMAND_LENGTH / 2 in
        let len := if size_t_wrap (size - oset) >? len
                   then len else size_t_wrap (size - oset) in
        match hex_line data oset len with
        | None => (HexOverread, a)
        | Some line =>
            let oset := oset + len in
            let '(ok, a) := _at_send a line (len * 2) in
            if negb ok then (HexReturned false, a)
            else at_send_hex_loop fuel' a data size oset
        end
    end
  else (HexReturned true, a).

Definition at_send_hex (fuel : nat) (a : at_freertos) (data : list Z) (size : Z)
  : hex_status * at_freertos :=
  at_send_hex_loop fuel a data size 0.

End WithWrite.

End HalSend.

(** The life of the channel: allocation, open, close, free, and the
    reader task. *)
Module HalPort.
Import Parser Hal.

(** The members of [struct at_freertos] that the command path leaves out:
    whether [xUART], [xTask] and [xSem] are non-null, and [running]; and
    of what lies behind the handles, whether the receiver of the transport
    was enabled and whether the task and the semaphore were deleted. *)
Record at_port : Type := mk_port {
  dev : at_freertos;
  xUART : bool;
  xTask : bool;
  xSem_handle : bool;
  running : bool;
  rx_enable : bool;
  task_deleted : bool;
  sem_deleted : bool;
}.

Definition set_dev (a : at_freertos) (c : at_port) :=
  mk_port a (xUART c) (xTask c) (xSem_handle c) (running c) (rx_enable c)
          (task_deleted c) (sem_deleted c).
Definition set_xUART (b : bool) (c : at_port) :=
  mk_port (dev c) b (xTask c) (xSem_handle c) (running c) (rx_enable c)
          (task_deleted c) (sem_deleted c).
Definition set_running (b : bool) (c : at_port) :=
  mk_port (dev c) (xUART c) (xTask c) (xSem_handle c) b (rx_enable c)
          (task_deleted c) (sem_deleted c).
Definition set_rx_enable (b : bool) (c : at_port) :=
  mk_port (dev c) (xUART c) (xTask c) (xSem_handle c) (running c) b
          (task_deleted c) (sem_deleted c).
Definition set_task_deleted (b : bool) (c : at_port) :=
  mk_port (dev c) (xUART c) (xTask c) (xSem_handle c) (running c) (rx_enable c)
          b (sem_deleted c).
Definition set_sem_deleted (b : bool) (c : at_port) :=
  mk_port (dev c) (xUART c) (xTask c) (xSem_handle c) (running c) (rx_enable c)
          (task_deleted c) b.

Definition set_timeout (t : Z) (a : at_freertos) :=
  mk_at (parser a) (cbs a) (command_scanner a) t (response a) (xSem a)
        (uart_tx a) (urc_log a) (open a) (waiting a).
Definition set_cbs (c : option at_callbacks) (a : at_freertos) :=
  mk_at (parser a) c (command_scanner a) (timeout a) (response a) (xSem a)
        (uart_tx a) (urc_log a) (open a) (waiting a).

Section WithBufSize.

Variable AT_BUF_SIZE : Z.

(** [at_alloc_freertos], for the case that the semaphore and the task are
    created. [memset] zeroes the structure. The parser is what
    [at_parser_alloc] returned, [p_uart] tells whether the pointer passed
    is non-null, [sem] whether the new semaphore can be taken. *)
Definition at_alloc_freertos (p : at_parser) (p_uart : bool) (sem : bool) : at_port :=
  mk_port (mk_at p None None 0 (replicate (Z.to_nat AT_BUF_SIZE) 0) sem
                 [] [] false false)
          p_uart true true true false false false.

(** [at_open]: the value returned and the port. *)
Definition at_open (c : at_port) : Z * at_port :=
  if negb (xUART c) then (-1, c)
  else
    let c := set_rx_enable true c in
    let c := set_dev (set_open true (dev c)) c in
    let c := set_dev (snd (xSemaphoreTake_now (dev c))) c in
    (0, c).

(** [at_close]. [priv->xUART->ops->deinit] is reached through [xUART]
    whether or not it is null: with a null [xUART] the call has no
    result. *)
Definition at_close (c : at_port) : option (Z * at_port) :=
  (* Mark the port descriptor as invalid. *)
  let c := set_dev (set_open false (dev c)) c in
  if negb (xUART c) then None
  else
    let c := set_xUART false c in
    Some (0, c).

(** [at_free]. The handles [xTask] and [xSem] stay as they are. *)
Definition at_free (c : at_port) : option at_port :=
  (* make sure the channel is closed *)
  match at_close c with
  | None => None
  | Some (_, c) =>
      (* ask the reader thread to terminate *)
      let c := set_running false c in
      let c := if xTask c then set_task_deleted true c else c in
      (* delete the semaphore *)
      let c := if xSem_handle c then set_sem_deleted true c else c in
      Some c
  end.

(** [at_set_callbacks], [at_set_command_scanner], [at_set_timeout] *)
Definition at_set_callbacks (cbs : option at_callbacks) (c : at_port) : at_port :=
  set_dev (set_cbs cbs (dev c)) c.
Definition at_set_command_scanner (scanner : option line_scanner) (c : at_port)
  : at_port :=
  set_dev (set_command_scanner scanner (dev c)) c.
Definition at_set_timeout (timeout : Z) (c : at_port) : at_port :=
  set_dev (set_timeout timeout (dev c)) c.

(** One round of the loop of [at_reader_thread]. [rx] is the byte that
    [ops->read] delivers in this round, if it delivers one. *)
Definition at_reader_round (rx : option Z) (c : at_port) : option at_port :=
  if negb (running c) then Some c
  else if negb (open (dev c)) then Some c
  else
    match rx with
    | Some ch =>
        (* Data received, feed the parser. *)
        match reader_feed AT_BUF_SIZE ch (dev c) with
        | Some a => Some (set_dev a c)
        | None => None
        end
    | None => Some c
    end.

End WithBufSize.

End HalPort.

(** ** Statements about the dispatcher *)

Module HalSendSpec.
Import Parser Hal HalSend.

(** The value of a hexadecimal digit, for the digits 0-9 and A-F. *)
Definition hex_value (c : Z) : option Z :=
  if (48 <=? c) && (c <=? 57) then Some (c - 48)
  else if (65 <=? c) && (c <=? 70) then Some (c - 55)
  else None.

(** Bytes as text: two hexadecimal digits each, the high one first. *)
Definition hex_text (data : list Z) : list Z :=
  concat (map (fun b => [fst (byte_to_hex b); snd (byte_to_hex b)]) data).

(** A transport that reports every write as done. *)
Definition writes_succeed (ops_write : list Z -> Z) : Prop :=
  forall chunk : list Z, ops_write chunk <> 0.

(** Writes of [n] bytes each, but for the last, which may be shorter and
    is not empty. *)
Fixpoint full_but_last (n : nat) (ws : list (list Z)) : Prop :=
  match ws with
  | [] => True
  | w :: ws' =>
      match ws' with
      | [] => (0 < length w <= n)%nat
      | _ :: _ => length w = n /\ full_but_last n ws'
      end
  end.

End HalSendSpec.

Module HalRunSpec.
Import Parser ParserSpec Hal.

(** The parser as the reader task hands it to [at_parser_feed]: the
    session scanner of the parser is the [scan_line] of the dispatcher. *)
Definition reader_parser (a : at_freertos) : at_parser :=
  let p := parser a in
  mk_parser (Some (scan_line a)) (priv p) (per_command_scanner p)
            (state p) (data_left p) (nibble p) (buf p) (buf_used p)
            (buf_size p) (buf_current p).


(** The bytes that arrive in one tick. *)
Definition received (data : list Z) : tick := map EnvByte data.

(** What the callbacks never touch. *)
Definition same_channel (a a' : at_freertos) : Prop :=
  command_scanner a' = command_scanner a /\ cbs a' = cbs a
  /\ open a' = open a /\ timeout a' = timeout a /\ uart_tx a' = uart_tx a.

End HalRunSpec.

Module PortFixtures.
Import Parser Hal HalPort Fixtures.

(** A dispatcher with a response buffer of 32 bytes, allocated on a
    transport and opened; and the same after [at_close]. *)
Definition open_port : at_port :=
  snd (at_open (at_alloc_freertos 32 fresh true false)).
Definition closed_port : at_port :=
  set_xUART false (set_dev (set_open false (dev open_port)) open_port).

(** The open port with session callbacks: a URC handler and no scanner. *)
Definition listening_port : at_port :=
  at_set_callbacks (Some (mk_callbacks None true)) open_port.

End PortFixtures.

(** ** Statements about lines and calls *)

Module LineSpec.
Import Parser ParserSpec.

Definition is_response (c : callback) : bool :=
  match c with HandleResponse _ _ => true | _ => false end.

Definition is_urc (c : callback) : bool :=
  match c with HandleUrc _ _ => true | _ => false end.

(** The calls of [handle_response] and of [handle_urc] in a trace. *)
Definition responses (tr : trace) : list callback :=
  List.filter is_response (calls tr).
Definition urcs (tr : trace) : list callback :=
  List.filter is_urc (calls tr).

(** A CR or an LF. *)
Definition blank (c : Z) : Prop := c = CR \/ c = LF.

(** The buffer holds the committed lines [ls] and nothing of a next line. *)
Definition committed (p : at_parser) (ls : list (list Z)) : Prop :=
  used_bytes p = join ls /\ buf_current p = buf_used p.

(** The scanners that are installed answer [AT_RESPONSE_UNKNOWN] on every
    line: the built-in scanner alone classifies. *)
Definition scanners_defer (p : at_parser) : Prop :=
  (forall f, per_command_scanner p = Some f ->
             forall line len, f line len = AT_RESPONSE_UNKNOWN)
  /\ (forall g, cbs_scan_line p = Some g ->
                forall line len, g line len = AT_RESPONSE_UNKNOWN).

(** What the bytes of a line leave as they are. *)
Definition same_setup (p p' : at_parser) : Prop :=
  state p' = state p
  /\ per_command_scanner p' = per_command_scanner p
  /\ cbs_scan_line p' = cbs_scan_line p
  /\ buf_size p' = buf_size p.

(** Lines as a modem sends them, each ended by CR LF. *)
Definition crlf_lines (ls : list (list Z)) : list Z :=
  concat (map (fun l => l ++ [CR; LF]) ls).

(** What a callback is handed lies in the buffer of the instance it is
    called on: [len] bytes up to [buf_used], below [buf_size], with a NUL
    behind them. *)
Definition call_in_buffer (e : callback * at_parser) : Prop :=
  let q := snd e in
  match fst e with
  | HandleResponse payload len =>
      len = buf_used q /\ payload = used_bytes q
      /\ Z.of_nat (length payload) = len /\ len < buf_size q
      /\ buf q !! Z.to_nat len = Some 0
  | HandleUrc line len | ScanLine line len | CommandScan line len =>
      len = buf_used q - buf_current q /\ 0 < len
      /\ line = drop (Z.to_nat (buf_current q)) (used_bytes q)
      /\ Z.of_nat (length line) = len /\ buf_used q < buf_size q
      /\ buf q !! Z.to_nat (buf_used q) = Some 0
  end.

End LineSpec.

(** ** Parsers in the middle of a response *)

Module LineFixtures.
Import Parser ParserSpec Fixtures.

(** A command is awaited and "+CSQ: 21,0" is committed; the next line is
    in the buffer up to its CR, the LF has not been read. *)
Definition before_lf (line : list Z) : at_parser :=
  snd (fst (feed_bytes armed
              (CString.bytes "+CSQ: 21,0" ++ [CR; LF] ++ line ++ [CR]))).

Definition before_error_lf : at_parser := before_lf (CString.bytes "ERROR").
Definition before_ring_lf : at_parser := before_lf (CString.bytes "RING").
Definition before_creg_lf : at_parser := before_lf (CString.bytes "+CREG: 1").

(** A parser with a buffer of eight bytes that awaits a response and has
    read "AT+CSQ?", seven bytes of an echoed line: the buffer is full. *)
Definition small : at_parser :=
  at_parser_await_response (at_parser_alloc None 8 0 (replicate 8 0) 0) false None.
Definition full_line : at_parser :=
  snd (fst (feed_bytes small (CString.bytes "AT+CSQ?"))).

End LineFixtures.

(** ** Properties of the C string functions *)

Module CStringFacts.
Import CString.

(** Comparing over the length of a NUL-free string [t] finds equality
    exactly when [t] is a prefix, whatever follows [t] in its memory. *)
Lemma strncmp_prefix (t rest : list Z) :
  nul_free t ->
  forall line : list Z,
    strncmp line (t ++ rest) (length t) = 0 <-> t `prefix_of` line.
Proof.
  induction 1 as [|c t Hc Ht IH]; intros line;
    cbn [strncmp length deref hd tl app].
  - split; [intros _; apply prefix_nil | reflexivity].
  - destruct line as [|d line]; cbn [deref hd tl].
    + destruct (0 =? c) eqn:E; [apply Z.eqb_eq in E; congruence|].
      apply Z.eqb_neq in E. split; [intros; exfalso; lia|].
      intros Hp. apply prefix_length in Hp. simpl in Hp. lia.
    + destruct (d =? c) eqn:E.
      * apply Z.eqb_eq in E. subst d.
        destruct (c =? 0) eqn:E0; [apply Z.eqb_eq in E0; congruence|].
        rewrite IH. split; [apply prefix_cons | apply prefix_cons_inv_2].
      * apply Z.eqb_neq in E. split; [intros; exfalso; lia|].
        intros Hp. apply prefix_cons_inv_1 in Hp. congruence.
Qed.

Lemma prefix_before_nul (t l r : list Z) :
  nul_free t -> t `prefix_of` l ++ 0 :: r <-> t `prefix_of` l.
Proof.
  intros Ht. split; [|apply prefix_app_r].
  revert l. induction Ht as [|c t Hc Ht IH]; intros l Hp; [apply prefix_nil|].
  destruct l as [|d l]; simpl in Hp.
  - apply prefix_cons_inv_1 in Hp. congruence.
  - pose proof (prefix_cons_inv_1 _ _ _ _ Hp) as ->.
    apply prefix_cons, IH. now apply prefix_cons_inv_2 in Hp.
Qed.

Lemma strlen_nul_free (t rest : list Z) :
  nul_free t -> strlen (t ++ 0 :: rest) = length t.
Proof.
  induction 1 as [|c t Hc Ht IH]; [reflexivity|].
  cbn [app strlen length]. rewrite (proj2 (Z.eqb_neq _ _)) by assumption.
  now rewrite IH.
Qed.

Lemma contents_nul_free (s : list Z) : nul_free (contents s).
Proof.
  unfold contents. induction s as [|c s IH]; [constructor|].
  cbn [strlen]. destruct (Z.eqb_spec c 0); [constructor|].
  cbn [take]. constructor; assumption.
Qed.

(** Memory is the contents of the string in it and then a NUL, or the
    contents alone where the model of the memory ends. *)
Lemma contents_split (s : list Z) :
  s = contents s \/ exists r, s = contents s ++ 0 :: r.
Proof.
  unfold contents. induction s as [|c s IH]; [now left|].
  cbn [strlen]. destruct (Z.eqb_spec c 0) as [->|Hc].
  - right. exists s. reflexivity.
  - cbn [take]. destruct IH as [IH|[r IH]].
    + left. now rewrite <- IH.
    + right. exists r. cbn [app]. now rewrite <- IH.
Qed.

Lemma prefix_contents (t s : list Z) :
  nul_free t -> t `prefix_of` s <-> t `prefix_of` contents s.
Proof.
  intros Ht. destruct (contents_split s) as [Hs|[r Hs]].
  - now rewrite <- Hs.
  - rewrite Hs at 1. now apply prefix_before_nul.
Qed.

Lemma bytes_nul_free_app (l1 l2 : list Z) :
  nul_free l1 -> nul_free l2 -> nul_free (l1 ++ l2).
Proof. intros H1 H2. apply Forall_app. now split. Qed.

End CStringFacts.

(** ** Properties of the parser *)

Module ParserFacts.
Import CString CStringFacts Parser ParserSpec Fixtures.

Lemma size_t_wrap_small (x : Z) : 0 <= x < SIZE_MOD -> size_t_wrap x = x.
Proof. intros H. unfold size_t_wrap. now apply Z.mod_small. Qed.

Lemma SIZE_MOD_value : SIZE_MOD = 4294967296.
Proof. reflexivity. Qed.

(** Unfolds the predicates and the setters, and leaves arithmetic. *)
Ltac wf_unfold :=
  unfold parser_wf, cursors_ok, store, set_buf, set_buf_used, set_buf_current,
    set_state, set_data_left, set_nibble, set_per_command_scanner in *;
  simpl in *; rewrite ?length_insert in *.

Lemma parser_append_eq (p : at_parser) (ch : Z) :
  parser_wf p ->
  parser_append p ch =
    if buf_used p <? buf_size p - 1
    then set_buf_used (buf_used p + 1) (store (buf_used p) ch p)
    else p.
Proof.
  intros Hwf. unfold parser_append. wf_unfold.
  rewrite (size_t_wrap_small (buf_size p - 1)) by lia.
  destruct (buf_used p <? buf_size p - 1) eqn:E; [|reflexivity].
  apply Z.ltb_lt in E. rewrite size_t_wrap_small by lia. reflexivity.
Qed.

Lemma parser_append_wf (p : at_parser) (ch : Z) :
  parser_wf p -> parser_wf (parser_append p ch).
Proof.
  intros Hwf. rewrite parser_append_eq by assumption.
  destruct (buf_used p <? buf_size p - 1) eqn:E; [|assumption].
  apply Z.ltb_lt in E. wf_unfold. lia.
Qed.

Lemma parser_append_fields (p : at_parser) (ch : Z) :
  buf_size (parser_append p ch) = buf_size p
  /\ buf_current (parser_append p ch) = buf_current p
  /\ state (parser_append p ch) = state p
  /\ data_left (parser_append p ch) = data_left p
  /\ nibble (parser_append p ch) = nibble p
  /\ per_command_scanner (parser_append p ch) = per_command_scanner p
  /\ cbs_scan_line (parser_append p ch) = cbs_scan_line p
  /\ priv (parser_append p ch) = priv p.
Proof. unfold parser_append. destruct (_ <? _); repeat split; reflexivity. Qed.

Lemma discard_line_eq (p : at_parser) :
  parser_wf p ->
  discard_line p =
    let c := if buf_current p >? 0 then buf_current p - 1 else buf_current p in
    set_buf_used c (set_buf_current c p).
Proof.
  intros Hwf. unfold discard_line.
  destruct (buf_current p >? 0) eqn:E; [|reflexivity].
  apply Z.gtb_lt in E. wf_unfold. rewrite size_t_wrap_small by lia. reflexivity.
Qed.

Lemma discard_line_wf (p : at_parser) :
  parser_wf p -> parser_wf (discard_line p).
Proof.
  intros Hwf. rewrite discard_line_eq by assumption.
  destruct (buf_current p >? 0) eqn:E; wf_unfold; lia.
Qed.

Lemma store_wf (p : at_parser) (i ch : Z) :
  parser_wf p -> parser_wf (store i ch p).
Proof. intros Hwf. wf_unfold. lia. Qed.

Lemma at_parser_reset_wf (p : at_parser) :
  0 < buf_size p < SIZE_MOD -> Z.of_nat (length (buf p)) = buf_size p ->
  parser_wf (at_parser_reset p).
Proof. intros H1 H2. unfold at_parser_reset. wf_unfold. lia. Qed.

Lemma parser_handle_line_wf (p : at_parser) :
  parser_wf p ->
  parser_wf (fst (parser_handle_line p))
  /\ Forall (fun e => parser_wf (snd e)) (snd (parser_handle_line p)).
Proof.
  intros Hwf. unfold parser_handle_line.
  destruct (buf_used p =? buf_current p); [split; [assumption | constructor]|].
  pose proof (store_wf p (buf_used p) 0 Hwf) as Hs.
  set (q := store (buf_used p) 0 p) in *. clearbody q.
  assert (Htr : Forall (fun e => parser_wf (snd e)) (snd (determine_type q))).
  { unfold determine_type, scan_per_command, scan_session.
    destruct (per_command_scanner q), (cbs_scan_line q);
      repeat match goal with |- context [if ?b then _ else _] => destruct b end;
      simpl; repeat first [assumption | constructor; simpl]. }
  destruct (determine_type q) as [type tr]. simpl in Htr.
  destruct ((type =? AT_RESPONSE_URC) || bool_decide (state q = STATE_IDLE)).
  { simpl. split; [now apply discard_line_wf|].
    apply Forall_app.
    split; [assumption | repeat first [assumption | constructor; simpl]]. }
  set (q' := if negb (type =? AT_RESPONSE_FINAL_OK)
             then set_buf_current (buf_used q) q
             else store (buf_used (discard_line q)) 0 (discard_line q)).
  assert (Hq' : parser_wf q').
  { subst q'. destruct (negb (type =? AT_RESPONSE_FINAL_OK)).
    - wf_unfold. lia.
    - apply store_wf. now apply discard_line_wf. }
  clearbody q'.
  repeat match goal with |- context [if ?b then _ else _] => destruct b end;
    simpl; (split; [| try (apply Forall_app; split; [assumption|]);
                      repeat first [assumption | constructor; simpl]]).
  - apply at_parser_reset_wf; wf_unfold; lia.
  - wf_unfold. lia.
  - wf_unfold. lia.
  - assumption.
Qed.

Lemma set_buf_current_used_wf (p : at_parser) :
  parser_wf p -> parser_wf (set_buf_current (buf_used p) p).
Proof. intros Hwf. wf_unfold. lia. Qed.

Lemma feed_line_append_wf (p : at_parser) (ch : Z) :
  parser_wf p -> parser_wf (feed_line_append p ch).
Proof.
  intros Hwf. unfold feed_line_append. apply parser_append_wf.
  destruct ((buf_used p >? 0) && (buf_current p =? buf_used p)); [|assumption].
  apply set_buf_current_used_wf. now apply parser_append_wf.
Qed.

Lemma feed_line_byte_wf (p : at_parser) (ch : Z) :
  parser_wf p ->
  parser_wf (fst (feed_line_byte p ch))
  /\ Forall (fun e => parser_wf (snd e)) (snd (feed_line_byte p ch)).
Proof.
  intros Hwf. unfold feed_line_byte.
  set (p1 := if negb (ch =? CR) && negb (ch =? LF) then _ else p).
  assert (H1 : parser_wf p1).
  { subst p1. destruct (negb (ch =? CR) && negb (ch =? LF)); [|assumption].
    now apply feed_line_append_wf. }
  clearbody p1.
  destruct ((ch =? LF) || _).
  - now apply parser_handle_line_wf.
  - split; [assumption | constructor].
Qed.

Lemma feed_rawdata_byte_wf (p : at_parser) (ch : Z) :
  parser_wf p -> parser_wf (feed_rawdata_byte p ch).
Proof.
  intros Hwf. unfold feed_rawdata_byte.
  set (p1 := if data_left p >? 0 then _ else p).
  assert (H1 : parser_wf p1).
  { subst p1. destruct (data_left p >? 0); [|assumption].
    pose proof (parser_append_wf p ch Hwf) as Ha.
    destruct (parser_append p ch). wf_unfold. lia. }
  clearbody p1.
  destruct (data_left p1 =? 0); [|assumption].
  pose proof (parser_append_wf p1 LF H1) as Ha.
  destruct (parser_append p1 LF). wf_unfold. lia.
Qed.

Lemma at_parser_feed_wf (fuel : nat) :
  forall (p : at_parser) (data : list Z) (len : Z),
    parser_wf p ->
    parser_wf (snd (fst (at_parser_feed fuel p data len)))
    /\ Forall (fun e => parser_wf (snd e)) (snd (at_parser_feed fuel p data len)).
Proof.
  unfold at_parser_feed.
  induction fuel as [|fuel IH]; intros p data len Hwf; simpl.
  - destruct (len >? 0); simpl; split; (assumption || constructor).
  - destruct (len >? 0); [|simpl; split; (assumption || constructor)].
    destruct (state p).
    1-3: destruct data as [|ch data']; [simpl; split; (assumption || constructor)|];
      destruct (feed_line_byte_wf p ch Hwf) as [Hp' Htr];
      destruct (feed_line_byte p ch) as [p' tr]; simpl in Hp', Htr;
      specialize (IH p' data' (size_t_wrap (len - 1)) Hp');
      destruct (at_parser_feed_loop fuel p' data' (size_t_wrap (len - 1)))
        as [[st p''] tr']; simpl in *;
      split; [tauto | apply Forall_app; tauto].
    + destruct data as [|ch data']; [simpl; split; (assumption || constructor)|].
      apply IH. now apply feed_rawdata_byte_wf.
    + now apply IH.
Qed.

Lemma do_call_wf (c : call) (p : at_parser) :
  parser_wf p ->
  parser_wf (snd (fst (do_call c p)))
  /\ Forall (fun e => parser_wf (snd e)) (snd (do_call c p)).
Proof.
  intros Hwf. destruct c as [data len fuel|dataprompt scanner|]; simpl.
  - now apply at_parser_feed_wf.
  - split; [|constructor]. unfold at_parser_await_response. wf_unfold. lia.
  - split; [|constructor]. apply at_parser_reset_wf; wf_unfold; lia.
Qed.

Lemma observable_wf (cs : list call) :
  forall p : at_parser, parser_wf p -> Forall parser_wf (observable cs p).
Proof.
  induction cs as [|c cs IH]; intros p Hwf; simpl.
  - constructor; [assumption | constructor].
  - constructor; [assumption|].
    destruct (do_call_wf c p Hwf) as [Hp' Htr].
    destruct (do_call c p) as [[st p'] tr]. simpl in Hp', Htr.
    apply Forall_app. split.
    + apply Forall_map. exact Htr.
    + destruct st; [now apply IH | |]; (constructor; [assumption | constructor]).
Qed.

Lemma at_parser_alloc_wf (scan_line : option line_scanner) (bufsize priv : Z)
    (heap_buf : list Z) (heap_nibble : Z) :
  1 <= bufsize < SIZE_MOD -> Z.of_nat (length heap_buf) = bufsize ->
  parser_wf (at_parser_alloc scan_line bufsize priv heap_buf heap_nibble).
Proof.
  intros Hsize Hlen. unfold at_parser_alloc.
  apply at_parser_reset_wf; simpl; lia.
Qed.

(** An append leaves every byte from [buf_size - 1] on as it is. *)
Lemma parser_append_above (p : at_parser) (ch : Z) (i : nat) :
  0 <= buf_used p -> 1 <= buf_size p < SIZE_MOD ->
  buf_size p - 1 <= Z.of_nat i ->
  buf (parser_append p ch) !! i = buf p !! i.
Proof.
  intros Hused Hsize Hi. unfold parser_append.
  rewrite (size_t_wrap_small (buf_size p - 1)) by lia.
  destruct (buf_used p <? buf_size p - 1) eqn:E; [|reflexivity].
  apply Z.ltb_lt in E. simpl. apply list_lookup_insert_ne. lia.
Qed.

(** C4. On a parser allocated with [bufsize >= 1], after any sequence of
    [at_parser_feed], [at_parser_await_response] and [at_parser_reset]
    calls, [0 <= buf_current <= buf_used < buf_size] holds at every
    observable point: before and after each call and at each callback, also
    in a feed that does not return. And [parser_append], on whatever
    instance with a [buf_size] of at least one it is called, writes no byte
    at an index from [buf_size - 1] on. *)
Theorem buffer_cursor_invariant
    (scan_line : option line_scanner) (bufsize priv : Z)
    (heap_buf : list Z) (heap_nibble : Z) (cs : list call) :
  1 <= bufsize < SIZE_MOD ->
  Z.of_nat (length heap_buf) = bufsize ->
  Forall cursors_ok
         (observable cs (at_parser_alloc scan_line bufsize priv heap_buf heap_nibble))
  /\ forall (p : at_parser) (ch : Z) (i : nat),
       1 <= buf_size p < SIZE_MOD -> 0 <= buf_used p ->
       buf_size p - 1 <= Z.of_nat i ->
       buf (parser_append p ch) !! i = buf p !! i.
Proof.
  intros Hsize Hlen. split.
  - eapply Forall_impl;
      [apply observable_wf, at_parser_alloc_wf; assumption|].
    now intros p [Hc _].
  - intros p ch i Hp Hused Hi. now apply parser_append_above.
Qed.

Lemma buffer_cursor_invariant_witness :
  1 <= 64 < SIZE_MOD
  /\ Z.of_nat (length (replicate 64 0)) = 64
  /\ Forall cursors_ok
            (observable [AwaitResponse false None;
                         Feed (CString.bytes "OK" ++ [CR; LF]) 4 9;
                         Reset]
                        (at_parser_alloc None 64 0 (replicate 64 0) 0)).
Proof.
  assert (H1 : 1 <= 64 < SIZE_MOD) by (rewrite SIZE_MOD_value; lia).
  assert (H2 : Z.of_nat (length (replicate 64 0)) = 64) by reflexivity.
  split; [exact H1|]. split; [exact H2|].
  exact (proj1 (buffer_cursor_invariant None 64 0 (replicate 64 0) 0
                  [AwaitResponse false None;
                   Feed (CString.bytes "OK" ++ [CR; LF]) 4 9; Reset] H1 H2)).
Defined.

(** *** The classifier chain *)

Lemma at_prefix_in_table_Exists (line : list Z) (table : list (list Z)) :
  Forall nul_free table ->
  at_prefix_in_table line table = true <-> Exists (fun t => t `prefix_of` line) table.
Proof.
  induction 1 as [|t table Ht Htable IH]; simpl.
  - split; [discriminate | intros H; inversion H].
  - destruct (CString.strncmp line t (length t) =? 0) eqn:E.
    + rewrite <- (app_nil_r t) in E at 1.
      apply Z.eqb_eq, strncmp_prefix in E; [|assumption].
      split; [intros _; now left | reflexivity].
    + apply Z.eqb_neq in E. rewrite <- (app_nil_r t) in E at 1.
      rewrite strncmp_prefix in E by assumption.
      rewrite IH. split; [now right|]. intros H. inversion H; subst; tauto.
Qed.

Lemma tables_nul_free :
  Forall nul_free urc_responses /\ Forall nul_free error_responses
  /\ Forall nul_free ok_responses.
Proof.
  repeat split; repeat constructor; vm_compute; discriminate.
Qed.

(** The line as memory is its bytes and then the NUL just stored. *)
Lemma line_mem_terminated (p : at_parser) :
  parser_wf p ->
  line_mem (store (buf_used p) 0 p)
  = line_bytes p ++ 0 :: drop (S (Z.to_nat (buf_used p))) (buf p).
Proof.
  intros [[Hc Hu] [Hs Hl]]. unfold line_mem, line_bytes, line_len, line_mem, store.
  simpl. rewrite size_t_wrap_small by lia.
  rewrite insert_take_drop by lia.
  rewrite drop_app_le by (rewrite length_take; lia).
  f_equal. rewrite take_drop_commute. f_equal. f_equal. lia.
Qed.

Lemma line_bytes_store (p : at_parser) (ch : Z) :
  parser_wf p ->
  line_bytes (store (buf_used p) ch p) = line_bytes p
  /\ line_len (store (buf_used p) ch p) = line_len p.
Proof.
  intros [[Hc Hu] [Hs Hl]]. unfold line_bytes, line_len, line_mem, store. simpl.
  split; [|reflexivity]. rewrite size_t_wrap_small by lia.
  rewrite !take_drop_commute. f_equal. apply take_insert_ge. lia.
Qed.

Lemma generic_line_scanner_builtin (line rest : list Z) (len : Z) :
  generic_line_scanner (line ++ 0 :: rest) len = builtin_scanner line.
Proof.
  destruct tables_nul_free as (Hurc & Herr & Hok).
  assert (Hex : forall table : list string,
             Forall nul_free (map CString.bytes table) ->
             at_prefix_in_table (line ++ 0 :: rest) (map CString.bytes table) = true
             <-> starts_with_any line table).
  { intros table Hfree. rewrite at_prefix_in_table_Exists by assumption.
    unfold starts_with_any, starts_with. rewrite Exists_fmap.
    clear -Hfree. induction table as [|t table IH]; simpl.
    - split; inversion 1.
    - inversion Hfree; subst.
      split; inversion 1; subst;
        first [left; now apply (prefix_before_nul _ line rest)
              | right; now apply IH]. }
  unfold generic_line_scanner, builtin_scanner.
  pose proof (Hex urc_prefixes Hurc) as H1.
  pose proof (Hex error_prefixes Herr) as H2.
  pose proof (Hex ok_prefixes Hok) as H3.
  change (map CString.bytes urc_prefixes) with urc_responses in H1.
  change (map CString.bytes error_prefixes) with error_responses in H2.
  change (map CString.bytes ok_prefixes) with ok_responses in H3.
  assert (Hf : forall (b : bool) (P : Prop), (b = true <-> P) -> b = false -> ~ P).
  { intros b P Hiff Hb HP. apply Hiff in HP. congruence. }
  destruct (at_prefix_in_table _ urc_responses) eqn:E1.
  { rewrite decide_True by (now apply H1). reflexivity. }
  rewrite decide_False by (now apply (Hf _ _ H1)).
  destruct (at_prefix_in_table _ error_responses) eqn:E2.
  { rewrite decide_True by (now apply H2). reflexivity. }
  rewrite decide_False by (now apply (Hf _ _ H2)).
  destruct (at_prefix_in_table _ ok_responses) eqn:E3.
  { rewrite decide_True by (now apply H3). reflexivity. }
  rewrite decide_False by (now apply (Hf _ _ H3)). reflexivity.
Qed.

(** C5. Every completed non-empty line is classified by the chain of the
    scanners that are installed, per-command scanner first, then the
    session [scan_line], then the built-in scanner, where an answer of
    [AT_RESPONSE_UNKNOWN] defers to the next; the scanner callbacks are made
    in that order and only as far as the chain is followed; and the built-in
    scanner answers URC for the prefix "RING", FINAL for the prefixes
    "ERROR", "NO CARRIER", "+CME ERROR:" and "+CMS ERROR:", FINAL_OK for the
    prefixes "OK" and "> ", compared byte by byte and tried in that order,
    and INTERMEDIATE otherwise. *)
Theorem classifier_chain (p : at_parser) :
  parser_wf p ->
  buf_used p <> buf_current p ->
  let q := store (buf_used p) 0 p in
  let line := line_bytes p in
  let len := line_len p in
  fst (determine_type q) = chain_type (installed p) line len
  /\ calls (snd (determine_type q))
     = concat (map (classifier_call line len) (chain_asked (installed p) line len))
  /\ fst (determine_type q) <> AT_RESPONSE_UNKNOWN
  /\ (exists tr, snd (parser_handle_line p) = snd (determine_type q) ++ tr).
Proof.
  intros Hwf Hne q line len.
  destruct (line_bytes_store p 0 Hwf) as [Hb Hl].
  pose proof (line_mem_terminated p Hwf) as Hm.
  assert (Hgen : generic_line_scanner (line_mem q) (line_len q) = builtin_scanner line).
  { subst q. rewrite Hm. apply generic_line_scanner_builtin. }
  assert (Hnz : builtin_scanner line <> 0).
  { unfold builtin_scanner. repeat case_decide; discriminate. }
  assert (Hhl : exists tr, snd (parser_handle_line p) = snd (determine_type q) ++ tr).
  { unfold parser_handle_line.
    destruct (buf_used p =? buf_current p) eqn:E; [apply Z.eqb_eq in E; congruence|].
    fold q. destruct (determine_type q) as [type tr]. simpl.
    repeat match goal with |- context [if ?b then _ else _] => destruct b end;
      simpl; eauto using app_nil_r. }
  unfold determine_type, scan_per_command, scan_session, scan_generic in *.
  fold q in Hb, Hl. rewrite Hb, Hl, Hgen in *. fold line len in Hhl |- *.
  unfold installed.
  replace (per_command_scanner q) with (per_command_scanner p) in * by reflexivity.
  replace (cbs_scan_line q) with (cbs_scan_line p) in * by reflexivity.
  destruct (per_command_scanner p) as [f|], (cbs_scan_line p) as [g|]; simpl;
    unfold AT_RESPONSE_UNKNOWN in *;
    repeat match goal with
           | |- context [?x =? 0] => destruct (Z.eqb_spec x 0); simpl
           end;
    repeat split; try reflexivity; try assumption; try congruence.
Qed.

(** *** Steps of the feed loop *)

Lemma feed_loop_done (fuel : nat) (p : at_parser) (data : list Z) :
  at_parser_feed fuel p data 0 = (FeedReturned, p, []).
Proof. destruct fuel; reflexivity. Qed.

Lemma feed_loop_line_step (fuel : nat) (p : at_parser) (ch : Z)
    (data : list Z) (len : Z) :
  line_state (state p) = true -> 0 < len ->
  at_parser_feed (S fuel) p (ch :: data) len
  = let '(p', tr) := feed_line_byte p ch in
    let '(st, p'', tr') := at_parser_feed fuel p' data (size_t_wrap (len - 1)) in
    (st, p'', tr ++ tr').
Proof.
  intros Hst Hlen. unfold at_parser_feed.
  cbn [at_parser_feed_loop].
  rewrite (proj2 (Z.gtb_lt _ _)) by lia.
  destruct (state p); try discriminate; reflexivity.
Qed.

Lemma feed_loop_raw_step (fuel : nat) (p : at_parser) (ch : Z)
    (data : list Z) (len : Z) :
  state p = STATE_RAWDATA -> 0 < len ->
  at_parser_feed (S fuel) p (ch :: data) len
  = at_parser_feed fuel (feed_rawdata_byte p ch) data len.
Proof.
  intros Hst Hlen. unfold at_parser_feed.
  cbn [at_parser_feed_loop].
  rewrite (proj2 (Z.gtb_lt _ _)) by lia.
  rewrite Hst. reflexivity.
Qed.

(** *** The data prompt *)

Lemma parser_append_room (p : at_parser) (ch : Z) :
  0 <= buf_used p -> buf_used p < buf_size p - 1 -> buf_size p < SIZE_MOD ->
  parser_append p ch = set_buf_used (buf_used p + 1) (store (buf_used p) ch p).
Proof.
  intros H0 H1 H2. unfold parser_append.
  rewrite (size_t_wrap_small (buf_size p - 1)) by lia.
  rewrite (proj2 (Z.ltb_lt _ _)) by assumption.
  rewrite size_t_wrap_small by lia. reflexivity.
Qed.

(** C2, as amended. On a parser whose buffer is empty and holds at least
    three bytes, armed with [dataprompt = true] and no per-command scanner,
    and whose session [scan_line], if there is one, defers on the prompt,
    feeding the two bytes "> " completes the line at once. The built-in
    scanner classes the line as FINAL_OK, so the line is discarded:
    [handle_response] is called exactly once, with the empty payload and
    length 0, and the parser is back in IDLE. *)
Theorem data_prompt_delivery (p : at_parser) :
  parser_wf p ->
  buf_used p = 0 ->
  3 <= buf_size p ->
  (forall g, cbs_scan_line p = Some g ->
             g (CString.bytes "> ") 2 = AT_RESPONSE_UNKNOWN) ->
  exists (p' : at_parser) (tr : trace),
    feed_bytes (at_parser_await_response p true None) (CString.bytes "> ")
    = (FeedReturned, p', tr)
    /\ state p' = STATE_IDLE
    /\ buf_used p' = 0
    /\ calls tr
       = match cbs_scan_line p with
         | Some _ => [ScanLine (CString.bytes "> ") 2]
         | None => []
         end ++ [HandleResponse [] 0].
Proof.
  intros [[Hc Hu] [Hs Hl]] Hused Hsize Hg.
  destruct p as [sl pv pcs st dl nb bf used size cur]. simpl in *. subst used.
  assert (cur = 0) by lia. subst cur.
  destruct bf as [|b0 [|b1 [|b2 rest]]]; simpl in Hl; try lia.
  change (CString.bytes "> ") with [62; 32] in *.
  unfold feed_bytes, at_parser_await_response.
  set (p1 := set_state STATE_DATAPROMPT _).
  set (p2 := mk_parser sl pv None STATE_DATAPROMPT dl nb
                       (62 :: b1 :: b2 :: rest) 1 size 0).
  set (p3 := mk_parser sl pv None STATE_DATAPROMPT dl nb
                       (62 :: 32 :: b2 :: rest) 2 size 0).
  assert (HA : feed_line_byte p1 62 = (p2, [])).
  { unfold feed_line_byte, feed_line_append.
    cbn -[parser_append parser_handle_line].
    rewrite parser_append_room by (cbn; lia). reflexivity. }
  assert (HB : feed_line_byte p2 32 = parser_handle_line p3).
  { unfold feed_line_byte, feed_line_append.
    cbn -[parser_append parser_handle_line].
    rewrite parser_append_room by (cbn; lia). reflexivity. }
  assert (HC : exists p' tr,
             parser_handle_line p3 = (p', tr) /\ state p' = STATE_IDLE
             /\ buf_used p' = 0
             /\ calls tr = match sl with
                           | Some _ => [ScanLine [62; 32] 2]
                           | None => []
                           end ++ [HandleResponse [] 0]).
  { assert (Hlb : line_bytes (store 2 0 p3) = [62; 32]) by reflexivity.
    assert (Hll : line_len (store 2 0 p3) = 2) by reflexivity.
    unfold parser_handle_line.
    change (buf_used p3 =? buf_current p3) with false.
    change (buf_used p3) with 2. cbv iota.
    unfold determine_type, scan_per_command, scan_session, scan_generic.
    rewrite Hlb, Hll.
    change (per_command_scanner (store 2 0 p3)) with (@None line_scanner).
    change (cbs_scan_line (store 2 0 p3)) with sl.
    destruct sl as [g|]; cbv iota beta.
    - change (0 =? 0) with true. cbv iota. rewrite (Hg g eq_refl).
      eexists _, _. split; [vm_compute; reflexivity|].
      vm_compute. repeat split.
    - eexists _, _. split; [vm_compute; reflexivity|].
      vm_compute. repeat split. }
  destruct HC as (p' & tr & HC & Hst & Hbu & Htr).
  exists p', tr. repeat split; try assumption.
  change (at_parser_feed _ p1 [62; 32] _) with (at_parser_feed 5 p1 [62; 32] 2).
  rewrite (feed_loop_line_step _ p1 62 [32] 2) by (reflexivity || lia).
  rewrite HA.
  rewrite (feed_loop_line_step _ p2 32 [] (size_t_wrap (2 - 1)))
    by (reflexivity || (vm_compute; reflexivity)).
  rewrite HB, HC.
  change (size_t_wrap (size_t_wrap (2 - 1) - 1)) with 0.
  rewrite feed_loop_done. cbn [app]. rewrite app_nil_r. reflexivity.
Qed.

Lemma data_prompt_delivery_witness :
  parser_wf fresh /\ buf_used fresh = 0 /\ 3 <= buf_size fresh
  /\ exists (p' : at_parser) (tr : trace),
       feed_bytes (at_parser_await_response fresh true None) (CString.bytes "> ")
       = (FeedReturned, p', tr)
       /\ state p' = STATE_IDLE
       /\ buf_used p' = 0
       /\ calls tr = [] ++ [HandleResponse [] 0].
Proof.
  assert (Hwf : parser_wf fresh).
  { apply at_parser_alloc_wf; [rewrite SIZE_MOD_value; lia | reflexivity]. }
  split; [exact Hwf|]. split; [reflexivity|].
  split; [vm_compute; discriminate|].
  apply (data_prompt_delivery fresh Hwf).
  - reflexivity.
  - vm_compute. discriminate.
  - intros g Hg. discriminate Hg.
Defined.

(** C2 as stated fails: on a freshly allocated parser armed with
    [dataprompt = true] and no scanner, the two bytes "> " give one call of
    [handle_response], and its payload is empty with length 0, not "> " with
    length 2. *)
Lemma data_prompt_payload_is_empty :
  calls (snd (feed_bytes (at_parser_await_response fresh true None)
                         (CString.bytes "> ")))
  = [HandleResponse [] 0]
  /\ calls (snd (feed_bytes (at_parser_await_response fresh true None)
                            (CString.bytes "> ")))
     <> [HandleResponse (CString.bytes "> ") 2].
Proof. split; [vm_compute; reflexivity | vm_compute; discriminate]. Qed.

(** *** The committed lines *)

Lemma join_snoc (ls : list (list Z)) (l : list Z) :
  join (ls ++ [l]) = lead ls ++ l.
Proof.
  induction ls as [|a ls IH]; [reflexivity|].
  destruct ls as [|b ls].
  - cbn. rewrite <- app_assoc. reflexivity.
  - change (join ((a :: b :: ls) ++ [l]))
      with (a ++ LF :: join ((b :: ls) ++ [l])).
    rewrite IH. unfold lead. cbn [join].
    rewrite <- !app_assoc. reflexivity.
Qed.

Lemma join_nil_inv (ls : list (list Z)) :
  Forall text_line ls -> join ls = [] -> ls = [].
Proof.
  intros Hls Hj. destruct ls as [|a ls]; [reflexivity|].
  inversion Hls as [|? ? [Ha _] _]; subst.
  cbn [join] in Hj. destruct ls; [congruence|].
  destruct a; [congruence | discriminate].
Qed.

Lemma lead_nonempty (ls : list (list Z)) :
  ls <> [] -> lead ls = join ls ++ [LF].
Proof. destruct ls; [congruence | reflexivity]. Qed.

Lemma used_bytes_length (p : at_parser) :
  parser_wf p -> Z.of_nat (length (used_bytes p)) = buf_used p.
Proof.
  intros [[Hc Hu] [Hs Hl]]. unfold used_bytes. rewrite length_take. lia.
Qed.

Lemma parser_append_room_view (p : at_parser) (ch : Z) :
  parser_wf p -> buf_used p < buf_size p - 1 ->
  used_bytes (parser_append p ch) = used_bytes p ++ [ch]
  /\ buf_used (parser_append p ch) = buf_used p + 1
  /\ buf_current (parser_append p ch) = buf_current p.
Proof.
  intros Hwf Hroom. destruct Hwf as [[Hc Hu] [Hs Hl]].
  rewrite parser_append_room by lia.
  unfold used_bytes. simpl. repeat split.
  replace (Z.to_nat (buf_used p + 1)) with (S (Z.to_nat (buf_used p))) by lia.
  rewrite (take_S_r _ _ ch) by (apply list_lookup_insert_eq; lia).
  rewrite take_insert_ge by lia. reflexivity.
Qed.

Lemma parser_append_full (p : at_parser) (ch : Z) :
  parser_wf p -> buf_size p - 1 <= buf_used p -> parser_append p ch = p.
Proof.
  intros Hwf Hfull. rewrite parser_append_eq by assumption.
  destruct (buf_used p <? buf_size p - 1) eqn:E; [|reflexivity].
  apply Z.ltb_lt in E. lia.
Qed.

Lemma used_bytes_store (p : at_parser) (i ch : Z) :
  buf_used p <= i -> used_bytes (store i ch p) = used_bytes p.
Proof. intros Hi. unfold used_bytes. simpl. apply take_insert_ge. lia. Qed.

Lemma feed_line_append_holds (p : at_parser) (ls : list (list Z)) (ch : Z) :
  parser_wf p -> holds_lines p ls -> not_newline ch ->
  holds_lines (feed_line_append p ch) ls.
Proof.
  intros Hwf [Hls Hshape] Hch. split; [assumption|].
  pose proof (used_bytes_length p Hwf) as Hlen.
  pose proof Hwf as [[Hc Hu] [Hs Hl]].
  assert (Hsz : buf_size (feed_line_append p ch) = buf_size p).
  { unfold feed_line_append.
    destruct ((buf_used p >? 0) && (buf_current p =? buf_used p));
      [|apply parser_append_fields].
    destruct (parser_append_fields
                (set_buf_current (buf_used (parser_append p LF)) (parser_append p LF))
                ch) as [-> _].
    simpl. apply parser_append_fields. }
  rewrite Hsz. unfold feed_line_append.
  remember (used_bytes p) as U eqn:HU.
  remember (buf_current p) as c eqn:Hcur.
  remember (buf_size p) as size eqn:Hsize.
  destruct Hshape as [ls|ls cur Hne Hcur'|ls Hne Hfull].
  - (* between two lines *)
    destruct (Z.eq_dec (buf_used p) 0) as [H0|H0].
    + rewrite H0. cbn [Z.gtb Z.compare andb].
      assert (ls = []) as ->.
      { apply join_nil_inv; [assumption|]. destruct (join ls); [reflexivity|].
        simpl in Hlen. lia. }
      destruct (Z.lt_ge_cases (buf_used p) (buf_size p - 1)) as [Hroom|Hroom].
      * destruct (parser_append_room_view p ch Hwf Hroom) as (-> & _ & ->).
        rewrite <- HU, <- Hcur. apply (shape_in_line size [] [ch]); [discriminate|].
        repeat constructor; apply Hch.
      * rewrite parser_append_full by (assumption || lia).
        rewrite <- HU, <- Hcur. apply (shape_between size []).
    + rewrite (proj2 (Z.gtb_lt _ _)) by lia.
      rewrite (proj2 (Z.eqb_eq _ _)) by lia. cbn [andb].
      assert (Hls' : ls <> []).
      { intros ->. simpl in Hlen. lia. }
      destruct (Z.lt_ge_cases (buf_used p) (buf_size p - 1)) as [Hroom|Hroom].
      * destruct (parser_append_room_view p LF Hwf Hroom) as (HU1 & Hu1 & Hc1).
        pose proof (parser_append_wf p LF Hwf) as Hwf1.
        set (p1 := parser_append p LF) in *.
        pose proof (set_buf_current_used_wf p1 Hwf1) as Hwf2.
        set (p2 := set_buf_current (buf_used p1) p1) in *.
        assert (HU2 : used_bytes p2 = lead ls).
        { change (used_bytes p2) with (used_bytes p1).
          rewrite HU1, <- HU. symmetry. now apply lead_nonempty. }
        assert (Hc2 : buf_current p2 = Z.of_nat (length (lead ls))).
        { change (buf_current p2) with (buf_used p1).
          rewrite <- HU2. symmetry. exact (used_bytes_length p2 Hwf2). }
        destruct (Z.lt_ge_cases (buf_used p2) (buf_size p2 - 1)) as [Hroom2|Hroom2].
        -- destruct (parser_append_room_view p2 ch Hwf2 Hroom2) as (-> & _ & ->).
           rewrite HU2, Hc2. apply shape_in_line; [discriminate|].
           repeat constructor; apply Hch.
        -- rewrite parser_append_full by assumption.
           rewrite HU2, Hc2. apply shape_full; [assumption|].
           rewrite <- Hc2. change (buf_current p2) with (buf_used p2).
           destruct Hwf2 as [[? ?] ?].
           replace (buf_size p2) with size in *
             by (subst size; subst p2 p1; apply eq_sym, parser_append_fields).
           lia.
      * rewrite (parser_append_full p LF) by assumption.
        pose proof (set_buf_current_used_wf p Hwf) as Hwf2.
        rewrite parser_append_full by (assumption || (simpl; lia)).
        change (used_bytes (set_buf_current (buf_used p) p)) with (used_bytes p).
        change (buf_current (set_buf_current (buf_used p) p)) with (buf_used p).
        rewrite <- HU, <- Hlen. apply shape_between.
  - (* within a line *)
    assert (Hlt : buf_current p < buf_used p).
    { rewrite <- Hlen, <- Hcur, length_app. destruct cur; [congruence|]. simpl. lia. }
    rewrite (proj2 (Z.eqb_neq _ _)) by lia. rewrite andb_false_r.
    destruct (Z.lt_ge_cases (buf_used p) (buf_size p - 1)) as [Hroom|Hroom].
    + destruct (parser_append_room_view p ch Hwf Hroom) as (-> & _ & ->).
      rewrite <- HU, <- Hcur, <- app_assoc.
      apply shape_in_line; [destruct cur; discriminate|].
      apply Forall_app. split; [assumption | repeat constructor; apply Hch].
    + rewrite parser_append_full by assumption.
      rewrite <- HU, <- Hcur. now apply shape_in_line.
  - (* full *)
    assert (Hused : buf_used p = size - 1) by lia.
    assert (Hpos : 0 < buf_used p).
    { rewrite <- Hlen. rewrite lead_nonempty by assumption.
      rewrite length_app. simpl. lia. }
    rewrite (proj2 (Z.gtb_lt _ _)) by lia.
    rewrite (proj2 (Z.eqb_eq _ _)) by lia. cbn [andb].
    rewrite (parser_append_full p LF) by (assumption || lia).
    pose proof (set_buf_current_used_wf p Hwf) as Hwf2.
    rewrite parser_append_full by (assumption || (simpl; lia)).
    change (used_bytes (set_buf_current (buf_used p) p)) with (used_bytes p).
    change (buf_current (set_buf_current (buf_used p) p)) with (buf_used p).
    rewrite <- HU, <- Hlen. now apply shape_full.
Qed.

Lemma generic_line_scanner_text (line : list Z) (len : Z) :
  text_type (generic_line_scanner line len).
Proof.
  unfold generic_line_scanner.
  repeat match goal with |- context [if ?b then _ else _] => destruct b end;
    split; vm_compute; discriminate.
Qed.

Lemma determine_type_text (q : at_parser) :
  text_only q ->
  text_type (fst (determine_type q))
  /\ Forall (fun e => response_of_lines (fst e)) (snd (determine_type q)).
Proof.
  intros [Hf Hg].
  unfold determine_type, scan_per_command, scan_session, scan_generic.
  destruct (per_command_scanner q) as [f|], (cbs_scan_line q) as [g|];
    repeat match goal with |- context [?x =? 0] => destruct (x =? 0) end;
    cbn [fst snd app]; split;
    try (repeat (constructor; cbn); fail);
    try apply generic_line_scanner_text;
    try (apply (Hf _ eq_refl)); try (apply (Hg _ eq_refl));
    split; vm_compute; discriminate.
Qed.

(** The state of the cursors after [discard_line] within a line: the
    committed lines alone. *)
Lemma discard_line_in_line (q : at_parser) (ls : list (list Z))
    (cur : list Z) :
  parser_wf q ->
  used_bytes q = lead ls ++ cur ->
  buf_current q = Z.of_nat (length (lead ls)) ->
  used_bytes (discard_line q) = join ls
  /\ buf_current (discard_line q) = Z.of_nat (length (join ls))
  /\ buf_used (discard_line q) = Z.of_nat (length (join ls)).
Proof.
  intros Hwf HU Hc. pose proof Hwf as [[Hc0 Hu] [Hs Hl]].
  rewrite discard_line_eq by assumption.
  unfold used_bytes in *. cbn [buf buf_used buf_current set_buf_used set_buf_current].
  destruct ls as [|l ls].
  - cbn [lead length] in Hc. rewrite Hc. cbn. repeat split.
  - assert (Hlen : Z.of_nat (length (lead (l :: ls)))
                   = Z.of_nat (length (join (l :: ls))) + 1).
    { unfold lead. rewrite length_app. simpl. lia. }
    rewrite (proj2 (Z.gtb_lt _ _)) by lia.
    rewrite Hc, Hlen.
    replace (Z.of_nat (length (join (l :: ls))) + 1 - 1)
      with (Z.of_nat (length (join (l :: ls)))) by lia.
    repeat split. rewrite Nat2Z.id.
    assert (Hle : (length (join (l :: ls)) <= Z.to_nat (buf_used q))%nat).
    { apply (f_equal (@length Z)) in HU. rewrite length_take, length_app in HU.
      unfold lead in HU. rewrite length_app in HU. lia. }
    replace (length (join (l :: ls)))
      with (min (length (join (l :: ls))) (Z.to_nat (buf_used q))) at 1 by lia.
    rewrite <- take_take.
    rewrite HU. unfold lead. rewrite <- app_assoc. apply take_app_length.
Qed.

Lemma discard_line_fields (q : at_parser) :
  state (discard_line q) = state q
  /\ per_command_scanner (discard_line q) = per_command_scanner q
  /\ cbs_scan_line (discard_line q) = cbs_scan_line q
  /\ buf_size (discard_line q) = buf_size q
  /\ buf (discard_line q) = buf q.
Proof. unfold discard_line. destruct (_ >? _); repeat split. Qed.

(** With the cursors apart the buffer is within a line, and that line is
    what the callbacks are given. *)
Lemma holds_in_line (p : at_parser) (ls : list (list Z)) :
  parser_wf p -> holds_lines p ls -> buf_used p <> buf_current p ->
  text_line (line_bytes p)
  /\ used_bytes p = lead ls ++ line_bytes p
  /\ buf_current p = Z.of_nat (length (lead ls)).
Proof.
  intros Hwf [Hls Hshape] Hne.
  pose proof (used_bytes_length p Hwf) as Hlen.
  pose proof Hwf as [[Hc Hu] [Hs Hl]].
  assert (Hline : line_bytes p = drop (Z.to_nat (buf_current p)) (used_bytes p)).
  { unfold line_bytes, line_len, line_mem, used_bytes.
    rewrite size_t_wrap_small by lia. rewrite take_drop_commute.
    do 2 f_equal. lia. }
  remember (used_bytes p) as U eqn:HU.
  remember (buf_current p) as c eqn:Hcur.
  destruct Hshape as [ls|ls cur Hcne Hnn|ls Hlne Hfull]; [lia| |lia].
  rewrite Hline, Nat2Z.id, drop_app_length. repeat split; assumption.
Qed.

Lemma at_parser_reset_holds (p : at_parser) :
  holds_lines (at_parser_reset p) [].
Proof. split; [constructor|]. apply (shape_between (buf_size p) []). Qed.

Lemma parser_handle_line_text (p : at_parser) :
  text_inv p ->
  text_inv (fst (parser_handle_line p))
  /\ Forall (fun e => response_of_lines (fst e)) (snd (parser_handle_line p)).
Proof.
  intros (Hwf & [ls Hholds] & Hst & Htext).
  unfold parser_handle_line.
  destruct (buf_used p =? buf_current p) eqn:E.
  { split; [|constructor].
    exact (conj Hwf (conj (ex_intro _ ls Hholds) (conj Hst Htext))). }
  apply Z.eqb_neq in E.
  destruct (holds_in_line p ls Hwf Hholds E) as (Hline & HU & Hc).
  destruct Hholds as [Hls _].
  pose proof (store_wf p (buf_used p) 0 Hwf) as Hwfq.
  assert (HUq : used_bytes (store (buf_used p) 0 p) = lead ls ++ line_bytes p).
  { rewrite used_bytes_store by lia. exact HU. }
  set (q := store (buf_used p) 0 p) in *.
  assert (Htq : text_only q) by exact Htext.
  destruct (determine_type_text q Htq) as [Htype Htr].
  destruct (determine_type q) as [t tr]. cbn [fst snd] in Htype, Htr.
  destruct (discard_line_in_line q ls (line_bytes p) Hwfq HUq Hc) as (HUd & Hcd & Hud).
  destruct (discard_line_fields q) as (Hsd & Hpd & Hgd & Hzd & Hbd).
  assert (Hinv_d : text_inv (discard_line q)).
  { split; [now apply discard_line_wf|]. split; [|split].
    - exists ls. split; [assumption|]. rewrite HUd, Hcd. apply shape_between.
    - rewrite Hsd. exact Hst.
    - unfold text_only. rewrite Hpd, Hgd. exact Htq. }
  destruct ((t =? AT_RESPONSE_URC) || bool_decide (state q = STATE_IDLE)).
  { cbn [fst snd]. split; [assumption|].
    apply Forall_app. split; [assumption | repeat constructor]. }
  set (q' := if negb (t =? AT_RESPONSE_FINAL_OK) then _ else _).
  assert (Hq' : text_inv q'
                /\ exists ls', Forall text_line ls' /\ used_bytes q' = join ls').
  { subst q'. destruct (negb (t =? AT_RESPONSE_FINAL_OK)).
    - assert (Hall : Forall text_line (ls ++ [line_bytes p])).
      { apply Forall_app. split; [assumption | repeat constructor; apply Hline]. }
      split; [|exists (ls ++ [line_bytes p]); split;
                 [assumption | rewrite join_snoc; exact HUq]].
      split; [now apply set_buf_current_used_wf|]. split; [|split; assumption].
      exists (ls ++ [line_bytes p]). split; [assumption|].
      change (used_bytes (set_buf_current (buf_used q) q)) with (used_bytes q).
      change (buf_current (set_buf_current (buf_used q) q)) with (buf_used q).
      rewrite <- (used_bytes_length q Hwfq), HUq, <- join_snoc.
      apply shape_between.
    - destruct Hinv_d as (Hwd & _ & Hsd' & Htd).
      assert (HUs : used_bytes (store (buf_used (discard_line q)) 0 (discard_line q))
                    = join ls).
      { rewrite used_bytes_store by lia. exact HUd. }
      split; [|exists ls; split; assumption].
      split; [now apply store_wf|]. split; [|split; assumption].
      exists ls. split; [assumption|]. rewrite HUs.
      change (buf_current (store (buf_used (discard_line q)) 0 (discard_line q)))
        with (buf_current (discard_line q)).
      rewrite Hcd. apply shape_between. }
  clearbody q'. destruct Hq' as [Hinv' (ls' & Hls' & HU')].
  destruct Htype as [Hraw Hhex].
  destruct ((Z.land t _AT_RESPONSE_TYPE_MASK =? AT_RESPONSE_FINAL_OK)
            || (Z.land t _AT_RESPONSE_TYPE_MASK =? AT_RESPONSE_FINAL)).
  { cbn [fst snd]. destruct Hinv' as (Hw' & _ & _ & Ht'). split.
    - split; [apply at_parser_reset_wf; destruct Hw' as [[? ?] [? ?]];
              [lia | assumption]|].
      split; [exists []; apply at_parser_reset_holds|].
      split; [reflexivity|]. split; [discriminate | apply Ht'].
    - apply Forall_app. split; [assumption|]. repeat constructor.
      exists ls'. split; [assumption|]. split; [exact HU'|].
      change (take (Z.to_nat (buf_used q')) (buf q')) with (used_bytes q').
      symmetry. now apply used_bytes_length. }
  destruct (Z.eqb_spec (Z.land t _AT_RESPONSE_TYPE_MASK) _AT_RESPONSE_RAWDATA_FOLLOWS);
    [congruence|].
  destruct (Z.eqb_spec (Z.land t _AT_RESPONSE_TYPE_MASK) _AT_RESPONSE_HEXDATA_FOLLOWS);
    [congruence|].
  cbn [fst snd]. split; assumption.
Qed.

Lemma feed_line_append_fields (p : at_parser) (ch : Z) :
  state (feed_line_append p ch) = state p
  /\ per_command_scanner (feed_line_append p ch) = per_command_scanner p
  /\ cbs_scan_line (feed_line_append p ch) = cbs_scan_line p.
Proof.
  unfold feed_line_append.
  destruct ((buf_used p >? 0) && (buf_current p =? buf_used p)).
  - destruct (parser_append_fields
                (set_buf_current (buf_used (parser_append p LF)) (parser_append p LF))
                ch) as (_ & _ & -> & _ & _ & -> & -> & _).
    destruct (parser_append_fields p LF) as (_ & _ & H1 & _ & _ & H2 & H3 & _).
    repeat split; assumption.
  - destruct (parser_append_fields p ch) as (_ & _ & H1 & _ & _ & H2 & H3 & _).
    repeat split; assumption.
Qed.

Lemma feed_line_byte_text (p : at_parser) (ch : Z) :
  text_inv p ->
  text_inv (fst (feed_line_byte p ch))
  /\ Forall (fun e => response_of_lines (fst e)) (snd (feed_line_byte p ch)).
Proof.
  intros Hinv. unfold feed_line_byte.
  set (p1 := if negb (ch =? CR) && negb (ch =? LF) then _ else p).
  assert (H1 : text_inv p1).
  { subst p1. destruct (Z.eqb_spec ch CR) as [|Hcr]; [assumption|].
    destruct (Z.eqb_spec ch LF) as [|Hlf]; [assumption|]. cbn [negb andb].
    destruct Hinv as (Hwf & [ls Hls] & Hst & Htext).
    destruct (feed_line_append_fields p ch) as (Hs & Hp & Hg).
    split; [now apply feed_line_append_wf|]. split; [|split].
    - exists ls. apply feed_line_append_holds; [assumption..|now split].
    - now rewrite Hs.
    - unfold text_only. now rewrite Hp, Hg. }
  clearbody p1.
  destruct ((ch =? LF) || _).
  - now apply parser_handle_line_text.
  - split; [assumption | constructor].
Qed.

Lemma at_parser_feed_text (fuel : nat) :
  forall (p : at_parser) (data : list Z) (len : Z),
    text_inv p ->
    text_inv (snd (fst (at_parser_feed fuel p data len)))
    /\ Forall (fun e => response_of_lines (fst e))
              (snd (at_parser_feed fuel p data len)).
Proof.
  unfold at_parser_feed.
  induction fuel as [|fuel IH]; intros p data len Hinv; simpl.
  - destruct (len >? 0); simpl; split; (assumption || constructor).
  - destruct (len >? 0); [|simpl; split; (assumption || constructor)].
    pose proof Hinv as (_ & _ & Hst & _).
    destruct (state p); try discriminate;
      (destruct data as [|ch data']; [simpl; split; (assumption || constructor)|]);
      destruct (feed_line_byte_text p ch Hinv) as [Hp' Htr];
      destruct (feed_line_byte p ch) as [p' tr]; simpl in Hp', Htr;
      specialize (IH p' data' (size_t_wrap (len - 1)) Hp');
      destruct (at_parser_feed_loop fuel p' data' (size_t_wrap (len - 1)))
        as [[st p''] tr']; simpl in *;
      (split; [tauto | apply Forall_app; tauto]).
Qed.

Lemma parser_handle_line_final_ok (p : at_parser) (ls : list (list Z)) :
  parser_wf p -> holds_lines p ls ->
  state p <> STATE_IDLE ->
  buf_used p <> buf_current p ->
  fst (determine_type (store (buf_used p) 0 p)) = AT_RESPONSE_FINAL_OK ->
  used_bytes p = lead ls ++ line_bytes p
  /\ exists q : at_parser,
       used_bytes q = join ls
       /\ parser_handle_line p
          = (at_parser_reset q,
             snd (determine_type (store (buf_used p) 0 p))
               ++ [(HandleResponse (join ls) (Z.of_nat (length (join ls))), q)]).
Proof.
  intros Hwf Hholds Hidle Hne Htype.
  destruct (holds_in_line p ls Hwf Hholds Hne) as (Hline & HU & Hc).
  split; [exact HU|].
  pose proof (store_wf p (buf_used p) 0 Hwf) as Hwfq.
  assert (HUq : used_bytes (store (buf_used p) 0 p) = lead ls ++ line_bytes p).
  { rewrite used_bytes_store by lia. exact HU. }
  unfold parser_handle_line.
  rewrite (proj2 (Z.eqb_neq _ _)) by assumption.
  set (q := store (buf_used p) 0 p) in *.
  destruct (determine_type q) as [t tr]. cbn [fst snd] in *. subst t.
  destruct (discard_line_in_line q ls (line_bytes p) Hwfq HUq Hc) as (HUd & Hcd & Hud).
  change (AT_RESPONSE_FINAL_OK =? AT_RESPONSE_URC) with false.
  rewrite bool_decide_eq_false_2 by exact Hidle.
  cbn [orb negb]. change (AT_RESPONSE_FINAL_OK =? AT_RESPONSE_FINAL_OK) with true.
  cbv iota.
  change (Z.land AT_RESPONSE_FINAL_OK _AT_RESPONSE_TYPE_MASK =? AT_RESPONSE_FINAL_OK)
    with true.
  cbn [orb]. cbv iota zeta.
  set (q' := store (buf_used (discard_line q)) 0 (discard_line q)).
  assert (HU' : used_bytes q' = join ls).
  { subst q'. rewrite used_bytes_store by lia. exact HUd. }
  exists q'. split; [exact HU'|].
  cbn [negb]. cbv iota.
  change (take (Z.to_nat (buf_used q')) (buf q')) with (used_bytes q').
  rewrite HU'. change (buf_used q') with (buf_used (discard_line q)).
  rewrite Hud. reflexivity.
Qed.

Lemma at_parser_alloc_text (scan_line : option line_scanner) (bufsize priv : Z)
    (heap_buf : list Z) (heap_nibble : Z) :
  1 <= bufsize < SIZE_MOD -> Z.of_nat (length heap_buf) = bufsize ->
  (forall g, scan_line = Some g -> text_scanner g) ->
  text_inv (at_parser_alloc scan_line bufsize priv heap_buf heap_nibble).
Proof.
  intros Hsize Hlen Hg. split; [now apply at_parser_alloc_wf|].
  split; [exists []; apply at_parser_reset_holds|].
  split; [reflexivity|]. split; [discriminate | exact Hg].
Qed.

Lemma at_parser_await_response_text (p : at_parser) (dataprompt : bool)
    (scanner : option line_scanner) :
  text_inv p -> (forall f, scanner = Some f -> text_scanner f) ->
  text_inv (at_parser_await_response p dataprompt scanner).
Proof.
  intros (Hwf & [ls Hls] & Hst & Htext) Hf.
  split; [exact Hwf|]. split; [exists ls; exact Hls|].
  split; [destruct dataprompt; reflexivity|].
  split; [exact Hf | apply Htext].
Qed.

Lemma join_no_trailing_LF (ls : list (list Z)) :
  Forall text_line ls -> last (join ls) <> Some LF.
Proof.
  destruct ls as [|l ls _] using rev_ind; [discriminate|].
  intros Hls. apply Forall_app in Hls as [_ Hl].
  inversion Hl as [|? ? [Hne Hnn] _]; subst.
  rewrite join_snoc, last_app.
  destruct (last l) as [y|] eqn:Hlast; [|now apply last_None in Hlast].
  apply last_Some_elem_of in Hlast.
  rewrite Forall_forall in Hnn. specialize (Hnn y Hlast).
  intros [= ->]. now apply Hnn.
Qed.

(** A FINAL_OK line on whatever well-formed parser awaits a response:
    [handle_response] is called last, on the buffer cut back to before the
    line and the one byte in front of it, with the bytes left as payload. *)
Lemma parser_handle_line_final_ok_cut (p : at_parser) :
  parser_wf p ->
  state p <> STATE_IDLE ->
  buf_used p <> buf_current p ->
  fst (determine_type (store (buf_used p) 0 p)) = AT_RESPONSE_FINAL_OK ->
  exists (q : at_parser) (sep : list Z),
    parser_handle_line p
    = (at_parser_reset q,
       snd (determine_type (store (buf_used p) 0 p))
         ++ [(HandleResponse (used_bytes q) (buf_used q), q)])
    /\ used_bytes p = used_bytes q ++ sep ++ line_bytes p
    /\ length sep = (if buf_current p =? 0 then 0%nat else 1%nat)
    /\ buf_used q = Z.of_nat (length (used_bytes q))
    /\ buf q !! Z.to_nat (buf_used q) = Some 0.
Proof.
  intros Hwf Hidle Hne Htype.
  pose proof (store_wf p (buf_used p) 0 Hwf) as Hwfq.
  pose proof Hwf as [[[Hc0 Hcu] Hus] [Hsz Hlen]].
  unfold parser_handle_line.
  rewrite (proj2 (Z.eqb_neq _ _)) by assumption.
  set (q := store (buf_used p) 0 p) in *.
  destruct (determine_type q) as [t tr]. cbn [fst snd] in *. subst t.
  change (AT_RESPONSE_FINAL_OK =? AT_RESPONSE_URC) with false.
  change (state q) with (state p).
  rewrite bool_decide_eq_false_2 by exact Hidle.
  cbn [orb negb]. change (AT_RESPONSE_FINAL_OK =? AT_RESPONSE_FINAL_OK) with true.
  cbv iota.
  change (Z.land AT_RESPONSE_FINAL_OK _AT_RESPONSE_TYPE_MASK =? AT_RESPONSE_FINAL_OK)
    with true.
  cbn [orb negb]. cbv iota zeta.
  set (c := if buf_current p >? 0 then buf_current p - 1 else buf_current p).
  assert (Hc : 0 <= c <= buf_current p
               /\ buf_current p - c = (if buf_current p =? 0 then 0 else 1)).
  { subst c. destruct (Z.gtb_spec (buf_current p) 0), (Z.eqb_spec (buf_current p) 0);
      lia. }
  destruct Hc as [Hcr Hcd].
  assert (Hd : discard_line q = set_buf_used c (set_buf_current c q)).
  { rewrite discard_line_eq by assumption. reflexivity. }
  rewrite Hd.
  set (q' := store (buf_used (set_buf_used c (set_buf_current c q))) 0
               (set_buf_used c (set_buf_current c q))).
  assert (Hu' : buf_used q' = c) by reflexivity.
  assert (Hb' : buf q' = <[Z.to_nat c := 0]> (<[Z.to_nat (buf_used p) := 0]> (buf p)))
    by reflexivity.
  assert (HU' : used_bytes q' = take (Z.to_nat c) (buf p)).
  { unfold used_bytes. rewrite Hu', Hb'.
    rewrite take_insert_ge by lia. apply take_insert_ge. lia. }
  exists q', (take (Z.to_nat (buf_current p - c)) (drop (Z.to_nat c) (buf p))).
  split; [reflexivity|]. split; [|split; [|split]].
  - rewrite HU'. unfold used_bytes, line_bytes, line_mem, line_len.
    rewrite size_t_wrap_small by lia.
    rewrite app_assoc, take_take_drop.
    replace (Z.to_nat c + Z.to_nat (buf_current p - c))%nat
      with (Z.to_nat (buf_current p)) by lia.
    rewrite take_take_drop. f_equal. lia.
  - rewrite length_take, length_drop.
    destruct (Z.eqb_spec (buf_current p) 0); lia.
  - rewrite HU', Hu', length_take. lia.
  - rewrite Hu', Hb'. apply list_lookup_insert_eq.
    rewrite length_insert. lia.
Qed.

(** C3, as amended. First, the discard, on every well-formed parser that
    awaits a response, whatever was fed to it before: when the non-empty
    line under construction is classified FINAL_OK, [parser_handle_line]
    calls [handle_response] last and once, on a buffer cut back to before
    the line and the one byte in front of it, if there is one, and
    NUL-terminated there; the payload is the bytes of the buffer before
    that byte, so that neither the line nor the byte in front of it is in
    it. Second, take a parser between two bytes of a run whose scanners
    announce no raw or hex data ([text_inv]: well formed, in a line state,
    the buffer in the shape of some committed lines). Then every feed
    keeps it so, and every [handle_response] it makes has as payload lines
    joined by single LFs, with the length of the payload; such a payload
    has no LF at its end; and at a FINAL_OK line the buffer is the
    committed lines [ls], the separator if there are any, and that line,
    and the payload is [join ls]. *)
Theorem final_ok_discard (p : at_parser) :
  (parser_wf p ->
   state p <> STATE_IDLE ->
   buf_used p <> buf_current p ->
   fst (determine_type (store (buf_used p) 0 p)) = AT_RESPONSE_FINAL_OK ->
   exists (q : at_parser) (sep : list Z),
     parser_handle_line p
     = (at_parser_reset q,
        snd (determine_type (store (buf_used p) 0 p))
          ++ [(HandleResponse (used_bytes q) (buf_used q), q)])
     /\ used_bytes p = used_bytes q ++ sep ++ line_bytes p
     /\ length sep = (if buf_current p =? 0 then 0%nat else 1%nat)
     /\ buf_used q = Z.of_nat (length (used_bytes q))
     /\ buf q !! Z.to_nat (buf_used q) = Some 0)
  /\ (text_inv p ->
      (forall (fuel : nat) (data : list Z) (len : Z),
          text_inv (snd (fst (at_parser_feed fuel p data len)))
          /\ Forall (fun e => response_of_lines (fst e))
                    (snd (at_parser_feed fuel p data len)))
      /\ (forall c : callback,
            response_of_lines c ->
            match c with
            | HandleResponse payload _ => last payload <> Some LF
            | _ => True
            end)
      /\ (state p <> STATE_IDLE ->
          buf_used p <> buf_current p ->
          fst (determine_type (store (buf_used p) 0 p)) = AT_RESPONSE_FINAL_OK ->
          exists (ls : list (list Z)) (q : at_parser),
            Forall text_line ls
            /\ used_bytes p = lead ls ++ line_bytes p
            /\ used_bytes q = join ls
            /\ parser_handle_line p
               = (at_parser_reset q,
                  snd (determine_type (store (buf_used p) 0 p))
                    ++ [(HandleResponse (join ls) (Z.of_nat (length (join ls))), q)]))).
Proof.
  split; [apply parser_handle_line_final_ok_cut|].
  intros Hinv. split; [|split].
  - intros fuel data len. now apply at_parser_feed_text.
  - intros [payload len| | |]; try exact (fun _ => I).
    intros (ls & Hls & -> & _). now apply join_no_trailing_LF.
  - intros Hidle Hne Htype.
    destruct Hinv as (Hwf & [ls Hholds] & _ & _).
    destruct (parser_handle_line_final_ok p ls Hwf Hholds Hidle Hne Htype)
      as (HU & q & HUq & Heq).
    exists ls, q. repeat split; try assumption. apply Hholds.
Qed.

Lemma final_ok_discard_witness :
  (parser_wf after_raw_ok
   /\ state after_raw_ok <> STATE_IDLE
   /\ buf_used after_raw_ok <> buf_current after_raw_ok
   /\ fst (determine_type (store (buf_used after_raw_ok) 0 after_raw_ok))
      = AT_RESPONSE_FINAL_OK
   /\ exists (q : at_parser) (sep : list Z),
        parser_handle_line after_raw_ok
        = (at_parser_reset q,
           snd (determine_type (store (buf_used after_raw_ok) 0 after_raw_ok))
             ++ [(HandleResponse (used_bytes q) (buf_used q), q)])
        /\ used_bytes after_raw_ok = used_bytes q ++ sep ++ line_bytes after_raw_ok
        /\ length sep = (if buf_current after_raw_ok =? 0 then 0%nat else 1%nat)
        /\ buf_used q = Z.of_nat (length (used_bytes q))
        /\ buf q !! Z.to_nat (buf_used q) = Some 0)
  /\ text_inv before_ok_lf
  /\ state before_ok_lf <> STATE_IDLE
  /\ buf_used before_ok_lf <> buf_current before_ok_lf
  /\ fst (determine_type (store (buf_used before_ok_lf) 0 before_ok_lf))
     = AT_RESPONSE_FINAL_OK
  /\ exists (ls : list (list Z)) (q : at_parser),
       Forall text_line ls
       /\ used_bytes before_ok_lf = lead ls ++ line_bytes before_ok_lf
       /\ used_bytes q = join ls
       /\ parser_handle_line before_ok_lf
          = (at_parser_reset q,
             snd (determine_type (store (buf_used before_ok_lf) 0 before_ok_lf))
               ++ [(HandleResponse (join ls) (Z.of_nat (length (join ls))), q)]).
Proof.
  assert (Hwf : parser_wf after_raw_ok) by (repeat split; vm_compute; congruence).
  assert (R1 : state after_raw_ok <> STATE_IDLE) by (vm_compute; discriminate).
  assert (R2 : buf_used after_raw_ok <> buf_current after_raw_ok)
    by (vm_compute; discriminate).
  assert (R3 : fst (determine_type (store (buf_used after_raw_ok) 0 after_raw_ok))
               = AT_RESPONSE_FINAL_OK) by (vm_compute; reflexivity).
  split.
  { repeat (split; [assumption|]).
    exact (proj1 (final_ok_discard after_raw_ok) Hwf R1 R2 R3). }
  assert (Harmed : text_inv armed).
  { apply at_parser_await_response_text; [|discriminate].
    apply at_parser_alloc_text;
      [rewrite SIZE_MOD_value; lia | reflexivity | discriminate]. }
  assert (Hinv : text_inv before_ok_lf).
  { exact (proj1 (proj1 (proj2 (final_ok_discard armed) Harmed) 40%nat
                    (CString.bytes "+CSQ: 21,0" ++ [CR; LF]
                       ++ CString.bytes "OK" ++ [CR]) 15)). }
  assert (H1 : state before_ok_lf <> STATE_IDLE) by (vm_compute; discriminate).
  assert (H2 : buf_used before_ok_lf <> buf_current before_ok_lf)
    by (vm_compute; discriminate).
  assert (H3 : fst (determine_type (store (buf_used before_ok_lf) 0 before_ok_lf))
               = AT_RESPONSE_FINAL_OK) by (vm_compute; reflexivity).
  repeat (split; [assumption|]).
  exact (proj2 (proj2 (proj2 (final_ok_discard before_ok_lf) Hinv)) H1 H2 H3).
Defined.

(** C3 as stated fails after a capture of raw data. The command's scanner
    announced two bytes; a feed of length three reads them and the line
    "OK", LF. The raw bytes sit right behind the line that announced them,
    an LF follows them, and the payload handed to [handle_response] for the
    FINAL_OK line is "+Dab", LF: it ends in an LF and is not lines joined by
    single LFs. *)
Lemma final_ok_payload_after_rawdata :
  let '(st, _, tr) :=
    at_parser_feed 10 after_raw_header (CString.bytes "abOK" ++ [LF]) 3 in
  st = FeedReturned
  /\ calls tr = [CommandScan (CString.bytes "OK") 2;
                 HandleResponse (CString.bytes "+Dab" ++ [LF]) 5]
  /\ last (CString.bytes "+Dab" ++ [LF]) = Some LF
  /\ ~ response_of_lines (HandleResponse (CString.bytes "+Dab" ++ [LF]) 5).
Proof.
  vm_compute at_parser_feed.
  split; [reflexivity|]. split; [vm_compute; reflexivity|].
  split; [reflexivity|].
  intros (ls & Hls & Hj & _). apply (join_no_trailing_LF ls Hls).
  rewrite <- Hj. reflexivity.
Qed.

(** *** Feeding in the line states *)

Lemma feed_lines_text (data : list Z) :
  forall p : at_parser,
    text_inv p ->
    text_inv (fst (feed_lines p data))
    /\ Forall (fun e => response_of_lines (fst e)) (snd (feed_lines p data)).
Proof.
  induction data as [|ch data IH]; intros p Hinv; cbn [feed_lines].
  - split; [assumption | constructor].
  - destruct (feed_line_byte_text p ch Hinv) as [Hp' Htr].
    destruct (feed_line_byte p ch) as [p' tr]. cbn [fst snd] in Hp', Htr.
    specialize (IH p' Hp'). destruct (feed_lines p' data) as [p'' tr'].
    cbn [fst snd] in *. split; [tauto | apply Forall_app; tauto].
Qed.

(** In the line states a feed returns after [len] passes of the loop,
    having read the [len] bytes it was given and no more. *)
Lemma feed_text_returns (data : list Z) :
  forall (p : at_parser) (fuel : nat) (rest : list Z),
    text_inv p ->
    (length data <= fuel)%nat ->
    Z.of_nat (length data) < SIZE_MOD ->
    at_parser_feed fuel p (data ++ rest) (Z.of_nat (length data))
    = (FeedReturned, fst (feed_lines p data), snd (feed_lines p data)).
Proof.
  induction data as [|ch data IH]; intros p fuel rest Hinv Hfuel Hlen.
  - apply feed_loop_done.
  - destruct fuel as [|fuel]; [simpl in Hfuel; lia|].
    cbn [length app] in *.
    rewrite feed_loop_line_step by (apply Hinv || lia).
    cbn [feed_lines].
    destruct (feed_line_byte_text p ch Hinv) as [Hp' _].
    destruct (feed_line_byte p ch) as [p' tr]. cbn [fst] in Hp'.
    rewrite size_t_wrap_small by lia.
    replace (Z.of_nat (S (length data)) - 1) with (Z.of_nat (length data)) by lia.
    rewrite IH by (assumption || lia).
    destruct (feed_lines p' data) as [p'' tr']. reflexivity.
Qed.

Lemma feed_lines_app (data1 data2 : list Z) :
  forall p : at_parser,
    feed_lines p (data1 ++ data2)
    = (fst (feed_lines (fst (feed_lines p data1)) data2),
       snd (feed_lines p data1)
         ++ snd (feed_lines (fst (feed_lines p data1)) data2)).
Proof.
  induction data1 as [|ch data1 IH]; intros p; cbn [app feed_lines].
  - cbn [fst snd app]. now destruct (feed_lines p data2).
  - destruct (feed_line_byte p ch) as [p' tr]. rewrite IH.
    destruct (feed_lines p' data1) as [p1 tr1]. cbn [fst snd].
    destruct (feed_lines p1 data2) as [p2 tr2]. cbn [fst snd].
    now rewrite app_assoc.
Qed.

(** In the line states, with scanners that announce no data, feeding a
    byte string whole and feeding it as two chunks give the same parser and
    the same calls. *)
Lemma feed_split_text (p : at_parser) (data1 data2 : list Z) :
  text_inv p ->
  Z.of_nat (length (data1 ++ data2)) < SIZE_MOD ->
  feed_bytes p (data1 ++ data2)
  = feed_then (2 * length (data1 ++ data2) + 1) p
      data1 (Z.of_nat (length data1)) data2 (Z.of_nat (length data2)).
Proof.
  intros Hinv Hlen. unfold feed_bytes, feed_then.
  set (fuel := (2 * length (data1 ++ data2) + 1)%nat).
  assert (Hfuel : (length (data1 ++ data2) <= fuel)%nat) by (subst fuel; lia).
  rewrite length_app in Hlen, Hfuel.
  pose proof (feed_text_returns (data1 ++ data2) p fuel [] Hinv) as E.
  rewrite app_nil_r in E. rewrite E by (rewrite ?length_app; lia).
  pose proof (feed_text_returns data1 p fuel [] Hinv) as E1.
  rewrite app_nil_r in E1. rewrite E1 by lia.
  destruct (feed_lines_text data1 p Hinv) as [H1 _].
  pose proof (feed_text_returns data2 (fst (feed_lines p data1)) fuel [] H1) as E2.
  rewrite app_nil_r in E2. rewrite E2 by lia.
  rewrite feed_lines_app. reflexivity.
Qed.

(** *** Feeding in the data states *)

(** In [STATE_HEXDATA] the body of the loop is compiled out: neither [buf]
    nor [len] nor the parser changes, and the loop goes on for any fuel. *)
Lemma feed_hexdata_loops (fuel : nat) (p : at_parser) (data : list Z) (len : Z) :
  state p = STATE_HEXDATA -> 0 < len ->
  at_parser_feed fuel p data len = (FeedLooping, p, []).
Proof.
  intros Hst Hlen. unfold at_parser_feed.
  assert (Hgt : (len >? 0) = true) by (apply Z.gtb_lt; lia).
  induction fuel as [|fuel IH]; simpl; rewrite Hgt; [reflexivity|].
  rewrite Hst. exact IH.
Qed.

(** A feed whose length is more than the bytes at its pointer does not
    return: it reads past them, or is caught in the loop before. *)
Lemma feed_short_never_returns (fuel : nat) :
  forall (p : at_parser) (data : list Z) (len : Z),
    Z.of_nat (length data) < len < SIZE_MOD ->
    fst (fst (at_parser_feed fuel p data len)) <> FeedReturned.
Proof.
  unfold at_parser_feed.
  induction fuel as [|fuel IH]; intros p data len Hlen;
    cbn [at_parser_feed_loop]; rewrite (proj2 (Z.gtb_lt _ _)) by lia;
    [discriminate|].
  destruct (state p).
  1-3: destruct data as [|ch data']; [discriminate|];
    destruct (feed_line_byte p ch) as [p' tr];
    specialize (IH p' data' (size_t_wrap (len - 1)));
    rewrite size_t_wrap_small in * by lia;
    destruct (at_parser_feed_loop fuel p' data' (len - 1)) as [[st p''] tr'];
    apply IH; cbn [length] in Hlen; lia.
  - destruct data as [|ch data']; [discriminate|].
    apply IH. cbn [length] in Hlen. lia.
  - now apply IH.
Qed.

(** In [STATE_RAWDATA] a byte is read and [len] stays: a feed of exactly
    the bytes at its pointer does not return. *)
Lemma feed_rawdata_never_returns (p : at_parser) (data : list Z) :
  state p = STATE_RAWDATA -> data <> [] ->
  Z.of_nat (length data) < SIZE_MOD ->
  fst (fst (feed_bytes p data)) <> FeedReturned.
Proof.
  intros Hst Hne Hlen. unfold feed_bytes.
  destruct data as [|ch data]; [congruence|]. cbn [length] in *.
  replace (2 * S (length data) + 1)%nat with (S (2 * S (length data))) by lia.
  rewrite feed_loop_raw_step by (assumption || lia).
  apply feed_short_never_returns. lia.
Qed.

(** C10, at the failing input. A scanner that answers
    [AT_RESPONSE_HEXDATA_FOLLOWS(1)] puts the parser into [STATE_HEXDATA];
    a feed of one byte in that state is still in its loop after any number
    of passes, with the parser unchanged and nothing consumed. *)
Theorem feed_hexdata_never_returns :
  state after_hex_header = STATE_HEXDATA
  /\ forall fuel : nat,
       at_parser_feed fuel after_hex_header [65] 1
       = (FeedLooping, after_hex_header, []).
Proof.
  split; [vm_compute; reflexivity|].
  intros fuel. apply feed_hexdata_loops; [vm_compute; reflexivity | lia].
Qed.

(** C1, at the failing input. The parser waits for two bytes of raw data.
    The stream "ab", "ERROR", LF is fed from one array, once whole and once
    as the chunks "ab" and "ERROR" LF. [STATE_RAWDATA] advances [buf] and
    leaves [len] as it is: the whole feed reads two bytes past its length,
    and ends in a read past the end when the array stops with the stream;
    the first chunk reads "ER" past its length, so that the second completes
    the line "ERERROR". The whole feed calls [handle_response], the chunks
    do not. *)
Theorem feed_chunks_differ_in_rawdata :
  state after_raw_header = STATE_RAWDATA
  /\ fst (fst (feed_bytes after_raw_header raw_stream)) = FeedOverread
  /\ (let '(st, _, tr) := at_parser_feed 20 after_raw_header raw_array 8 in
      st = FeedReturned
      /\ calls tr = [CommandScan (CString.bytes "ERROR") 5;
                     HandleResponse (CString.bytes "+Dab" ++ [LF; LF]
                                       ++ CString.bytes "ERROR") 11])
  /\ (let '(st, _, tr) :=
        feed_then 20 after_raw_header raw_array 2 (drop 2 raw_array) 6 in
      st = FeedReturned
      /\ calls tr = [CommandScan (CString.bytes "ERERROR") 7]).
Proof. vm_compute. repeat split; reflexivity. Qed.

(** *** Reset *)

(** In IDLE a completed non-empty line goes to [handle_urc] whatever the
    scanners answer, [handle_response] is not called, and the line is
    discarded. *)
Lemma idle_line_takes_urc_path (p : at_parser) :
  state p = STATE_IDLE -> buf_used p <> buf_current p ->
  let q := store (buf_used p) 0 p in
  parser_handle_line p
  = (discard_line q,
     snd (determine_type q) ++ [(HandleUrc (line_bytes q) (line_len q), q)]).
Proof.
  intros Hst Hne. unfold parser_handle_line.
  rewrite (proj2 (Z.eqb_neq _ _)) by assumption.
  destruct (determine_type (store (buf_used p) 0 p)) as [type tr].
  change (state (store (buf_used p) 0 p)) with (state p).
  rewrite bool_decide_eq_true_2 by assumption.
  rewrite orb_true_r. reflexivity.
Qed.

Lemma do_call_static (c : call) (p : at_parser) :
  let p' := snd (fst (do_call c p)) in
  cbs_scan_line p' = cbs_scan_line p /\ priv p' = priv p
  /\ buf_size p' = buf_size p
  /\ (nibble p' = nibble p \/ nibble p' = -1).
Proof.
  assert (Happ : forall q ch,
             cbs_scan_line (parser_append q ch) = cbs_scan_line q
             /\ priv (parser_append q ch) = priv q
             /\ buf_size (parser_append q ch) = buf_size q
             /\ nibble (parser_append q ch) = nibble q).
  { intros q ch. pose proof (parser_append_fields q ch). tauto. }
  assert (Hhl : forall q,
             cbs_scan_line (fst (parser_handle_line q)) = cbs_scan_line q
             /\ priv (fst (parser_handle_line q)) = priv q
             /\ buf_size (fst (parser_handle_line q)) = buf_size q
             /\ (nibble (fst (parser_handle_line q)) = nibble q
                 \/ nibble (fst (parser_handle_line q)) = -1)).
  { intros q. unfold parser_handle_line, discard_line.
    repeat match goal with
           | |- context [if ?b then _ else _] => destruct b
           | |- context [determine_type ?x] => destruct (determine_type x)
           end; simpl; tauto. }
  assert (Hlb : forall q ch,
             cbs_scan_line (fst (feed_line_byte q ch)) = cbs_scan_line q
             /\ priv (fst (feed_line_byte q ch)) = priv q
             /\ buf_size (fst (feed_line_byte q ch)) = buf_size q
             /\ (nibble (fst (feed_line_byte q ch)) = nibble q
                 \/ nibble (fst (feed_line_byte q ch)) = -1)).
  { intros q ch. unfold feed_line_byte.
    set (q1 := if negb (ch =? CR) && negb (ch =? LF) then _ else q).
    assert (H1 : cbs_scan_line q1 = cbs_scan_line q /\ priv q1 = priv q
                 /\ buf_size q1 = buf_size q /\ nibble q1 = nibble q).
    { subst q1. destruct (negb (ch =? CR) && negb (ch =? LF)); [|tauto].
      unfold feed_line_append.
      destruct ((buf_used q >? 0) && (buf_current q =? buf_used q)).
      - destruct (Happ (set_buf_current (buf_used (parser_append q LF))
                          (parser_append q LF)) ch) as (-> & -> & -> & ->).
        simpl. apply Happ.
      - apply Happ. }
    clearbody q1. destruct H1 as (<- & <- & <- & <-).
    destruct ((ch =? LF) || _); [apply Hhl | simpl; tauto]. }
  assert (Hrb : forall q ch,
             cbs_scan_line (feed_rawdata_byte q ch) = cbs_scan_line q
             /\ priv (feed_rawdata_byte q ch) = priv q
             /\ buf_size (feed_rawdata_byte q ch) = buf_size q
             /\ nibble (feed_rawdata_byte q ch) = nibble q).
  { intros q ch. unfold feed_rawdata_byte.
    set (q1 := if data_left q >? 0 then _ else q).
    assert (H1 : cbs_scan_line q1 = cbs_scan_line q /\ priv q1 = priv q
                 /\ buf_size q1 = buf_size q /\ nibble q1 = nibble q).
    { subst q1. destruct (data_left q >? 0); [simpl; apply Happ | tauto]. }
    clearbody q1. destruct H1 as (<- & <- & <- & <-).
    destruct (data_left q1 =? 0); [simpl; apply Happ | tauto]. }
  destruct c as [data len fuel|dataprompt scanner|]; simpl; [|tauto..].
  unfold at_parser_feed. revert p data len.
  induction fuel as [|fuel IH]; intros p data len; simpl.
  - destruct (len >? 0); simpl; tauto.
  - destruct (len >? 0); [|simpl; tauto].
    destruct (state p).
    1-3: destruct data as [|ch data']; [simpl; tauto|];
      specialize (Hlb p ch); destruct (feed_line_byte p ch) as [p' tr];
      specialize (IH p' data' (size_t_wrap (len - 1)));
      destruct (at_parser_feed_loop fuel p' data' (size_t_wrap (len - 1)))
        as [[st p''] tr']; simpl in *;
      destruct Hlb as (<- & <- & <- & Hn), IH as (? & ? & ? & Hn');
      repeat split; try assumption; destruct Hn as [<-|Hn]; [tauto|];
      destruct Hn' as [Hn'|Hn']; [right; congruence | tauto].
    + destruct data as [|ch data']; [simpl; tauto|].
      specialize (IH (feed_rawdata_byte p ch) data' len).
      destruct (Hrb p ch) as (<- & <- & <- & <-). exact IH.
    + apply IH.
Qed.

Lemma run_calls_static (cs : list call) :
  forall p p' : at_parser,
    run_calls cs p = Some p' ->
    cbs_scan_line p' = cbs_scan_line p /\ priv p' = priv p
    /\ buf_size p' = buf_size p
    /\ (nibble p' = nibble p \/ nibble p' = -1).
Proof.
  induction cs as [|c cs IH]; intros p p' Hrun; simpl in Hrun.
  - injection Hrun as <-. tauto.
  - pose proof (do_call_static c p) as Hc.
    destruct (do_call c p) as [[st q] tr]. simpl in Hc.
    destruct st; try discriminate.
    destruct (IH q p' Hrun) as (-> & -> & -> & Hn), Hc as (-> & -> & -> & Hn').
    repeat split. destruct Hn as [->|Hn]; tauto.
Qed.

(** C9, as amended. After any sequence of calls that return, a reset
    leaves the parser in state IDLE, with the per-command scanner cleared,
    [buf_used = buf_current = 0] and [data_left = 0]; the session scanner,
    the context pointer and [buf_size] are those given to
    [at_parser_alloc], and the bytes of the buffer are those that the
    calls left. [nibble] is not reset: the
    reset keeps what the calls left, which is the allocated value or the
    [-1] that a switch to hex data stored. So the parser is as
    [at_parser_alloc] leaves one whose memory holds these bytes and this
    [nibble]. *)
Theorem reset_restores_all_but_nibble
    (scan_line : option line_scanner) (bufsize priv : Z)
    (heap_buf : list Z) (heap_nibble : Z) (cs : list call) (p : at_parser) :
  run_calls cs (at_parser_alloc scan_line bufsize priv heap_buf heap_nibble) = Some p ->
  (state (at_parser_reset p) = STATE_IDLE
   /\ per_command_scanner (at_parser_reset p) = None
   /\ buf_used (at_parser_reset p) = 0
   /\ buf_current (at_parser_reset p) = 0
   /\ data_left (at_parser_reset p) = 0)
  /\ (cbs_scan_line (at_parser_reset p) = scan_line
      /\ Parser.priv (at_parser_reset p) = priv
      /\ buf_size (at_parser_reset p) = bufsize
      /\ buf (at_parser_reset p) = buf p)
  /\ (nibble (at_parser_reset p) = nibble p
      /\ (nibble p = heap_nibble \/ nibble p = -1))
  /\ at_parser_reset p = at_parser_alloc scan_line bufsize priv (buf p) (nibble p).
Proof.
  intros Hrun. apply run_calls_static in Hrun.
  destruct Hrun as (Hs & Hp & Hb & Hn). simpl in *.
  split; [repeat split|].
  split; [repeat split; assumption|].
  split; [split; [reflexivity | exact Hn]|].
  unfold at_parser_reset, at_parser_alloc. destruct p. simpl in *.
  subst. reflexivity.
Qed.

Lemma reset_restores_all_but_nibble_witness :
  run_calls [AwaitResponse false (Some hex_scanner);
             Feed (CString.bytes "+H" ++ [LF]) 3 7]
            (at_parser_alloc None 64 0 (replicate 64 0) 0)
  = Some after_hex_header
  /\ (state (at_parser_reset after_hex_header) = STATE_IDLE
      /\ per_command_scanner (at_parser_reset after_hex_header) = None
      /\ buf_used (at_parser_reset after_hex_header) = 0
      /\ buf_current (at_parser_reset after_hex_header) = 0
      /\ data_left (at_parser_reset after_hex_header) = 0)
  /\ (cbs_scan_line (at_parser_reset after_hex_header) = None
      /\ Parser.priv (at_parser_reset after_hex_header) = 0
      /\ buf_size (at_parser_reset after_hex_header) = 64
      /\ buf (at_parser_reset after_hex_header) = buf after_hex_header)
  /\ (nibble (at_parser_reset after_hex_header) = nibble after_hex_header
      /\ (nibble after_hex_header = 0 \/ nibble after_hex_header = -1))
  /\ at_parser_reset after_hex_header
     = at_parser_alloc None 64 0 (buf after_hex_header) (nibble after_hex_header).
Proof.
  split; [vm_compute; reflexivity|].
  apply (reset_restores_all_but_nibble None 64 0 (replicate 64 0) 0
           [AwaitResponse false (Some hex_scanner);
            Feed (CString.bytes "+H" ++ [LF]) 3 7]).
  vm_compute. reflexivity.
Defined.

(** C9 as stated fails: the parser allocated with a zero [nibble] has
    [nibble = -1] after a command whose scanner announced hex data, and the
    reset keeps it. *)
Lemma reset_keeps_nibble :
  run_calls [AwaitResponse false (Some hex_scanner);
             Feed (CString.bytes "+H" ++ [LF]) 3 7] fresh
  = Some after_hex_header
  /\ nibble fresh = 0
  /\ nibble (at_parser_reset after_hex_header) = -1
  /\ at_parser_reset after_hex_header <> fresh.
Proof.
  split; [vm_compute; reflexivity|].
  split; [vm_compute; reflexivity|].
  split; [vm_compute; reflexivity|].
  intros Heq. apply (f_equal nibble) in Heq. vm_compute in Heq. discriminate.
Qed.

Lemma classifier_chain_witness :
  parser_wf before_ok_lf
  /\ buf_used before_ok_lf <> buf_current before_ok_lf
  /\ fst (determine_type (store (buf_used before_ok_lf) 0 before_ok_lf))
     = chain_type (installed before_ok_lf) (CString.bytes "OK") 2
  /\ chain_type (installed before_ok_lf) (CString.bytes "OK") 2
     = AT_RESPONSE_FINAL_OK.
Proof.
  assert (Hwf : parser_wf before_ok_lf).
  { apply at_parser_feed_wf. unfold armed, at_parser_await_response.
    apply (at_parser_alloc_wf None 64 0 (replicate 64 0) 0);
      [rewrite SIZE_MOD_value; lia | reflexivity]. }
  assert (Hne : buf_used before_ok_lf <> buf_current before_ok_lf)
    by (vm_compute; discriminate).
  split; [exact Hwf|]. split; [exact Hne|].
  split; [|vm_compute; reflexivity].
  exact (proj1 (classifier_chain before_ok_lf Hwf Hne)).
Defined.

End ParserFacts.

(** ** Properties of the dispatcher *)

Module HalFacts.
Import Parser Hal HalSpec Fixtures HalFixtures.

Section WithBufSize.

Variable AT_BUF_SIZE : Z.

Lemma run_callbacks_same_tx (cs : list callback) :
  forall a a', run_callbacks AT_BUF_SIZE cs a = Some a' -> same_tx a a'.
Proof.
  induction cs as [|c cs IH]; intros a a' H; simpl in H.
  - injection H as <-. split; reflexivity.
  - destruct c as [b l|b l|b l|b l]; try (now apply IH).
    + apply IH in H. exact H.
    + unfold handle_urc in H. destruct (cbs a) as [c|]; [|discriminate].
      destruct (handle_urc_cb c); apply IH in H; exact H.
Qed.

Lemma reader_feed_same_tx (ch : Z) (a a' : at_freertos) :
  reader_feed AT_BUF_SIZE ch a = Some a' -> same_tx a a'.
Proof.
  unfold reader_feed. intros H.
  destruct (feed_bytes _ [ch]) as [[st p'] tr].
  destruct st; try discriminate.
  apply run_callbacks_same_tx in H. exact H.
Qed.

Lemma run_tick_same_tx (t : tick) :
  forall a a', run_tick AT_BUF_SIZE t a = Some a' -> same_tx a a'.
Proof.
  induction t as [|e t IH]; intros a a' H; simpl in H.
  - injection H as <-. split; reflexivity.
  - destruct (run_action AT_BUF_SIZE e a) as [a1|] eqn:E; [|discriminate].
    apply IH in H. destruct H as [H1 H2].
    assert (Ha : same_tx a a1).
    { destruct e as [ch|]; simpl in E.
      - destruct (open a); [now apply reader_feed_same_tx in E|].
        injection E as <-. split; reflexivity.
      - unfold at_close in E. destruct (open a); [|discriminate].
        injection E as <-. split; reflexivity. }
    destruct Ha as [H3 H4]. split; congruence.
Qed.

Lemma wait_loop_same_tx (env : list tick) :
  forall a (timeout : Z) b a' env',
    wait_loop AT_BUF_SIZE env a timeout = (b, a', env') -> same_tx a a'.
Proof.
  induction env as [|t env IH]; intros a timeout b a' env' H; simpl in H.
  - destruct ((timeout =? 0) || negb (open a) || negb (waiting a));
      injection H as _ <- _; split; reflexivity.
  - destruct ((timeout =? 0) || negb (open a) || negb (waiting a)).
    { injection H as _ <- _. split; reflexivity. }
    destruct (run_tick AT_BUF_SIZE t a) as [a1|] eqn:E.
    + apply run_tick_same_tx in E. destruct E as [E1 E2].
      destruct (xSem a1).
      * injection H as _ <- _. split; simpl; assumption.
      * apply IH in H. destruct H as [H1 H2]. split; congruence.
    + injection H as _ <- _. split; reflexivity.
Qed.

(** The wait over ticks in which nothing happens. *)
Lemma wait_loop_quiet (k : nat) :
  forall (env : list tick) (a : at_freertos) (timeout : Z),
    open a = true -> waiting a = true -> xSem a = false ->
    timeout < 0 \/ Z.of_nat k <= timeout ->
    wait_loop AT_BUF_SIZE (replicate k [] ++ env) a timeout
    = wait_loop AT_BUF_SIZE env a (timeout - Z.of_nat k).
Proof.
  induction k as [|k IH]; intros env a timeout Ho Hw Hx Ht.
  - simpl. f_equal. lia.
  - cbn [replicate app wait_loop run_tick].
    rewrite Ho, Hw, Hx. cbn [negb orb].
    rewrite (proj2 (Z.eqb_neq _ _)) by lia. cbn [orb].
    rewrite IH by (assumption || lia). f_equal. lia.
Qed.

Lemma wait_loop_expired (env : list tick) (a : at_freertos) :
  wait_loop AT_BUF_SIZE env a 0 = (true, a, env).
Proof. destruct env; reflexivity. Qed.

Lemma wait_loop_closed (env : list tick) (a : at_freertos) (timeout : Z) :
  open a = false -> wait_loop AT_BUF_SIZE env a timeout = (true, a, env).
Proof.
  intros Ho. destruct env; simpl; rewrite Ho; cbn [negb orb];
    rewrite orb_true_r; reflexivity.
Qed.


(** The dispatcher as [_at_command] has it when it starts to wait. *)
Lemma at_command_unfold (a : at_freertos) (data : list Z) (size : Z)
    (env : list tick) :
  open a = true ->
  _at_command AT_BUF_SIZE a data size env
  = let '(returned, a2, env') :=
      wait_loop AT_BUF_SIZE env (waiting_for a data size) (timeout a) in
    if returned
    then let '(result, a3) := resolve a2 in
         (CmdReturned result, set_command_scanner None a3, env')
    else (CmdBlocked, a2, env').
Proof. intros Ho. unfold _at_command. rewrite Ho. reflexivity. Qed.

(** C6, as amended. [_at_command] returns null at once when the channel
    is not open at entry, and then touches nothing: the command scanner
    stays as it was set. A command that returns on a channel that was open
    at entry has written its bytes once and has cleared the command
    scanner; it returns null when the channel is found closed after the
    wait; it returns null, with the parser reset to IDLE, when [waiting] is
    still set; otherwise it returns the response buffer. When nothing
    arrives for [timeout] ticks the command does return, by the second of
    these ways; when the channel is closed in a tick before that, by the
    first. *)
Theorem command_failure_protocol (a : at_freertos) (data : list Z) (size : Z) :
  (open a = false ->
   forall env, _at_command AT_BUF_SIZE a data size env = (CmdReturned None, a, env))
  /\ (open a = true ->
      forall env r a' env',
        _at_command AT_BUF_SIZE a data size env = (CmdReturned r, a', env') ->
        command_scanner a' = None
        /\ uart_tx a' = uart_tx a ++ [take (Z.to_nat size) data]
        /\ ((open a' = false /\ r = None)
            \/ (open a' = true /\ waiting a' = true /\ r = None
                /\ state (parser a') = STATE_IDLE
                /\ buf_used (parser a') = 0
                /\ per_command_scanner (parser a') = None)
            \/ (open a' = true /\ waiting a' = false /\ r = Some (response a'))))
  /\ (open a = true ->
      forall (k : nat) env',
        timeout a = Z.of_nat k ->
        exists a',
          _at_command AT_BUF_SIZE a data size (replicate k [] ++ env')
          = (CmdReturned None, a', env')
          /\ open a' = true /\ waiting a' = true
          /\ parser a' = at_parser_reset (parser a)
          /\ command_scanner a' = None)
  /\ (open a = true ->
      forall (k : nat) env',
        timeout a < 0 \/ Z.of_nat k < timeout a ->
        exists a',
          _at_command AT_BUF_SIZE a data size (replicate k [] ++ [EnvClose] :: env')
          = (CmdReturned None, a', env')
          /\ open a' = false
          /\ command_scanner a' = None).
Proof.
  split; [|split; [|split]].
  - intros Ho env. unfold _at_command. rewrite Ho. reflexivity.
  - intros Ho env r a' env' H. rewrite at_command_unfold in H by assumption.
    destruct (wait_loop AT_BUF_SIZE env (waiting_for a data size) (timeout a))
      as [[b a2] env2] eqn:E.
    apply wait_loop_same_tx in E. destruct E as [Etx _].
    destruct b; [|discriminate].
    unfold resolve in H.
    destruct (open a2) eqn:Ho2; cbn [negb] in H.
    + destruct (waiting a2) eqn:Hw2; injection H as <- <- <-;
        (split; [reflexivity|]); (split; [exact Etx|]); simpl.
      * right. left. rewrite Ho2, Hw2. repeat split.
      * right. right. rewrite Ho2, Hw2. repeat split.
    + injection H as <- <- <-.
      split; [reflexivity|]. split; [exact Etx|]. left. simpl. now rewrite Ho2.
  - intros Ho k env' Hk. rewrite at_command_unfold by assumption.
    rewrite wait_loop_quiet by (first [exact Ho | reflexivity | lia]).
    replace (timeout a - Z.of_nat k) with 0 by lia.
    rewrite wait_loop_expired. unfold resolve, waiting_for. simpl. rewrite Ho. simpl.
    eexists. repeat split. exact Ho.
  - intros Ho k env' Hk. rewrite at_command_unfold by assumption.
    rewrite wait_loop_quiet by (first [exact Ho | reflexivity | lia]).
    cbn [wait_loop]. unfold waiting_for at 1 2. simpl. rewrite Ho. cbn [negb orb].
    rewrite (proj2 (Z.eqb_neq _ _)) by lia. cbn [orb].
    unfold at_close. change (open (waiting_for a data size)) with (open a).
    rewrite Ho. change (xSem (set_open false (waiting_for a data size))) with false.
    cbv iota.
    rewrite wait_loop_closed by reflexivity.
    unfold resolve. simpl. eexists. repeat split.
Qed.


(** A command on an open channel hands its bytes to the transport once,
    whether or not it comes back from the wait. *)
Lemma at_command_writes_once (a : at_freertos) (data : list Z) (size : Z)
    (env : list tick) :
  open a = true ->
  uart_tx (snd (fst (_at_command AT_BUF_SIZE a data size env)))
  = uart_tx a ++ [take (Z.to_nat size) data].
Proof.
  intros Ho. rewrite at_command_unfold by assumption.
  destruct (wait_loop AT_BUF_SIZE env (waiting_for a data size) (timeout a))
    as [[b a2] env2] eqn:E.
  apply wait_loop_same_tx in E. destruct E as [Etx _].
  destruct b; [|exact Etx].
  unfold resolve. destruct (open a2), (waiting a2); exact Etx.
Qed.

(** C8, as amended. [at_command] formats into a scratch of 80 bytes, of
    which it hands 79 to [vsnprintf]. A text of 79 bytes or more makes it
    return null with nothing written and nothing changed. A text of at most
    78 bytes is sent as [_at_command] sends the text and one CR after it,
    at most 79 bytes: on an open channel exactly that is written, once; on
    a channel that is not open nothing is. *)
Theorem formatted_command_bounds (a : at_freertos) (formatted : list Z)
    (env : list tick) :
  (AT_COMMAND_LENGTH - 1 <= Z.of_nat (length formatted) ->
   at_command AT_BUF_SIZE a formatted env = (CmdReturned None, a, env))
  /\ (Z.of_nat (length formatted) < AT_COMMAND_LENGTH - 1 ->
      at_command AT_BUF_SIZE a formatted env
      = _at_command AT_BUF_SIZE a (formatted ++ [CR])
          (Z.of_nat (length (formatted ++ [CR]))) env
      /\ Z.of_nat (length (formatted ++ [CR])) <= AT_COMMAND_LENGTH - 1
      /\ (open a = true ->
          uart_tx (snd (fst (at_command AT_BUF_SIZE a formatted env)))
          = uart_tx a ++ [formatted ++ [CR]])
      /\ (open a = false ->
          at_command AT_BUF_SIZE a formatted env = (CmdReturned None, a, env))).
Proof.
  unfold AT_COMMAND_LENGTH. split.
  - intros Hlen. unfold at_command, vsnprintf.
    rewrite (proj2 (Z.geb_le _ _)) by (unfold AT_COMMAND_LENGTH; lia).
    reflexivity.
  - intros Hlen.
    assert (Heq : at_command AT_BUF_SIZE a formatted env
                  = _at_command AT_BUF_SIZE a (formatted ++ [CR])
                      (Z.of_nat (length (formatted ++ [CR]))) env).
    { unfold at_command, vsnprintf.
      destruct (Z.geb_spec (Z.of_nat (length formatted)) (AT_COMMAND_LENGTH - 1))
        as [Hge|_]; [unfold AT_COMMAND_LENGTH in Hge; lia|].
      rewrite take_ge by (unfold AT_COMMAND_LENGTH; lia).
      rewrite Nat2Z.id, insert_app_r_alt by lia.
      rewrite Nat.sub_diag, length_app. cbn [length insert list_insert].
      do 2 f_equal. lia. }
    split; [exact Heq|]. split; [rewrite length_app; simpl; lia|]. split.
    + intros Ho. rewrite Heq, at_command_writes_once by assumption.
      rewrite Nat2Z.id, take_ge by lia. reflexivity.
    + intros Ho. rewrite Heq. unfold _at_command. rewrite Ho. reflexivity.
Qed.

End WithBufSize.

(** *** [at_config] *)

Section Config.

Variable St : Type.
Variable command : list Z -> St -> option (option (list Z) * St).
Variable delay : St -> option St.

Lemma fmt_expected_nul_free (opt value : list Z) :
  CString.nul_free (fmt_expected opt value).
Proof.
  unfold fmt_expected.
  repeat apply CStringFacts.bytes_nul_free_app;
    try apply CStringFacts.contents_nul_free;
    repeat constructor; vm_compute; discriminate.
Qed.

(** When the expected string fits, the comparison of the response with it
    tells whether the response starts with it. *)
Lemma expected_matches (opt value response : list Z) :
  Z.of_nat (length (fmt_expected opt value)) < EXPECTED_SIZE ->
  let '(expected, _) := vsnprintf EXPECTED_SIZE (fmt_expected opt value) in
  CString.strncmp response expected (CString.strlen expected) = 0
  <-> fmt_expected opt value `prefix_of` CString.contents response.
Proof.
  intros Hfit. unfold vsnprintf.
  rewrite take_ge by (unfold EXPECTED_SIZE in *; lia).
  pose proof (fmt_expected_nul_free opt value) as Hfree.
  rewrite CStringFacts.strlen_nul_free by assumption.
  rewrite CStringFacts.strncmp_prefix by assumption.
  now apply CStringFacts.prefix_contents.
Qed.

Lemma at_config_loop_step (n : nat) (opt value : list Z) (s : St) :
  at_config_loop St command delay (S n) opt value s
  = match command (fmt_set opt value) s with
    | None => None
    | Some (_, s1) =>
        match command (fmt_query opt) s1 with
        | None => None
        | Some (None, s2) => Some (-2, s2)
        | Some (Some response, s2) =>
            if decide (EXPECTED_SIZE <= Z.of_nat (length (fmt_expected opt value)))
            then Some (-1, s2)
            else if decide (fmt_expected opt value
                              `prefix_of` CString.contents response)
                 then Some (0, s2)
                 else match delay s2 with
                      | None => None
                      | Some s3 => at_config_loop St command delay n opt value s3
                      end
        end
    end.
Proof.
  cbn [at_config_loop].
  destruct (command (fmt_set opt value) s) as [[r0 s1]|]; [|reflexivity].
  destruct (command (fmt_query opt) s1) as [[[response|] s2]|]; try reflexivity.
  case_decide as Hfit.
  - unfold vsnprintf. rewrite (proj2 (Z.geb_le _ _)) by lia. reflexivity.
  - pose proof (expected_matches opt value response ltac:(lia)) as Hm.
    unfold vsnprintf in *.
    destruct (Z.geb_spec (Z.of_nat (length (fmt_expected opt value))) EXPECTED_SIZE);
      [lia|].
    case_decide as Hp.
    + rewrite (proj2 (Z.eqb_eq _ _)) by (now apply Hm). reflexivity.
    + rewrite (proj2 (Z.eqb_neq _ _)) by (now rewrite Hm). reflexivity.
Qed.

(** The texts that [at_config] formats are those of the spec. *)
Lemma at_config_texts (opt value : list Z) :
  fmt_set opt value = set_text (CString.contents opt) (CString.contents value)
  /\ fmt_query opt = query_text (CString.contents opt)
  /\ fmt_expected opt value
     = expected_text (CString.contents opt) (CString.contents value).
Proof.
  unfold fmt_set, fmt_query, fmt_expected, set_text, query_text, expected_text.
  repeat split; cbn; rewrite <- ?app_assoc; reflexivity.
Qed.

(** C7, as amended. For [attempts >= 1], once the two commands of the first
    attempt, "AT+opt=val" and "AT+opt?", have come back: [at_config]
    returns -2 when the query returned null, whether or not the expected
    string fits; -1 when the query returned a response and "+opt: val"
    with its NUL does not fit the 32 bytes of its scratch; 0 when it fits
    and the response starts with it; and otherwise goes on, after the
    delay, as [at_config] with one attempt less. With no attempt left it
    returns 0: so it does, after [attempts] attempts, when every query is
    answered and no answer matches. *)
Theorem at_config_result_codes (opt value : list Z) :
  (forall (attempts : Z) (s s1 s2 : St) (r0 q : option (list Z)),
      1 <= attempts ->
      command (set_text (CString.contents opt) (CString.contents value)) s
      = Some (r0, s1) ->
      command (query_text (CString.contents opt)) s1 = Some (q, s2) ->
      at_config St command delay opt value attempts s
      = match q with
        | None => Some (-2, s2)
        | Some response =>
            if decide (32 <= Z.of_nat (length (expected_text (CString.contents opt)
                                                 (CString.contents value))))
            then Some (-1, s2)
            else if decide (expected_text (CString.contents opt)
                              (CString.contents value)
                              `prefix_of` CString.contents response)
                 then Some (0, s2)
                 else match delay s2 with
                      | None => None
                      | Some s3 =>
                          at_config St command delay opt value (attempts - 1) s3
                      end
        end)
  /\ (forall (attempts : Z) (s : St),
        attempts <= 0 ->
        at_config St command delay opt value attempts s = Some (0, s))
  /\ ((forall t s, exists response s',
          command t s = Some (Some response, s')
          /\ ~ expected_text (CString.contents opt) (CString.contents value)
               `prefix_of` CString.contents response) ->
      (forall s, exists s', delay s = Some s') ->
      Z.of_nat (length (expected_text (CString.contents opt)
                          (CString.contents value))) < 32 ->
      forall (attempts : Z) (s : St),
      exists s', at_config St command delay opt value attempts s = Some (0, s')).
Proof.
  destruct (at_config_texts opt value) as (Eset & Equery & Eexp).
  rewrite <- Eset, <- Equery, <- Eexp. change 32 with EXPECTED_SIZE.
  split; [|split].
  - intros attempts s s1 s2 r0 q Hatt Hset Hquery. unfold at_config.
    replace (Z.to_nat attempts) with (S (Z.to_nat (attempts - 1))) by lia.
    rewrite at_config_loop_step, Hset, Hquery. destruct q; reflexivity.
  - intros attempts s Hatt. unfold at_config.
    replace (Z.to_nat attempts) with O by lia. reflexivity.
  - intros Hcmd Hdelay Hfit attempts s. unfold at_config.
    generalize (Z.to_nat attempts) as n. intros n. revert s.
    induction n as [|n IH]; intros s; [now exists s|].
    rewrite at_config_loop_step.
    destruct (Hcmd (fmt_set opt value) s) as (r0 & s1 & -> & _).
    destruct (Hcmd (fmt_query opt) s1) as (response & s2 & -> & Hno).
    rewrite decide_False by lia. rewrite decide_False by assumption.
    destruct (Hdelay s2) as [s3 ->]. apply IH.
Qed.

End Config.

Lemma command_failure_protocol_witness :
  open idle_channel = true
  /\ _at_command 32 idle_channel (CString.bytes "AT+CSQ" ++ [CR]) 7
       [[]; arrives "+CSQ: 21,0"; arrives "OK"; []]
     = (CmdReturned (Some (response after_csq)), after_csq, [[]])
  /\ command_scanner after_csq = None
  /\ uart_tx after_csq = uart_tx idle_channel ++ [CString.bytes "AT+CSQ" ++ [CR]]
  /\ CString.contents (response after_csq) = CString.bytes "+CSQ: 21,0"
  /\ ((open after_csq = false /\ Some (response after_csq) = None)
      \/ (open after_csq = true /\ waiting after_csq = true
          /\ Some (response after_csq) = None
          /\ state (parser after_csq) = STATE_IDLE
          /\ buf_used (parser after_csq) = 0
          /\ per_command_scanner (parser after_csq) = None)
      \/ (open after_csq = true /\ waiting after_csq = false
          /\ Some (response after_csq) = Some (response after_csq))).
Proof.
  assert (Ho : open idle_channel = true) by reflexivity.
  assert (Hrun : _at_command 32 idle_channel (CString.bytes "AT+CSQ" ++ [CR]) 7
                   [[]; arrives "+CSQ: 21,0"; arrives "OK"; []]
                 = (CmdReturned (Some (response after_csq)), after_csq, [[]]))
    by (vm_compute; reflexivity).
  destruct (proj1 (proj2 (command_failure_protocol 32 idle_channel
                            (CString.bytes "AT+CSQ" ++ [CR]) 7))
              Ho _ _ _ _ Hrun) as (H1 & H2 & H3).
  split; [exact Ho|]. split; [exact Hrun|]. split; [exact H1|].
  split; [exact H2|]. split; [vm_compute; reflexivity | exact H3].
Defined.

(** C6 as stated fails: on a channel that is not open the command returns
    null and the command scanner that was set for it is still set. *)
Lemma command_scanner_survives_closed_channel :
  open closed_channel = false
  /\ command_scanner closed_channel = Some hex_scanner
  /\ forall env,
       let '(st, a', _) :=
         _at_command 32 closed_channel (CString.bytes "AT" ++ [CR]) 3 env in
       st = CmdReturned None /\ command_scanner a' <> None.
Proof.
  split; [reflexivity|]. split; [reflexivity|].
  intros env. cbn. split; [reflexivity | discriminate].
Qed.


Lemma formatted_command_bounds_witness :
  Z.of_nat (length (CString.bytes "AT+CSQ")) < AT_COMMAND_LENGTH - 1
  /\ open idle_channel = true
  /\ at_command 32 idle_channel (CString.bytes "AT+CSQ") [[]; arrives "OK"]
     = _at_command 32 idle_channel (CString.bytes "AT+CSQ" ++ [CR]) 7
         [[]; arrives "OK"]
  /\ uart_tx (snd (fst (at_command 32 idle_channel (CString.bytes "AT+CSQ")
                          [[]; arrives "OK"])))
     = [CString.bytes "AT+CSQ" ++ [CR]].
Proof.
  assert (H1 : Z.of_nat (length (CString.bytes "AT+CSQ")) < AT_COMMAND_LENGTH - 1)
    by (vm_compute; reflexivity).
  assert (H2 : open idle_channel = true) by reflexivity.
  destruct (proj2 (formatted_command_bounds 32 idle_channel
                     (CString.bytes "AT+CSQ") [[]; arrives "OK"]) H1)
    as (Heq & _ & Htx & _).
  split; [exact H1|]. split; [exact H2|]. split; [exact Heq|].
  exact (Htx H2).
Defined.

(** C8 as stated fails. A text of 79 bytes and its CR are 80 bytes and
    fit the scratch, but the command returns null and writes nothing. And a
    text that does fit is not written when the channel is not open. *)
Lemma at_command_rejects_79_bytes :
  Z.of_nat (length (replicate 79 65 ++ [CR])) <= AT_COMMAND_LENGTH
  /\ open idle_channel = true
  /\ (forall env,
        at_command 32 idle_channel (replicate 79 65) env
        = (CmdReturned None, idle_channel, env))
  /\ (forall env,
        at_command 32 closed_channel (CString.bytes "AT") env
        = (CmdReturned None, closed_channel, env)
        /\ uart_tx closed_channel = []).
Proof.
  split; [vm_compute; discriminate|]. split; [reflexivity|].
  split; intros env; [reflexivity|]. split; reflexivity.
Qed.

Lemma at_config_result_codes_witness :
  1 <= 3
  /\ hal_command 32
       (set_text (CString.contents (CString.bytes "CMEE"))
                 (CString.contents (CString.bytes "2")))
       (idle_channel, config_ticks)
     = Some (Some (response (fst after_set)), after_set)
  /\ hal_command 32 (query_text (CString.contents (CString.bytes "CMEE"))) after_set
     = Some (Some (response (fst after_query)), after_query)
  /\ CString.contents (response (fst after_query)) = CString.bytes "+CMEE: 2"
  /\ at_config hal_state (hal_command 32) (hal_delay 32)
       (CString.bytes "CMEE") (CString.bytes "2") 3 (idle_channel, config_ticks)
     = Some (0, after_query).
Proof.
  assert (H1 : 1 <= 3) by lia.
  assert (H2 : hal_command 32
                 (set_text (CString.contents (CString.bytes "CMEE"))
                           (CString.contents (CString.bytes "2")))
                 (idle_channel, config_ticks)
               = Some (Some (response (fst after_set)), after_set))
    by (vm_compute; reflexivity).
  assert (H3 : hal_command 32 (query_text (CString.contents (CString.bytes "CMEE")))
                 after_set
               = Some (Some (response (fst after_query)), after_query))
    by (vm_compute; reflexivity).
  split; [exact H1|]. split; [exact H2|]. split; [exact H3|].
  split; [vm_compute; reflexivity|].
  rewrite (proj1 (at_config_result_codes hal_state (hal_command 32) (hal_delay 32)
                    (CString.bytes "CMEE") (CString.bytes "2"))
             3 _ _ _ _ _ H1 H2 H3).
  vm_compute. reflexivity.
Defined.

(** C7 as stated fails where both happen: the option "AAAAAAAAAAAAAAAAAAAAAAAAAAAAAA"
    makes an expected string of 34 bytes, which does not fit the scratch,
    and on a channel that is not open the query returns null. [at_config]
    tests the response before it formats the expected string: it returns
    -2, not -1. *)
Lemma at_config_null_query_before_overflow :
  32 <= Z.of_nat (length (expected_text (CString.contents long_option)
                            (CString.contents (CString.bytes "1"))))
  /\ hal_command 32
       (query_text (CString.contents long_option)) (closed_channel, [])
     = Some (None, (closed_channel, []))
  /\ at_config hal_state (hal_command 32) (hal_delay 32)
       long_option (CString.bytes "1") 1 (closed_channel, [])
     = Some (-2, (closed_channel, [])).
Proof.
  split; [vm_compute; discriminate|]. split; vm_compute; reflexivity.
Qed.

End HalFacts.

(** ** More properties of the parser *)

Module ParserExtras.
Import CString CStringFacts Parser ParserSpec LineSpec Fixtures LineFixtures ParserFacts.

(** *** What is called, and how often *)

Lemma determine_type_no_response (q : at_parser) :
  responses (snd (determine_type q)) = []
  /\ urcs (snd (determine_type q)) = [].
Proof.
  unfold determine_type, scan_per_command, scan_session.
  destruct (per_command_scanner q), (cbs_scan_line q);
    repeat match goal with |- context [if ?b then _ else _] => destruct b end;
    split; reflexivity.
Qed.

Lemma responses_app (tr1 tr2 : trace) :
  responses (tr1 ++ tr2) = responses tr1 ++ responses tr2.
Proof. unfold responses, calls. now rewrite map_app, List.filter_app. Qed.

Lemma urcs_app (tr1 tr2 : trace) :
  urcs (tr1 ++ tr2) = urcs tr1 ++ urcs tr2.
Proof. unfold urcs, calls. now rewrite map_app, List.filter_app. Qed.

(** A line makes at most one call of [handle_response], and after one the
    parser is idle; in IDLE it makes none and the parser stays idle. *)
Lemma parser_handle_line_responses (p : at_parser) :
  (responses (snd (parser_handle_line p)) = []
   /\ (state p = STATE_IDLE -> state (fst (parser_handle_line p)) = STATE_IDLE))
  \/ (length (responses (snd (parser_handle_line p))) = 1%nat
      /\ state p <> STATE_IDLE
      /\ state (fst (parser_handle_line p)) = STATE_IDLE).
Proof.
  unfold parser_handle_line.
  destruct (buf_used p =? buf_current p); [left; split; auto|].
  set (q := store (buf_used p) 0 p).
  destruct (determine_type_no_response q) as [Hr _].
  destruct (determine_type q) as [type tr]. cbn [snd] in Hr.
  change (state q) with (state p).
  destruct (decide (state p = STATE_IDLE)) as [Hidle|Hidle].
  - rewrite bool_decide_eq_true_2, orb_true_r by assumption.
    left. cbn [fst snd]. rewrite responses_app, Hr. split; [reflexivity|].
    intros _. now destruct (discard_line_fields q) as (-> & _).
  - rewrite bool_decide_eq_false_2, orb_false_r by assumption.
    destruct (type =? AT_RESPONSE_URC).
    { left. cbn [fst snd]. rewrite responses_app, Hr. split; [reflexivity|].
      intros H. contradiction. }
    set (q' := if negb (type =? AT_RESPONSE_FINAL_OK) then _ else _).
    destruct ((Z.land type _AT_RESPONSE_TYPE_MASK =? AT_RESPONSE_FINAL_OK)
              || (Z.land type _AT_RESPONSE_TYPE_MASK =? AT_RESPONSE_FINAL)).
    { right. cbn [fst snd]. rewrite responses_app, Hr. repeat split. assumption. }
    left. repeat match goal with |- context [if ?b then _ else _] => destruct b end;
      cbn [fst snd]; (split; [exact Hr | intros H; contradiction]).
Qed.

Lemma feed_line_byte_responses (p : at_parser) (ch : Z) :
  (responses (snd (feed_line_byte p ch)) = []
   /\ (state p = STATE_IDLE -> state (fst (feed_line_byte p ch)) = STATE_IDLE))
  \/ (length (responses (snd (feed_line_byte p ch))) = 1%nat
      /\ state p <> STATE_IDLE
      /\ state (fst (feed_line_byte p ch)) = STATE_IDLE).
Proof.
  unfold feed_line_byte.
  set (p1 := if negb (ch =? CR) && negb (ch =? LF) then _ else p).
  assert (H1 : state p1 = state p).
  { subst p1. destruct (negb (ch =? CR) && negb (ch =? LF)); [|reflexivity].
    apply feed_line_append_fields. }
  clearbody p1. rewrite <- H1.
  destruct ((ch =? LF) || _); [apply parser_handle_line_responses|].
  left. split; [reflexivity | auto].
Qed.

Lemma feed_idle_stays_idle (fuel : nat) :
  forall (p : at_parser) (data : list Z) (len : Z),
    state p = STATE_IDLE ->
    state (snd (fst (at_parser_feed fuel p data len))) = STATE_IDLE
    /\ responses (snd (at_parser_feed fuel p data len)) = [].
Proof.
  unfold at_parser_feed.
  induction fuel as [|fuel IH]; intros p data len Hidle;
    cbn [at_parser_feed_loop]; (destruct (len >? 0); [|now split]);
    [now split|].
  rewrite Hidle. destruct data as [|ch data']; [now split|].
  destruct (feed_line_byte_responses p ch) as [[Hr Hs]|[_ [Hne _]]];
    [|contradiction].
  destruct (feed_line_byte p ch) as [p' tr]. cbn [fst snd] in *.
  specialize (IH p' data' (size_t_wrap (len - 1)) (Hs Hidle)).
  destruct (at_parser_feed_loop fuel p' data' (size_t_wrap (len - 1)))
    as [[st p''] tr']. cbn [fst snd] in *.
  split; [apply IH|]. rewrite responses_app, Hr. apply IH.
Qed.

(** X1. In IDLE the parser is not waiting for a response, and a feed keeps
    it so: whatever bytes are fed and whatever the scanners answer, the
    parser is still in IDLE afterwards and [handle_response] has not been
    called. *)
Theorem idle_feed_never_responds (p : at_parser) (fuel : nat)
    (data : list Z) (len : Z) :
  state p = STATE_IDLE ->
  state (snd (fst (at_parser_feed fuel p data len))) = STATE_IDLE
  /\ responses (snd (at_parser_feed fuel p data len)) = [].
Proof. intros Hidle. now apply feed_idle_stays_idle. Qed.

Lemma idle_feed_never_responds_witness :
  state fresh = STATE_IDLE
  /\ state (snd (fst (at_parser_feed 9 fresh (CString.bytes "OK" ++ [CR; LF]) 4)))
     = STATE_IDLE
  /\ responses (snd (at_parser_feed 9 fresh (CString.bytes "OK" ++ [CR; LF]) 4))
     = [].
Proof.
  assert (H : state fresh = STATE_IDLE) by reflexivity.
  split; [exact H|].
  exact (idle_feed_never_responds fresh 9 (CString.bytes "OK" ++ [CR; LF]) 4 H).
Defined.

(** X2. One feed calls [handle_response] at most once, from whatever
    state and with whatever scanners; and when it has called it, the parser
    is in IDLE at the end of the feed. *)
Theorem feed_responds_at_most_once (fuel : nat) :
  forall (p : at_parser) (data : list Z) (len : Z),
    (length (responses (snd (at_parser_feed fuel p data len))) <= 1)%nat
    /\ (responses (snd (at_parser_feed fuel p data len)) <> [] ->
        state (snd (fst (at_parser_feed fuel p data len))) = STATE_IDLE).
Proof.
  induction fuel as [|fuel IH]; intros p data len; unfold at_parser_feed in *;
    cbn [at_parser_feed_loop]; (destruct (len >? 0); [|split; [simpl; lia | now intros H]]);
    [split; [simpl; lia | now intros H]|].
  destruct (state p) eqn:Hst.
  1-3: destruct data as [|ch data']; [split; [simpl; lia | now intros H]|];
    pose proof (feed_line_byte_responses p ch) as Hb;
    pose proof (feed_idle_stays_idle fuel (fst (feed_line_byte p ch)) data'
                  (size_t_wrap (len - 1))) as Hidle;
    specialize (IH (fst (feed_line_byte p ch)) data' (size_t_wrap (len - 1)));
    unfold at_parser_feed in Hidle;
    destruct (feed_line_byte p ch) as [p' tr]; cbn [fst snd] in *;
    destruct (at_parser_feed_loop fuel p' data' (size_t_wrap (len - 1)))
      as [[st p''] tr']; cbn [fst snd] in *;
    rewrite responses_app, length_app;
    (destruct Hb as [[Hr _]|[Hone [_ Hs]]];
     [rewrite Hr; cbn [length app]; exact IH
     |destruct (Hidle Hs) as [Hs' Hr']; rewrite Hr', Hone;
      split; [simpl; lia | intros _; exact Hs']]).
  - destruct data as [|ch data']; [split; [simpl; lia | now intros H]|].
    apply IH.
  - apply IH.
Qed.


Lemma feed_responds_at_most_once_witness :
  responses (snd (at_parser_feed 9 armed (CString.bytes "OK" ++ [CR; LF]) 4)) <> []
  /\ state (snd (fst (at_parser_feed 9 armed (CString.bytes "OK" ++ [CR; LF]) 4)))
     = STATE_IDLE.
Proof.
  assert (H : responses (snd (at_parser_feed 9 armed (CString.bytes "OK" ++ [CR; LF]) 4))
              <> []) by (vm_compute; discriminate).
  split; [exact H|].
  exact (proj2 (feed_responds_at_most_once 9 armed
                  (CString.bytes "OK" ++ [CR; LF]) 4) H).
Defined.

(** *** Blank bytes *)

Lemma feed_line_byte_blank (p : at_parser) (ch : Z) :
  buf_used p = buf_current p -> blank ch -> feed_line_byte p ch = (p, []).
Proof.
  intros Hempty Hch. unfold feed_line_byte.
  assert (Hnn : negb (ch =? CR) && negb (ch =? LF) = false).
  { destruct Hch as [-> | ->]; reflexivity. }
  rewrite Hnn. destruct ((ch =? LF) || _); [|reflexivity].
  unfold parser_handle_line. now rewrite (proj2 (Z.eqb_eq _ _)).
Qed.

(** X3. The parser emits no empty line: while no line is under
    construction, in a line state, any run of CRs and LFs is read to its
    end, makes no call and leaves the parser as it is. *)
Theorem blank_bytes_are_skipped (data : list Z) :
  forall (p : at_parser) (fuel : nat) (rest : list Z),
    line_state (state p) = true ->
    buf_used p = buf_current p ->
    Forall blank data ->
    (length data <= fuel)%nat ->
    Z.of_nat (length data) < SIZE_MOD ->
    at_parser_feed fuel p (data ++ rest) (Z.of_nat (length data))
    = (FeedReturned, p, []).
Proof.
  induction data as [|ch data IH]; intros p fuel rest Hst Hempty Hblank Hfuel Hlen.
  - apply feed_loop_done.
  - destruct fuel as [|fuel]; [simpl in Hfuel; lia|].
    inversion Hblank as [|? ? Hch Hrest]; subst.
    cbn [length app] in *.
    rewrite feed_loop_line_step by (assumption || lia).
    rewrite feed_line_byte_blank by assumption.
    rewrite size_t_wrap_small by lia.
    replace (Z.of_nat (S (length data)) - 1) with (Z.of_nat (length data)) by lia.
    rewrite IH by (assumption || lia). reflexivity.
Qed.

Lemma blank_bytes_are_skipped_witness :
  line_state (state armed) = true
  /\ buf_used armed = buf_current armed
  /\ Forall blank [CR; LF; LF; CR; LF]
  /\ at_parser_feed 5 armed ([CR; LF; LF; CR; LF] ++ []) 5
     = (FeedReturned, armed, []).
Proof.
  assert (H1 : line_state (state armed) = true) by reflexivity.
  assert (H2 : buf_used armed = buf_current armed) by reflexivity.
  assert (H3 : Forall blank [CR; LF; LF; CR; LF]).
  { repeat constructor; first [now left | now right]. }
  split; [exact H1|]. split; [exact H2|]. split; [exact H3|].
  apply (blank_bytes_are_skipped [CR; LF; LF; CR; LF] armed 5 [] H1 H2 H3).
  - simpl. lia.
  - rewrite SIZE_MOD_value. simpl. lia.
Defined.

(** *** What the callbacks are handed *)

Lemma feed_trace_forall (P : callback * at_parser -> Prop) :
  (forall p, parser_wf p -> Forall P (snd (parser_handle_line p))) ->
  forall (fuel : nat) (p : at_parser) (data : list Z) (len : Z),
    parser_wf p -> Forall P (snd (at_parser_feed fuel p data len)).
Proof.
  intros Hline. unfold at_parser_feed.
  induction fuel as [|fuel IH]; intros p data len Hwf;
    cbn [at_parser_feed_loop]; (destruct (len >? 0); [|constructor]);
    [constructor|].
  destruct (state p).
  1-3: destruct data as [|ch data']; [constructor|];
    pose proof (feed_line_byte_wf p ch Hwf) as [Hwf' _];
    assert (Htr : Forall P (snd (feed_line_byte p ch)))
      by (unfold feed_line_byte;
          destruct ((ch =? LF) || _);
          [apply Hline; destruct (negb (ch =? CR) && negb (ch =? LF));
             [now apply feed_line_append_wf | assumption]
          | constructor]);
    destruct (feed_line_byte p ch) as [p' tr]; cbn [fst snd] in *;
    specialize (IH p' data' (size_t_wrap (len - 1)) Hwf');
    destruct (at_parser_feed_loop fuel p' data' (size_t_wrap (len - 1)))
      as [[st p''] tr']; cbn [snd] in *;
    apply Forall_app; now split.
  - destruct data as [|ch data']; [constructor|].
    apply IH. now apply feed_rawdata_byte_wf.
  - now apply IH.
Qed.

Lemma line_bytes_drop (p : at_parser) :
  parser_wf p ->
  line_bytes p = drop (Z.to_nat (buf_current p)) (used_bytes p)
  /\ line_len p = buf_used p - buf_current p
  /\ Z.of_nat (length (line_bytes p)) = buf_used p - buf_current p.
Proof.
  intros [[Hc Hu] [Hs Hl]].
  assert (Hlen : line_len p = buf_used p - buf_current p).
  { unfold line_len. apply size_t_wrap_small. lia. }
  assert (Hdrop : line_bytes p = drop (Z.to_nat (buf_current p)) (used_bytes p)).
  { unfold line_bytes, line_mem, used_bytes. rewrite Hlen, take_drop_commute.
    do 2 f_equal. lia. }
  split; [exact Hdrop|]. split; [exact Hlen|].
  rewrite Hdrop. unfold used_bytes. rewrite length_drop, length_take. lia.
Qed.

Lemma parser_handle_line_calls_in_buffer (p : at_parser) :
  parser_wf p -> Forall call_in_buffer (snd (parser_handle_line p)).
Proof.
  intros Hwf. unfold parser_handle_line.
  destruct (buf_used p =? buf_current p) eqn:E; [constructor|].
  apply Z.eqb_neq in E.
  pose proof (store_wf p (buf_used p) 0 Hwf) as Hwfq.
  pose proof Hwf as [[Hc Hu] [Hs Hl]].
  assert (Hnul : buf (store (buf_used p) 0 p) !! Z.to_nat (buf_used p) = Some 0).
  { simpl. apply list_lookup_insert_eq. lia. }
  set (q := store (buf_used p) 0 p) in *.
  destruct (line_bytes_drop q Hwfq) as (Hdrop & Hlen & Hlength).
  change (buf_used q) with (buf_used p) in *.
  change (buf_current q) with (buf_current p) in *.
  assert (Hscan : forall c : callback,
             c = HandleUrc (line_bytes q) (line_len q)
             \/ c = ScanLine (line_bytes q) (line_len q)
             \/ c = CommandScan (line_bytes q) (line_len q) ->
             call_in_buffer (c, q)).
  { intros c [-> | [-> | ->]]; unfold call_in_buffer; cbn [fst snd];
      change (buf_used q) with (buf_used p);
      change (buf_current q) with (buf_current p);
      rewrite Hlen, Hlength, <- Hdrop; repeat split; (assumption || lia). }
  assert (Htr : Forall call_in_buffer (snd (determine_type q))).
  { unfold determine_type, scan_per_command, scan_session.
    destruct (per_command_scanner q), (cbs_scan_line q);
      repeat match goal with |- context [if ?b then _ else _] => destruct b end;
      cbn [snd app]; repeat (constructor; [apply Hscan; tauto|]); constructor. }
  destruct (determine_type q) as [type tr]. cbn [snd] in Htr.
  destruct ((type =? AT_RESPONSE_URC) || bool_decide (state q = STATE_IDLE)).
  { cbn [snd]. apply Forall_app. split; [assumption|].
    constructor; [apply Hscan; tauto | constructor]. }
  set (q' := if negb (type =? AT_RESPONSE_FINAL_OK) then _ else _).
  assert (Hq' : parser_wf q' /\ buf q' !! Z.to_nat (buf_used q') = Some 0).
  { subst q'. destruct (negb (type =? AT_RESPONSE_FINAL_OK)).
    - split; [exact (set_buf_current_used_wf q Hwfq) | exact Hnul].
    - pose proof (discard_line_wf q Hwfq) as Hwfd.
      split; [exact (store_wf (discard_line q) _ 0 Hwfd)|].
      simpl. apply list_lookup_insert_eq.
      destruct Hwfd as [[? ?] [? ?]]. simpl in *. lia. }
  clearbody q'. destruct Hq' as [Hwf' Hnul'].
  assert (Hresp : call_in_buffer
                    (HandleResponse (take (Z.to_nat (buf_used q')) (buf q'))
                                    (buf_used q'), q')).
  { unfold call_in_buffer. cbn [fst snd].
    pose proof (used_bytes_length q' Hwf') as Hlen'.
    destruct Hwf' as [[? ?] [? ?]]. repeat split; assumption. }
  repeat match goal with |- context [if ?b then _ else _] => destruct b end;
    cbn [snd]; try assumption.
  apply Forall_app. split; [assumption|].
  constructor; [exact Hresp | constructor].
Qed.

(** X4. Whatever is fed to a well-formed parser, every callback is handed
    a string that lies in the buffer and is NUL-terminated there:
    [handle_response] gets the [buf_used] bytes in use, fewer than
    [buf_size], and the scanners and [handle_urc] get the non-empty line
    from [buf_current] to [buf_used]; the byte behind is a NUL. *)
Theorem callbacks_get_terminated_strings (fuel : nat) (p : at_parser)
    (data : list Z) (len : Z) :
  parser_wf p ->
  Forall call_in_buffer (snd (at_parser_feed fuel p data len)).
Proof.
  apply feed_trace_forall. exact parser_handle_line_calls_in_buffer.
Qed.

Lemma callbacks_get_terminated_strings_witness :
  parser_wf armed
  /\ Forall call_in_buffer
            (snd (at_parser_feed 40 armed
                    (CString.bytes "+CSQ: 21,0" ++ [CR; LF]
                       ++ CString.bytes "OK" ++ [CR; LF]) 16)).
Proof.
  assert (Hwf : parser_wf armed).
  { apply (at_parser_alloc_wf None 64 0 (replicate 64 0) 0);
      [rewrite SIZE_MOD_value; lia | reflexivity]. }
  split; [exact Hwf|].
  exact (callbacks_get_terminated_strings 40 armed _ 16 Hwf).
Defined.

(** *** What becomes of a line *)

(** The three ways out of [parser_handle_line] for a line that is not
    empty and announces no data. *)
Lemma parser_handle_line_cases (p : at_parser) :
  buf_used p <> buf_current p ->
  let q := store (buf_used p) 0 p in
  let t := fst (determine_type q) in
  let tr := snd (determine_type q) in
  (t = AT_RESPONSE_URC \/ state p = STATE_IDLE ->
   parser_handle_line p
   = (discard_line q, tr ++ [(HandleUrc (line_bytes q) (line_len q), q)]))
  /\ (t <> AT_RESPONSE_URC -> state p <> STATE_IDLE -> t <> AT_RESPONSE_FINAL_OK ->
      Z.land t _AT_RESPONSE_TYPE_MASK = AT_RESPONSE_FINAL_OK
      \/ Z.land t _AT_RESPONSE_TYPE_MASK = AT_RESPONSE_FINAL ->
      parser_handle_line p
      = (at_parser_reset (set_buf_current (buf_used p) q),
         tr ++ [(HandleResponse (used_bytes q) (buf_used p),
                 set_buf_current (buf_used p) q)]))
  /\ (t <> AT_RESPONSE_URC -> state p <> STATE_IDLE ->
      Z.land t _AT_RESPONSE_TYPE_MASK <> AT_RESPONSE_FINAL_OK ->
      Z.land t _AT_RESPONSE_TYPE_MASK <> AT_RESPONSE_FINAL ->
      Z.land t _AT_RESPONSE_TYPE_MASK <> _AT_RESPONSE_RAWDATA_FOLLOWS ->
      Z.land t _AT_RESPONSE_TYPE_MASK <> _AT_RESPONSE_HEXDATA_FOLLOWS ->
      parser_handle_line p = (set_buf_current (buf_used p) q, tr)).
Proof.
  intros Hne q t tr. subst t tr. unfold parser_handle_line.
  rewrite (proj2 (Z.eqb_neq _ _) Hne). fold q.
  destruct (determine_type q) as [t tr]. cbn [fst snd].
  change (state q) with (state p). change (buf_used q) with (buf_used p).
  split; [|split].
  - intros [-> | Hidle].
    + reflexivity.
    + now rewrite (bool_decide_eq_true_2 _ Hidle), orb_true_r.
  - intros Hu Hidle Hok Hcat.
    rewrite (proj2 (Z.eqb_neq _ _) Hu), (bool_decide_eq_false_2 _ Hidle).
    rewrite (proj2 (Z.eqb_neq _ _) Hok). cbn [orb negb].
    destruct Hcat as [-> | ->]; reflexivity.
  - intros Hu Hidle H2 H3 H5 H6.
    rewrite (proj2 (Z.eqb_neq _ _) Hu), (bool_decide_eq_false_2 _ Hidle).
    assert (Hok : t <> AT_RESPONSE_FINAL_OK) by (intros ->; now apply H2).
    rewrite (proj2 (Z.eqb_neq _ _) Hok). cbn [orb negb].
    now rewrite (proj2 (Z.eqb_neq _ _) H2), (proj2 (Z.eqb_neq _ _) H3),
      (proj2 (Z.eqb_neq _ _) H5), (proj2 (Z.eqb_neq _ _) H6).
Qed.

Lemma holds_before_lf (line : list Z) :
  let p := before_lf line in
  used_bytes p = lead [CString.bytes "+CSQ: 21,0"] ++ line ->
  buf_current p = Z.of_nat (length (lead [CString.bytes "+CSQ: 21,0"])) ->
  text_line line ->
  holds_lines p [CString.bytes "+CSQ: 21,0"].
Proof.
  intros p Hused Hcur [Hne Hline]. split.
  - constructor; [|constructor]. split; [discriminate|].
    repeat constructor; discriminate.
  - rewrite Hused, Hcur. now apply shape_in_line.
Qed.

Lemma fixture_wf (line : list Z) : parser_wf (before_lf line).
Proof.
  apply at_parser_feed_wf.
  apply (at_parser_alloc_wf None 64 0 (replicate 64 0) 0);
    [rewrite SIZE_MOD_value; lia | reflexivity].
Qed.

Lemma parser_handle_line_urc (p : at_parser) (ls : list (list Z)) :
  parser_wf p -> holds_lines p ls ->
  buf_used p <> buf_current p ->
  fst (determine_type (store (buf_used p) 0 p)) = AT_RESPONSE_URC
  \/ state p = STATE_IDLE ->
  committed (fst (parser_handle_line p)) ls
  /\ same_setup p (fst (parser_handle_line p))
  /\ urcs (snd (parser_handle_line p))
     = [HandleUrc (line_bytes p) (Z.of_nat (length (line_bytes p)))]
  /\ responses (snd (parser_handle_line p)) = [].
Proof.
  intros Hwf Hholds Hne Hurc.
  destruct (parser_handle_line_cases p Hne) as (Hcase & _ & _).
  rewrite (Hcase Hurc). cbn [fst snd]. clear Hcase.
  set (q := store (buf_used p) 0 p).
  pose proof (store_wf p (buf_used p) 0 Hwf) as Hwfq. fold q in Hwfq.
  destruct (holds_in_line p ls Hwf Hholds Hne) as (_ & Hused & Hcur).
  destruct (line_bytes_store p 0 Hwf) as [Hlb Hll]. fold q in Hlb, Hll.
  destruct (line_bytes_drop p Hwf) as (_ & Hlen & Hlength).
  assert (Huq : used_bytes q = lead ls ++ line_bytes p).
  { subst q. rewrite used_bytes_store by lia. exact Hused. }
  destruct (discard_line_in_line q ls (line_bytes p) Hwfq Huq Hcur)
    as (Hd1 & Hd2 & Hd3).
  destruct (discard_line_fields q) as (Hf1 & Hf2 & Hf3 & Hf4 & _).
  destruct (determine_type_no_response q) as [Hr Hu].
  split; [split; [exact Hd1 | congruence]|].
  split; [repeat split; assumption|].
  rewrite urcs_app, responses_app, Hr, Hu, Hlb, Hll, Hlen, Hlength.
  split; reflexivity.
Qed.

(** X5. A line classified as a URC, or any line read while the parser is
    idle, is handed to [handle_urc] and to no response handler, and it is
    taken out of the buffer together with the LF that separated it from
    the lines before: those stay committed as they were, and state,
    scanners and buffer size are unchanged. *)
Theorem urc_line_leaves_response (p : at_parser) (ls : list (list Z)) :
  parser_wf p -> holds_lines p ls ->
  buf_used p <> buf_current p ->
  fst (determine_type (store (buf_used p) 0 p)) = AT_RESPONSE_URC
  \/ state p = STATE_IDLE ->
  committed (fst (parser_handle_line p)) ls
  /\ same_setup p (fst (parser_handle_line p))
  /\ urcs (snd (parser_handle_line p))
     = [HandleUrc (line_bytes p) (Z.of_nat (length (line_bytes p)))]
  /\ responses (snd (parser_handle_line p)) = [].
Proof. apply parser_handle_line_urc. Qed.

Lemma urc_line_leaves_response_witness :
  parser_wf before_ring_lf
  /\ holds_lines before_ring_lf [CString.bytes "+CSQ: 21,0"]
  /\ committed (fst (parser_handle_line before_ring_lf)) [CString.bytes "+CSQ: 21,0"]
  /\ urcs (snd (parser_handle_line before_ring_lf))
     = [HandleUrc (line_bytes before_ring_lf)
                  (Z.of_nat (length (line_bytes before_ring_lf)))].
Proof.
  pose proof (fixture_wf (CString.bytes "RING")) as Hwf.
  assert (Hholds : holds_lines before_ring_lf [CString.bytes "+CSQ: 21,0"]).
  { apply holds_before_lf; [vm_compute; reflexivity | vm_compute; reflexivity|].
    split; [discriminate | repeat constructor; discriminate]. }
  assert (Hne : buf_used before_ring_lf <> buf_current before_ring_lf)
    by (vm_compute; discriminate).
  assert (Hurc : fst (determine_type (store (buf_used before_ring_lf) 0 before_ring_lf))
                 = AT_RESPONSE_URC \/ state before_ring_lf = STATE_IDLE)
    by (left; vm_compute; reflexivity).
  split; [exact Hwf|]. split; [exact Hholds|].
  destruct (urc_line_leaves_response before_ring_lf _ Hwf Hholds Hne Hurc)
    as (H1 & _ & H3 & _).
  split; [exact H1 | exact H3].
Defined.

(** X6. A final line that is not a plain FINAL_OK (an error line, for
    one) ends the response with the line in it: [handle_response] is
    called once, with the committed lines and this line joined by single
    LFs and with their length; no URC is reported; the parser is back in
    IDLE with an empty buffer and without the per-command scanner. *)
Theorem final_line_ends_response (p : at_parser) (ls : list (list Z)) :
  parser_wf p -> holds_lines p ls ->
  state p <> STATE_IDLE ->
  buf_used p <> buf_current p ->
  fst (determine_type (store (buf_used p) 0 p)) <> AT_RESPONSE_URC ->
  fst (determine_type (store (buf_used p) 0 p)) <> AT_RESPONSE_FINAL_OK ->
  Z.land (fst (determine_type (store (buf_used p) 0 p))) _AT_RESPONSE_TYPE_MASK
  = AT_RESPONSE_FINAL_OK
  \/ Z.land (fst (determine_type (store (buf_used p) 0 p))) _AT_RESPONSE_TYPE_MASK
     = AT_RESPONSE_FINAL ->
  responses (snd (parser_handle_line p))
  = [HandleResponse (join (ls ++ [line_bytes p]))
                    (Z.of_nat (length (join (ls ++ [line_bytes p]))))]
  /\ urcs (snd (parser_handle_line p)) = []
  /\ committed (fst (parser_handle_line p)) []
  /\ state (fst (parser_handle_line p)) = STATE_IDLE
  /\ per_command_scanner (fst (parser_handle_line p)) = None.
Proof.
  intros Hwf Hholds Hidle Hne Hu Hok Hcat.
  destruct (parser_handle_line_cases p Hne) as (_ & Hcase & _).
  rewrite (Hcase Hu Hidle Hok Hcat). cbn [fst snd]. clear Hcase.
  set (q := store (buf_used p) 0 p).
  destruct (holds_in_line p ls Hwf Hholds Hne) as (_ & Hused & _).
  assert (Huq : used_bytes q = join (ls ++ [line_bytes p])).
  { subst q. rewrite used_bytes_store by lia. now rewrite join_snoc. }
  destruct (determine_type_no_response q) as [Hr Hurc].
  rewrite urcs_app, responses_app, Hr, Hurc, <- Huq.
  replace (Z.of_nat (length (used_bytes q))) with (buf_used p).
  2:{ subst q. rewrite used_bytes_store by lia. symmetry.
      now apply used_bytes_length. }
  repeat split.
Qed.

Lemma final_line_ends_response_witness :
  parser_wf before_error_lf
  /\ holds_lines before_error_lf [CString.bytes "+CSQ: 21,0"]
  /\ responses (snd (parser_handle_line before_error_lf))
     = [HandleResponse
          (join ([CString.bytes "+CSQ: 21,0"] ++ [line_bytes before_error_lf]))
          (Z.of_nat (length (join ([CString.bytes "+CSQ: 21,0"]
                                     ++ [line_bytes before_error_lf]))))].
Proof.
  pose proof (fixture_wf (CString.bytes "ERROR")) as Hwf.
  assert (Hholds : holds_lines before_error_lf [CString.bytes "+CSQ: 21,0"]).
  { apply holds_before_lf; [vm_compute; reflexivity | vm_compute; reflexivity|].
    split; [discriminate | repeat constructor; discriminate]. }
  assert (Hidle : state before_error_lf <> STATE_IDLE) by (vm_compute; discriminate).
  assert (Hne : buf_used before_error_lf <> buf_current before_error_lf)
    by (vm_compute; discriminate).
  assert (Hu : fst (determine_type (store (buf_used before_error_lf) 0 before_error_lf))
               <> AT_RESPONSE_URC) by (vm_compute; discriminate).
  assert (Hok : fst (determine_type (store (buf_used before_error_lf) 0 before_error_lf))
                <> AT_RESPONSE_FINAL_OK) by (vm_compute; discriminate).
  assert (Hcat : Z.land (fst (determine_type
                                (store (buf_used before_error_lf) 0 before_error_lf)))
                        _AT_RESPONSE_TYPE_MASK = AT_RESPONSE_FINAL_OK
                 \/ Z.land (fst (determine_type
                                   (store (buf_used before_error_lf) 0 before_error_lf)))
                           _AT_RESPONSE_TYPE_MASK = AT_RESPONSE_FINAL)
    by (right; vm_compute; reflexivity).
  split; [exact Hwf|]. split; [exact Hholds|].
  exact (proj1 (final_line_ends_response before_error_lf _
                  Hwf Hholds Hidle Hne Hu Hok Hcat)).
Defined.

(** X7. An intermediate line of a response is committed: no response
    handler and no URC handler is called, the line joins the committed
    lines behind a single LF, and state, scanners and buffer size are
    unchanged. *)
Theorem intermediate_line_is_committed (p : at_parser) (ls : list (list Z)) :
  parser_wf p -> holds_lines p ls ->
  state p <> STATE_IDLE ->
  buf_used p <> buf_current p ->
  fst (determine_type (store (buf_used p) 0 p)) = AT_RESPONSE_INTERMEDIATE ->
  committed (fst (parser_handle_line p)) (ls ++ [line_bytes p])
  /\ same_setup p (fst (parser_handle_line p))
  /\ responses (snd (parser_handle_line p)) = []
  /\ urcs (snd (parser_handle_line p)) = [].
Proof.
  intros Hwf Hholds Hidle Hne Ht.
  destruct (parser_handle_line_cases p Hne) as (_ & _ & Hcase).
  rewrite Hcase by (assumption || (rewrite Ht; discriminate)).
  cbn [fst snd]. clear Hcase.
  set (q := store (buf_used p) 0 p).
  destruct (holds_in_line p ls Hwf Hholds Hne) as (_ & Hused & _).
  destruct (determine_type_no_response q) as [Hr Hurc].
  split; [split; [|reflexivity]|].
  { change (used_bytes (set_buf_current (buf_used p) q)) with (used_bytes q).
    subst q. rewrite used_bytes_store by lia. now rewrite join_snoc. }
  split; [repeat split|]. split; assumption.
Qed.

Lemma intermediate_line_is_committed_witness :
  parser_wf before_creg_lf
  /\ holds_lines before_creg_lf [CString.bytes "+CSQ: 21,0"]
  /\ committed (fst (parser_handle_line before_creg_lf))
               ([CString.bytes "+CSQ: 21,0"] ++ [line_bytes before_creg_lf]).
Proof.
  pose proof (fixture_wf (CString.bytes "+CREG: 1")) as Hwf.
  assert (Hholds : holds_lines before_creg_lf [CString.bytes "+CSQ: 21,0"]).
  { apply holds_before_lf; [vm_compute; reflexivity | vm_compute; reflexivity|].
    split; [discriminate | repeat constructor; discriminate]. }
  assert (Hidle : state before_creg_lf <> STATE_IDLE) by (vm_compute; discriminate).
  assert (Hne : buf_used before_creg_lf <> buf_current before_creg_lf)
    by (vm_compute; discriminate).
  assert (Ht : fst (determine_type (store (buf_used before_creg_lf) 0 before_creg_lf))
               = AT_RESPONSE_INTERMEDIATE) by (vm_compute; reflexivity).
  split; [exact Hwf|]. split; [exact Hholds|].
  exact (proj1 (intermediate_line_is_committed before_creg_lf _
                  Hwf Hholds Hidle Hne Ht)).
Defined.

(** *** A whole response, byte by byte *)

Lemma feed_line_append_setup (p : at_parser) (ch : Z) :
  same_setup p (feed_line_append p ch).
Proof.
  destruct (feed_line_append_fields p ch) as (H1 & H2 & H3).
  repeat split; try assumption.
  unfold feed_line_append.
  destruct ((buf_used p >? 0) && (buf_current p =? buf_used p)).
  - rewrite (proj1 (parser_append_fields _ ch)). cbn.
    apply (parser_append_fields p LF).
  - apply (parser_append_fields p ch).
Qed.

Lemma same_setup_trans (p1 p2 p3 : at_parser) :
  same_setup p1 p2 -> same_setup p2 p3 -> same_setup p1 p3.
Proof.
  intros (A1 & A2 & A3 & A4) (B1 & B2 & B3 & B4). repeat split; congruence.
Qed.

Lemma feed_line_byte_char (p : at_parser) (ch : Z) :
  not_newline ch -> state p <> STATE_DATAPROMPT ->
  feed_line_byte p ch = (feed_line_append p ch, []).
Proof.
  intros [Hcr Hlf] Hst. unfold feed_line_byte.
  rewrite (proj2 (Z.eqb_neq _ _) Hcr), (proj2 (Z.eqb_neq _ _) Hlf). cbn [negb andb orb].
  rewrite bool_decide_eq_false_2; [reflexivity|].
  now rewrite (proj1 (feed_line_append_fields p ch)).
Qed.

Lemma feed_line_byte_CR (p : at_parser) :
  state p <> STATE_DATAPROMPT -> feed_line_byte p CR = (p, []).
Proof.
  intros Hst. unfold feed_line_byte. cbn [negb andb orb Z.eqb CR LF Pos.eqb].
  now rewrite bool_decide_eq_false_2.
Qed.

Lemma feed_line_byte_LF (p : at_parser) :
  feed_line_byte p LF = parser_handle_line p.
Proof. reflexivity. Qed.

Lemma join_length_lead (ls : list (list Z)) :
  (length (join ls) <= length (lead ls))%nat.
Proof. destruct ls; [reflexivity|]. cbn [lead]. rewrite length_app. lia. Qed.

Lemma join_app_length (ls ls' : list (list Z)) :
  (length (join ls) <= length (join (ls ++ ls')))%nat.
Proof.
  induction ls' as [|l ls' IH] using rev_ind.
  - now rewrite app_nil_r.
  - rewrite app_assoc, join_snoc, length_app.
    pose proof (join_length_lead (ls ++ ls')). lia.
Qed.

(** The first byte of a line. *)
Lemma feed_line_append_start (p : at_parser) (ls : list (list Z)) (ch : Z) :
  parser_wf p -> committed p ls -> Forall text_line ls ->
  Z.of_nat (length (lead ls)) + 1 <= buf_size p - 1 ->
  used_bytes (feed_line_append p ch) = lead ls ++ [ch]
  /\ buf_current (feed_line_append p ch) = Z.of_nat (length (lead ls))
  /\ parser_wf (feed_line_append p ch).
Proof.
  intros Hwf [Hused Hcur] Hls Hroom.
  pose proof (used_bytes_length p Hwf) as Hlen. rewrite Hused in Hlen.
  split; [|split]; [| |now apply feed_line_append_wf].
  - unfold feed_line_append. destruct ls as [|l ls'].
    + cbn [join length lead] in *.
      replace (buf_used p) with 0 by lia. change (0 >? 0) with false.
      cbn [andb].
      destruct (parser_append_room_view p ch Hwf) as (-> & _); [lia|].
      now rewrite Hused.
    + assert (Hpos : 0 < buf_used p).
      { destruct (join (l :: ls')) eqn:E; [|simpl in Hlen; lia].
        now apply join_nil_inv in E. }
      rewrite (proj2 (Z.gtb_gt _ _)), (proj2 (Z.eqb_eq _ _)) by lia.
      cbn [andb]. cbn [lead] in *. rewrite length_app in Hroom. cbn [length] in Hroom.
      destruct (parser_append_room_view p LF Hwf) as (Ha & Hb & Hc); [lia|].
      pose proof (parser_append_wf p LF Hwf) as Hwfa.
      pose proof (set_buf_current_used_wf _ Hwfa) as Hwf1.
      destruct (parser_append_room_view _ ch Hwf1) as (-> & _);
        [cbn; rewrite Hb, (proj1 (parser_append_fields p LF)); lia|].
      change (used_bytes (set_buf_current _ ?x)) with (used_bytes x).
      now rewrite Ha, Hused.
  - unfold feed_line_append. destruct ls as [|l ls'].
    + cbn [join length lead] in *.
      replace (buf_used p) with 0 by lia. change (0 >? 0) with false.
      cbn [andb].
      rewrite (proj1 (proj2 (parser_append_fields p ch))). lia.
    + assert (Hpos : 0 < buf_used p).
      { destruct (join (l :: ls')) eqn:E; [|simpl in Hlen; lia].
        now apply join_nil_inv in E. }
      rewrite (proj2 (Z.gtb_gt _ _)), (proj2 (Z.eqb_eq _ _)) by lia.
      cbn [andb]. cbn [lead] in *. rewrite length_app in *. cbn [length] in *.
      destruct (parser_append_room_view p LF Hwf) as (Ha & Hb & Hc); [lia|].
      rewrite (proj1 (proj2 (parser_append_fields _ ch))).
      unfold set_buf_current. cbn [buf_current].
      rewrite Hb. lia.
Qed.

(** A further byte of a line. *)
Lemma feed_line_append_more (p : at_parser) (pre cur : list Z) (ch : Z) :
  parser_wf p -> used_bytes p = pre ++ cur -> cur <> [] ->
  buf_current p = Z.of_nat (length pre) ->
  buf_used p < buf_size p - 1 ->
  used_bytes (feed_line_append p ch) = pre ++ (cur ++ [ch])
  /\ buf_current (feed_line_append p ch) = Z.of_nat (length pre)
  /\ parser_wf (feed_line_append p ch).
Proof.
  intros Hwf Hused Hcur Hc Hroom.
  pose proof (used_bytes_length p Hwf) as Hlen.
  rewrite Hused, length_app in Hlen.
  assert (0 < length cur)%nat by (destruct cur; [congruence | simpl; lia]).
  split; [|split]; [| |now apply feed_line_append_wf];
    unfold feed_line_append;
    rewrite (proj2 (Z.eqb_neq (buf_current p) (buf_used p))), andb_false_r by lia;
    destruct (parser_append_room_view p ch Hwf Hroom) as (Ha & _ & Hb).
  - now rewrite Ha, Hused, <- app_assoc.
  - congruence.
Qed.

Lemma feed_lines_chars (l : list Z) :
  forall (p : at_parser) (pre cur : list Z),
    parser_wf p -> state p <> STATE_DATAPROMPT ->
    used_bytes p = pre ++ cur -> cur <> [] ->
    buf_current p = Z.of_nat (length pre) ->
    Forall not_newline l ->
    buf_used p + Z.of_nat (length l) <= buf_size p - 1 ->
    snd (feed_lines p l) = []
    /\ used_bytes (fst (feed_lines p l)) = pre ++ cur ++ l
    /\ buf_current (fst (feed_lines p l)) = Z.of_nat (length pre)
    /\ parser_wf (fst (feed_lines p l))
    /\ same_setup p (fst (feed_lines p l)).
Proof.
  induction l as [|ch l IH]; intros p pre cur Hwf Hst Hused Hcur Hc Hl Hroom.
  - cbn [feed_lines fst snd]. rewrite app_nil_r.
    split; [reflexivity|]. do 3 (split; [assumption|]). repeat split.
  - inversion Hl as [|? ? Hch Hl']; subst. cbn [length] in Hroom.
    cbn [feed_lines]. rewrite feed_line_byte_char by assumption.
    destruct (feed_line_append_more p pre cur ch Hwf Hused Hcur Hc) as (Hu' & Hc' & Hwf');
      [lia|].
    pose proof (feed_line_append_setup p ch) as Hsame.
    assert (Hused' : buf_used (feed_line_append p ch) = buf_used p + 1).
    { pose proof (used_bytes_length _ Hwf') as H1.
      pose proof (used_bytes_length _ Hwf) as H2.
      rewrite Hu' in H1. rewrite Hused in H2.
      rewrite !length_app in H1. rewrite length_app in H2. simpl in H1. lia. }
    destruct (IH (feed_line_append p ch) pre (cur ++ [ch])) as (I1 & I2 & I3 & I4 & I5);
      try assumption.
    { destruct Hsame as (-> & _). exact Hst. }
    { destruct cur; discriminate. }
    { destruct Hsame as (_ & _ & _ & ->). lia. }
    destruct (feed_lines (feed_line_append p ch) l) as [p'' tr'].
    cbn [fst snd] in *. subst tr'.
    split; [reflexivity|]. split; [now rewrite I2, <- app_assoc|].
    split; [assumption|]. split; [assumption|].
    now apply (same_setup_trans _ _ _ Hsame).
Qed.

(** The bytes of one line, from between two lines. *)
Lemma feed_lines_text_line (p : at_parser) (ls : list (list Z)) (l : list Z) :
  parser_wf p -> state p <> STATE_DATAPROMPT ->
  committed p ls -> Forall text_line ls -> text_line l ->
  Z.of_nat (length (lead ls)) + Z.of_nat (length l) <= buf_size p - 1 ->
  snd (feed_lines p l) = []
  /\ used_bytes (fst (feed_lines p l)) = lead ls ++ l
  /\ buf_current (fst (feed_lines p l)) = Z.of_nat (length (lead ls))
  /\ parser_wf (fst (feed_lines p l))
  /\ same_setup p (fst (feed_lines p l)).
Proof.
  intros Hwf Hst Hcom Hls [Hne Hl] Hroom.
  destruct l as [|ch l]; [congruence|].
  inversion Hl as [|? ? Hch Hl']; subst. cbn [length] in Hroom.
  cbn [feed_lines]. rewrite feed_line_byte_char by assumption.
  destruct (feed_line_append_start p ls ch Hwf Hcom Hls) as (Hu' & Hc' & Hwf'); [lia|].
  pose proof (feed_line_append_setup p ch) as Hsame.
  assert (Hused' : buf_used (feed_line_append p ch) = Z.of_nat (length (lead ls)) + 1).
  { pose proof (used_bytes_length _ Hwf') as H1.
    rewrite Hu', length_app in H1. simpl in H1. lia. }
  destruct (feed_lines_chars l (feed_line_append p ch) (lead ls) [ch])
    as (I1 & I2 & I3 & I4 & I5); try assumption.
  { destruct Hsame as (-> & _). exact Hst. }
  { discriminate. }
  { destruct Hsame as (_ & _ & _ & ->). lia. }
  destruct (feed_lines (feed_line_append p ch) l) as [p'' tr'].
  cbn [fst snd] in *. subst tr'.
  split; [reflexivity|]. split; [exact I2|].
  split; [assumption|]. split; [assumption|].
  now apply (same_setup_trans _ _ _ Hsame).
Qed.

Lemma determine_type_defer (p : at_parser) :
  parser_wf p -> scanners_defer p ->
  fst (determine_type (store (buf_used p) 0 p)) = builtin_scanner (line_bytes p).
Proof.
  intros Hwf [Hpc Hss].
  unfold determine_type, scan_per_command, scan_session, scan_generic.
  change (per_command_scanner (store (buf_used p) 0 p)) with (per_command_scanner p).
  change (cbs_scan_line (store (buf_used p) 0 p)) with (cbs_scan_line p).
  pose proof (line_mem_terminated p Hwf) as Hmem.
  destruct (per_command_scanner p) as [f|];
    [rewrite (Hpc f eq_refl)|];
    (destruct (cbs_scan_line p) as [g|];
     [change (AT_RESPONSE_UNKNOWN =? 0) with true; cbv iota;
      rewrite (Hss g eq_refl)|]);
    change (AT_RESPONSE_UNKNOWN =? 0) with true; cbv iota; cbn [fst];
    rewrite Hmem; apply generic_line_scanner_builtin.
Qed.

Lemma scanners_defer_text (p : at_parser) : scanners_defer p -> text_only p.
Proof.
  intros [Hpc Hss]. split.
  - intros f Hf l n. rewrite (Hpc f Hf). split; discriminate.
  - intros g Hg l n. rewrite (Hss g Hg). split; discriminate.
Qed.

Lemma scanners_defer_same (p p' : at_parser) :
  same_setup p p' -> scanners_defer p -> scanners_defer p'.
Proof.
  intros (_ & S2 & S3 & _) [Hpc Hss]. split.
  - intros f Hf. apply Hpc. congruence.
  - intros g Hg. apply Hss. congruence.
Qed.

(** The line in the buffer after the bytes of [l], seen as a line under
    construction behind the committed [ls]. *)
Lemma line_in_buffer (p : at_parser) (ls : list (list Z)) (l : list Z) :
  parser_wf p -> Forall text_line ls -> text_line l ->
  used_bytes p = lead ls ++ l ->
  buf_current p = Z.of_nat (length (lead ls)) ->
  holds_lines p ls /\ buf_used p <> buf_current p /\ line_bytes p = l.
Proof.
  intros Hwf Hls [Hne Hl] Hused Hcur.
  assert (Hh : holds_lines p ls).
  { split; [assumption|]. rewrite Hused, Hcur. now apply shape_in_line. }
  assert (Hneq : buf_used p <> buf_current p).
  { pose proof (used_bytes_length p Hwf) as H. rewrite Hused, length_app in H.
    destruct l; [congruence | simpl in H; lia]. }
  split; [assumption|]. split; [assumption|].
  destruct (holds_in_line p ls Hwf Hh Hneq) as (_ & Hu & _).
  rewrite Hused in Hu. now apply app_inv_head in Hu.
Qed.

(** One intermediate line with its CR LF. *)
Lemma feed_intermediate_line (p : at_parser) (ls : list (list Z)) (l : list Z) :
  parser_wf p -> state p = STATE_READLINE -> scanners_defer p ->
  committed p ls -> Forall text_line ls -> text_line l ->
  builtin_scanner l = AT_RESPONSE_INTERMEDIATE ->
  Z.of_nat (length (lead ls)) + Z.of_nat (length l) <= buf_size p - 1 ->
  (responses (snd (feed_lines p (l ++ [CR; LF]))) = []
   /\ urcs (snd (feed_lines p (l ++ [CR; LF]))) = [])
  /\ committed (fst (feed_lines p (l ++ [CR; LF]))) (ls ++ [l])
  /\ parser_wf (fst (feed_lines p (l ++ [CR; LF])))
  /\ same_setup p (fst (feed_lines p (l ++ [CR; LF]))).
Proof.
  intros Hwf Hst Hdef Hcom Hls Hl Hty Hroom.
  assert (Hnd : state p <> STATE_DATAPROMPT) by (rewrite Hst; discriminate).
  destruct (feed_lines_text_line p ls l Hwf Hnd Hcom Hls Hl Hroom)
    as (T & Hu & Hc & Hwf' & Hsame).
  rewrite feed_lines_app, T. set (p' := fst (feed_lines p l)) in *.
  pose proof (scanners_defer_same p p' Hsame Hdef) as Hdef'.
  destruct Hsame as (S1 & S2 & S3 & S4).
  assert (Hst' : state p' = STATE_READLINE) by congruence.
  cbn [feed_lines].
  rewrite feed_line_byte_CR, feed_line_byte_LF by (rewrite Hst'; discriminate).
  destruct (line_in_buffer p' ls l Hwf' Hls Hl Hu Hc) as (Hh & Hne & Hlb).
  assert (Ht : fst (determine_type (store (buf_used p') 0 p')) = AT_RESPONSE_INTERMEDIATE).
  { rewrite determine_type_defer by assumption. congruence. }
  destruct (determine_type_no_response (store (buf_used p') 0 p')) as [Hr Hurc].
  destruct (parser_handle_line_cases p' Hne) as (_ & _ & Hcase).
  rewrite Hcase;
    [| rewrite Ht; discriminate | rewrite Hst'; discriminate
     | rewrite Ht; discriminate | rewrite Ht; discriminate
     | rewrite Ht; discriminate | rewrite Ht; discriminate].
  cbn [fst snd app]. rewrite app_nil_r.
  split; [split; assumption|]. split; [split; [|reflexivity]|].
  { change (used_bytes (set_buf_current ?n ?x)) with (used_bytes x).
    rewrite used_bytes_store by lia. now rewrite join_snoc. }
  split.
  { apply set_buf_current_used_wf with (p := store (buf_used p') 0 p').
    now apply store_wf. }
  repeat split; assumption.
Qed.

Lemma feed_intermediate_lines (ls : list (list Z)) :
  forall (p : at_parser) (ls0 : list (list Z)),
    parser_wf p -> state p = STATE_READLINE -> scanners_defer p ->
    committed p ls0 -> Forall text_line ls0 -> Forall text_line ls ->
    Forall (fun l => builtin_scanner l = AT_RESPONSE_INTERMEDIATE) ls ->
    Z.of_nat (length (join (ls0 ++ ls))) <= buf_size p - 1 ->
    (responses (snd (feed_lines p (crlf_lines ls))) = []
     /\ urcs (snd (feed_lines p (crlf_lines ls))) = [])
    /\ committed (fst (feed_lines p (crlf_lines ls))) (ls0 ++ ls)
    /\ parser_wf (fst (feed_lines p (crlf_lines ls)))
    /\ same_setup p (fst (feed_lines p (crlf_lines ls))).
Proof.
  induction ls as [|l ls IH]; intros p ls0 Hwf Hst Hdef Hcom Hls0 Hls Hty Hroom.
  - cbn [crlf_lines map concat feed_lines fst snd]. rewrite app_nil_r.
    split; [split; reflexivity|]. do 2 (split; [assumption|]). repeat split.
  - inversion Hls as [|? ? Hl Hls']; inversion Hty as [|? ? Htl Hty']; subst.
    assert (Hfit : Z.of_nat (length (lead ls0)) + Z.of_nat (length l)
                   <= buf_size p - 1).
    { pose proof (join_app_length (ls0 ++ [l]) ls) as H.
      rewrite <- app_assoc in H. cbn [app] in H.
      rewrite join_snoc, length_app in H. lia. }
    destruct (feed_intermediate_line p ls0 l Hwf Hst Hdef Hcom Hls0 Hl Htl Hfit)
      as ([T1 T2] & Hcom' & Hwf' & Hsame).
    unfold crlf_lines. cbn [map concat]. fold (crlf_lines ls).
    rewrite feed_lines_app. set (p' := fst (feed_lines p (l ++ [CR; LF]))) in *.
    pose proof (scanners_defer_same p p' Hsame Hdef) as Hdef'.
    pose proof Hsame as (S1 & S2 & S3 & S4).
    destruct (IH p' (ls0 ++ [l])) as ([I1 I1'] & I2 & I3 & I4); try assumption.
    { congruence. }
    { apply Forall_app. split; [assumption | now constructor]. }
    { rewrite <- app_assoc. cbn [app]. rewrite S4. exact Hroom. }
    cbn [fst snd]. rewrite <- app_assoc in I2. cbn [app] in I2.
    rewrite responses_app, urcs_app, T1, T2, I1, I1'.
    split; [split; reflexivity|]. split; [exact I2|]. split; [exact I3|].
    now apply (same_setup_trans _ _ _ Hsame).
Qed.

(** The bytes of a whole response, one after the other. *)
Lemma feed_lines_response (p : at_parser) (ls : list (list Z)) (final : list Z) :
  parser_wf p -> state p = STATE_READLINE -> scanners_defer p ->
  buf_used p = 0 -> buf_current p = 0 ->
  Forall text_line ls ->
  Forall (fun l => builtin_scanner l = AT_RESPONSE_INTERMEDIATE) ls ->
  text_line final -> builtin_scanner final = AT_RESPONSE_FINAL_OK ->
  Z.of_nat (length (lead ls)) + Z.of_nat (length final) <= buf_size p - 1 ->
  text_inv p
  /\ exists q : at_parser,
       used_bytes q = join ls
       /\ fst (feed_lines p (crlf_lines ls ++ final ++ [CR; LF])) = at_parser_reset q
       /\ responses (snd (feed_lines p (crlf_lines ls ++ final ++ [CR; LF])))
          = [HandleResponse (join ls) (Z.of_nat (length (join ls)))]
       /\ urcs (snd (feed_lines p (crlf_lines ls ++ final ++ [CR; LF]))) = [].
Proof.
  intros Hwf Hst Hdef Hu0 Hc0 Hls Hty Hfin Htf Hroom.
  assert (Hcom : committed p []).
  { split; [|congruence]. unfold used_bytes. now rewrite Hu0. }
  split.
  { split; [assumption|]. split.
    - exists []. split; [constructor|].
      destruct Hcom as [-> _]. rewrite Hc0. apply (shape_between (buf_size p) []).
    - split; [now rewrite Hst | now apply scanners_defer_text]. }
  destruct (feed_intermediate_lines ls p [] Hwf Hst Hdef Hcom)
    as ([T T'] & Hcom' & Hwf' & Hsame);
    try assumption; [constructor | |].
  { cbn [app]. pose proof (join_length_lead ls). lia. }
  cbn [app] in Hcom'.
  rewrite feed_lines_app. set (p' := fst (feed_lines p (crlf_lines ls))) in *.
  pose proof (scanners_defer_same p p' Hsame Hdef) as Hdef'.
  pose proof Hsame as (S1 & S2 & S3 & S4).
  assert (Hst' : state p' = STATE_READLINE) by congruence.
  assert (Hnd' : state p' <> STATE_DATAPROMPT) by (rewrite Hst'; discriminate).
  destruct (feed_lines_text_line p' ls final Hwf' Hnd' Hcom' Hls Hfin)
    as (T2 & Hu2 & Hc2 & Hwf2 & Hsame2); [rewrite S4; exact Hroom|].
  rewrite feed_lines_app, T2. set (p2 := fst (feed_lines p' final)) in *.
  pose proof (scanners_defer_same p' p2 Hsame2 Hdef') as Hdef2.
  destruct Hsame2 as (R1 & R2 & R3 & R4).
  assert (Hst2 : state p2 = STATE_READLINE) by congruence.
  cbn [feed_lines].
  rewrite feed_line_byte_CR, feed_line_byte_LF by (rewrite Hst2; discriminate).
  destruct (line_in_buffer p2 ls final Hwf2 Hls Hfin Hu2 Hc2) as (Hh & Hne & Hlb).
  pose proof (determine_type_defer p2 Hwf2 Hdef2) as Hdt.
  destruct (determine_type_no_response (store (buf_used p2) 0 p2)) as [Hr Hurc].
  destruct (parser_handle_line_final_ok p2 ls Hwf2 Hh) as (_ & q & Hq & Heq).
  { rewrite Hst2. discriminate. }
  { assumption. }
  { rewrite Hdt. congruence. }
  exists q. split; [exact Hq|].
  rewrite Heq. cbn [fst snd app]. rewrite app_nil_r.
  rewrite !responses_app, !urcs_app, T, T', Hr, Hurc.
  repeat split.
Qed.

(** The bytes of a line that arrives while the parser is idle. *)
Lemma feed_lines_idle_line (p : at_parser) (l : list Z) :
  parser_wf p -> state p = STATE_IDLE ->
  buf_used p = 0 -> buf_current p = 0 ->
  text_line l -> Z.of_nat (length l) <= buf_size p - 1 ->
  urcs (snd (feed_lines p (l ++ [CR; LF]))) = [HandleUrc l (Z.of_nat (length l))]
  /\ responses (snd (feed_lines p (l ++ [CR; LF]))) = []
  /\ committed (fst (feed_lines p (l ++ [CR; LF]))) []
  /\ same_setup p (fst (feed_lines p (l ++ [CR; LF])))
  /\ parser_wf (fst (feed_lines p (l ++ [CR; LF]))).
Proof.
  intros Hwf Hst Hu0 Hc0 Hl Hroom.
  assert (Hcom : committed p []).
  { split; [|congruence]. unfold used_bytes. now rewrite Hu0. }
  assert (Hnd : state p <> STATE_DATAPROMPT) by (rewrite Hst; discriminate).
  destruct (feed_lines_text_line p [] l Hwf Hnd Hcom) as (T & Hu & Hc & Hwf' & Hsame);
    [constructor | assumption | exact Hroom |].
  rewrite feed_lines_app, T. set (p' := fst (feed_lines p l)) in *.
  pose proof Hsame as (S1 & S2 & S3 & S4).
  assert (Hst' : state p' = STATE_IDLE) by congruence.
  cbn [feed_lines].
  rewrite feed_line_byte_CR, feed_line_byte_LF by (rewrite Hst'; discriminate).
  destruct (line_in_buffer p' [] l Hwf' (List.Forall_nil _) Hl Hu Hc) as (Hh & Hne & Hlb).
  destruct (parser_handle_line_urc p' [] Hwf' Hh Hne (or_intror Hst'))
    as (C & Hs & Hur & Hre).
  destruct (parser_handle_line_wf p' Hwf') as [Hwf2 _].
  destruct (parser_handle_line p') as [p2 tr2].
  cbn [fst snd app] in *. rewrite app_nil_r, Hur, Hre, Hlb.
  split; [reflexivity|]. split; [reflexivity|]. split; [exact C|].
  split; [now apply (same_setup_trans _ _ _ Hsame) | exact Hwf2].
Qed.

(** X8. A whole response, from the first byte to the call. The parser
    awaits a response with an empty buffer, and the scanners that are
    installed, if any, defer to the built-in one; the modem sends lines
    that the built-in scanner takes for intermediate ones, each ended by
    CR LF, then a line it takes for FINAL_OK, and all of it fits the
    buffer. Then one feed of these bytes returns having read them all and
    has made exactly one call of [handle_response]: with the intermediate
    lines joined by single LFs, without the final line, and with their
    length. No URC is reported, and the parser is left reset. *)
Theorem response_is_lines_joined (p : at_parser) (ls : list (list Z))
    (final : list Z) (fuel : nat) (rest : list Z) :
  parser_wf p -> state p = STATE_READLINE -> scanners_defer p ->
  buf_used p = 0 -> buf_current p = 0 ->
  Forall text_line ls ->
  Forall (fun l => builtin_scanner l = AT_RESPONSE_INTERMEDIATE) ls ->
  text_line final -> builtin_scanner final = AT_RESPONSE_FINAL_OK ->
  Z.of_nat (length (lead ls)) + Z.of_nat (length final) <= buf_size p - 1 ->
  (length (crlf_lines ls ++ final ++ [CR; LF]) <= fuel)%nat ->
  Z.of_nat (length (crlf_lines ls ++ final ++ [CR; LF])) < SIZE_MOD ->
  exists (q : at_parser) (tr : trace),
    at_parser_feed fuel p ((crlf_lines ls ++ final ++ [CR; LF]) ++ rest)
      (Z.of_nat (length (crlf_lines ls ++ final ++ [CR; LF])))
    = (FeedReturned, at_parser_reset q, tr)
    /\ used_bytes q = join ls
    /\ responses tr = [HandleResponse (join ls) (Z.of_nat (length (join ls)))]
    /\ urcs tr = [].
Proof.
  intros Hwf Hst Hdef Hu0 Hc0 Hls Hty Hfin Htf Hroom Hfuel Hlen.
  destruct (feed_lines_response p ls final) as (Hinv & q & Hq & Hp & Hr & Hu);
    try assumption.
  rewrite feed_text_returns by assumption.
  exists q, (snd (feed_lines p (crlf_lines ls ++ final ++ [CR; LF]))).
  rewrite <- Hp. repeat split; assumption.
Qed.

Lemma response_is_lines_joined_witness :
  exists (q : at_parser) (tr : trace),
    at_parser_feed 40 armed
      ((crlf_lines [CString.bytes "+CSQ: 21,0"; CString.bytes "+CREG: 1"]
          ++ CString.bytes "OK" ++ [CR; LF]) ++ [])
      (Z.of_nat (length (crlf_lines [CString.bytes "+CSQ: 21,0";
                                     CString.bytes "+CREG: 1"]
                           ++ CString.bytes "OK" ++ [CR; LF])))
    = (FeedReturned, at_parser_reset q, tr)
    /\ used_bytes q = join [CString.bytes "+CSQ: 21,0"; CString.bytes "+CREG: 1"]
    /\ responses tr
       = [HandleResponse
            (join [CString.bytes "+CSQ: 21,0"; CString.bytes "+CREG: 1"])
            (Z.of_nat (length (join [CString.bytes "+CSQ: 21,0";
                                     CString.bytes "+CREG: 1"])))]
    /\ urcs tr = [].
Proof.
  apply (response_is_lines_joined armed
           [CString.bytes "+CSQ: 21,0"; CString.bytes "+CREG: 1"]
           (CString.bytes "OK") 40 []).
  - apply (at_parser_alloc_wf None 64 0 (replicate 64 0) 0);
      [rewrite SIZE_MOD_value; lia | reflexivity].
  - reflexivity.
  - split; intros f Hf; discriminate.
  - reflexivity.
  - reflexivity.
  - repeat constructor; first [discriminate | split; discriminate].
  - repeat constructor.
  - split; [discriminate | repeat constructor; discriminate].
  - reflexivity.
  - vm_compute. discriminate.
  - vm_compute. lia.
  - rewrite SIZE_MOD_value. vm_compute. reflexivity.
Defined.

(** *** Feeds in the line states *)

Lemma armed_text_inv : text_inv armed.
Proof.
  apply at_parser_await_response_text; [|discriminate].
  apply at_parser_alloc_text;
    [rewrite SIZE_MOD_value; lia | reflexivity | discriminate].
Qed.

(** X9. While no scanner announces raw or hex data, a feed of [len] bytes
    returns, given fuel for [len] rounds, and it has read the [len] bytes
    and no more: what lies behind them in memory and how much fuel is
    left over make no difference to the parser it leaves or to the calls
    it makes. *)
Theorem text_feed_reads_exactly_len (p : at_parser) (data : list Z)
    (fuel : nat) (rest rest' : list Z) :
  text_inv p ->
  (length data <= fuel)%nat ->
  Z.of_nat (length data) < SIZE_MOD ->
  fst (fst (at_parser_feed fuel p (data ++ rest) (Z.of_nat (length data))))
  = FeedReturned
  /\ at_parser_feed fuel p (data ++ rest) (Z.of_nat (length data))
     = at_parser_feed (length data) p (data ++ rest') (Z.of_nat (length data)).
Proof.
  intros Hinv Hfuel Hlen.
  rewrite !feed_text_returns by (assumption || lia). split; reflexivity.
Qed.

Lemma text_feed_reads_exactly_len_witness :
  text_inv armed
  /\ fst (fst (at_parser_feed 9 armed (CString.bytes "OK" ++ [CR; LF] ++ [65; 84]) 4))
     = FeedReturned
  /\ at_parser_feed 9 armed (CString.bytes "OK" ++ [CR; LF] ++ [65; 84]) 4
     = at_parser_feed 4 armed (CString.bytes "OK" ++ [CR; LF] ++ []) 4.
Proof.
  split; [exact armed_text_inv|].
  apply (text_feed_reads_exactly_len armed (CString.bytes "OK" ++ [CR; LF])
           9 [65; 84] [] armed_text_inv).
  - simpl. lia.
  - rewrite SIZE_MOD_value. simpl. lia.
Defined.

(** X10. While no scanner announces raw or hex data, the chunking of the
    stream does not matter: feeding a stream whole and feeding it as two
    chunks, one call after the other, return the same status, leave the
    same parser and make the same calls in the same order. *)
Theorem text_feed_chunks_agree (p : at_parser) (data1 data2 : list Z) :
  text_inv p ->
  Z.of_nat (length (data1 ++ data2)) < SIZE_MOD ->
  feed_bytes p (data1 ++ data2)
  = feed_then (2 * length (data1 ++ data2) + 1) p
      data1 (Z.of_nat (length data1)) data2 (Z.of_nat (length data2)).
Proof. intros Hinv Hlen. now apply feed_split_text. Qed.

Lemma text_feed_chunks_agree_witness :
  text_inv armed
  /\ feed_bytes armed (CString.bytes "+CSQ: 2" ++ CString.bytes "1,0" ++ [CR; LF])
     = feed_then (2 * length (CString.bytes "+CSQ: 2" ++ CString.bytes "1,0" ++ [CR; LF]) + 1)
         armed
         (CString.bytes "+CSQ: 2") (Z.of_nat (length (CString.bytes "+CSQ: 2")))
         (CString.bytes "1,0" ++ [CR; LF])
         (Z.of_nat (length (CString.bytes "1,0" ++ [CR; LF]))).
Proof.
  split; [exact armed_text_inv|].
  apply (text_feed_chunks_agree armed (CString.bytes "+CSQ: 2")
           (CString.bytes "1,0" ++ [CR; LF]) armed_text_inv).
  rewrite SIZE_MOD_value. simpl. lia.
Defined.

Lemma feed_line_byte_full (p : at_parser) (ch : Z) :
  parser_wf p -> state p <> STATE_DATAPROMPT ->
  buf_size p - 1 <= buf_used p -> buf_current p < buf_used p ->
  not_newline ch ->
  feed_line_byte p ch = (p, []).
Proof.
  intros Hwf Hst Hfull Hin [Hcr Hlf]. unfold feed_line_byte.
  rewrite (proj2 (Z.eqb_neq _ _) Hcr), (proj2 (Z.eqb_neq _ _) Hlf).
  cbn [negb andb orb].
  assert (Happ : feed_line_append p ch = p).
  { unfold feed_line_append.
    rewrite (proj2 (Z.eqb_neq (buf_current p) (buf_used p))), andb_false_r by lia.
    now apply parser_append_full. }
  rewrite Happ, bool_decide_eq_false_2 by assumption. reflexivity.
Qed.

(** X11. A line that outgrows the buffer is cut, not wrapped: once
    [buf_used] has reached [buf_size - 1] within a line, the further bytes
    of the line are read and dropped; they change nothing in the parser
    and cause no call. *)
Theorem overlong_line_is_cut (data : list Z) :
  forall (p : at_parser) (fuel : nat) (rest : list Z),
    parser_wf p ->
    state p = STATE_IDLE \/ state p = STATE_READLINE ->
    buf_size p - 1 <= buf_used p -> buf_current p < buf_used p ->
    Forall not_newline data ->
    (length data <= fuel)%nat ->
    Z.of_nat (length data) < SIZE_MOD ->
    at_parser_feed fuel p (data ++ rest) (Z.of_nat (length data))
    = (FeedReturned, p, []).
Proof.
  induction data as [|ch data IH];
    intros p fuel rest Hwf Hst Hfull Hin Hdata Hfuel Hlen.
  - apply feed_loop_done.
  - destruct fuel as [|fuel]; [simpl in Hfuel; lia|].
    inversion Hdata as [|? ? Hch Hrest]; subst.
    cbn [length app] in *.
    assert (Hls : line_state (state p) = true)
      by (destruct Hst as [H | H]; rewrite H; reflexivity).
    assert (Hnd : state p <> STATE_DATAPROMPT)
      by (destruct Hst as [H | H]; rewrite H; discriminate).
    rewrite feed_loop_line_step by (assumption || lia).
    rewrite feed_line_byte_full by assumption.
    rewrite size_t_wrap_small by lia.
    replace (Z.of_nat (S (length data)) - 1) with (Z.of_nat (length data)) by lia.
    rewrite IH by (assumption || lia). reflexivity.
Qed.

Lemma overlong_line_is_cut_witness :
  parser_wf full_line
  /\ buf_size full_line - 1 <= buf_used full_line
  /\ buf_current full_line < buf_used full_line
  /\ at_parser_feed 8 full_line (CString.bytes "=1,2,3,4" ++ [CR]) 8
     = (FeedReturned, full_line, []).
Proof.
  assert (Hwf : parser_wf full_line).
  { apply at_parser_feed_wf.
    apply (at_parser_alloc_wf None 8 0 (replicate 8 0) 0);
      [rewrite SIZE_MOD_value; lia | reflexivity]. }
  assert (Hfull : buf_size full_line - 1 <= buf_used full_line)
    by (vm_compute; discriminate).
  assert (Hin : buf_current full_line < buf_used full_line)
    by (vm_compute; reflexivity).
  split; [exact Hwf|]. split; [exact Hfull|]. split; [exact Hin|].
  apply (overlong_line_is_cut (CString.bytes "=1,2,3,4") full_line 8 [CR] Hwf).
  - right. vm_compute. reflexivity.
  - exact Hfull.
  - exact Hin.
  - repeat constructor; discriminate.
  - simpl. lia.
  - rewrite SIZE_MOD_value. simpl. lia.
Defined.

(** *** Raw data *)

Lemma feed_rawdata_byte_more (p : at_parser) (ch : Z) :
  parser_wf p -> 1 < data_left p < SIZE_MOD ->
  buf_used p < buf_size p - 1 ->
  let p' := feed_rawdata_byte p ch in
  used_bytes p' = used_bytes p ++ [ch]
  /\ buf_used p' = buf_used p + 1
  /\ data_left p' = data_left p - 1
  /\ state p' = state p /\ buf_size p' = buf_size p
  /\ parser_wf p'.
Proof.
  intros Hwf Hleft Hroom p'.
  pose proof (feed_rawdata_byte_wf p ch Hwf) as Hwf'. fold p' in Hwf'.
  subst p'. unfold feed_rawdata_byte in *.
  rewrite (proj2 (Z.gtb_gt _ _)) in * by lia.
  destruct (parser_append_room_view p ch Hwf Hroom) as (Hu & Hb & Hc).
  destruct (parser_append_fields p ch) as (Hsz & _ & Hst & Hdl & _).
  cbn [data_left set_data_left] in *. rewrite Hdl in *.
  rewrite size_t_wrap_small in * by lia.
  rewrite (proj2 (Z.eqb_neq _ _)) in * by lia.
  split; [exact Hu|]. split; [exact Hb|]. split; [reflexivity|].
  split; [exact Hst|]. split; [exact Hsz | exact Hwf'].
Qed.

Lemma feed_rawdata_byte_last (p : at_parser) (ch : Z) :
  parser_wf p -> data_left p = 1 ->
  buf_used p + 1 < buf_size p - 1 ->
  let p' := feed_rawdata_byte p ch in
  used_bytes p' = used_bytes p ++ [ch; LF]
  /\ buf_current p' = buf_used p'
  /\ data_left p' = 0
  /\ state p' = STATE_READLINE
  /\ parser_wf p'.
Proof.
  intros Hwf Hleft Hroom p'.
  pose proof (feed_rawdata_byte_wf p ch Hwf) as Hwf'. fold p' in Hwf'.
  subst p'. unfold feed_rawdata_byte in *.
  rewrite (proj2 (Z.gtb_gt _ _)) in * by lia.
  assert (Hroom1 : buf_used p < buf_size p - 1) by lia.
  destruct (parser_append_room_view p ch Hwf Hroom1) as (Hu & Hb & Hc).
  destruct (parser_append_fields p ch) as (Hsz & _ & Hst & Hdl & _).
  pose proof (parser_append_wf p ch Hwf) as Hwfa.
  cbn [data_left set_data_left] in *. rewrite Hdl, Hleft in *.
  change (size_t_wrap (1 - 1)) with 0 in *. change (0 =? 0) with true in *.
  cbv iota in *.
  set (pa := set_data_left 0 (parser_append p ch)) in *.
  assert (Hwfp : parser_wf pa) by exact Hwfa.
  destruct (parser_append_room_view pa LF Hwfp) as (Hu2 & Hb2 & Hc2).
  { change (buf_used pa) with (buf_used (parser_append p ch)).
    change (buf_size pa) with (buf_size (parser_append p ch)). lia. }
  destruct (parser_append_fields pa LF) as (_ & _ & _ & Hdl2 & _).
  split.
  { change (used_bytes (set_state _ (set_buf_current _ ?x))) with (used_bytes x).
    rewrite Hu2. change (used_bytes pa) with (used_bytes (parser_append p ch)).
    rewrite Hu, <- app_assoc. reflexivity. }
  split; [reflexivity|]. split; [exact Hdl2|]. split; [reflexivity | exact Hwf'].
Qed.

(** X12. Raw data is captured as it comes. A parser in [STATE_RAWDATA]
    that waits for the bytes [raw], with room for them in the buffer,
    takes them as they are, CRs and LFs among them too, behind what the
    buffer holds, puts one LF behind the last and goes on in
    [STATE_READLINE] with no line under construction. No call is made on
    the way, and the length of the feed is not counted down by these
    bytes: the feed goes on behind them with the length it had. *)
Theorem rawdata_is_captured_verbatim (raw : list Z) :
  forall (p : at_parser) (fuel : nat) (rest : list Z) (len : Z),
    parser_wf p -> state p = STATE_RAWDATA ->
    raw <> [] -> data_left p = Z.of_nat (length raw) ->
    buf_used p + Z.of_nat (length raw) < buf_size p - 1 ->
    0 < len ->
    exists p' : at_parser,
      at_parser_feed (length raw + fuel) p (raw ++ rest) len
      = at_parser_feed fuel p' rest len
      /\ used_bytes p' = used_bytes p ++ raw ++ [LF]
      /\ buf_current p' = buf_used p'
      /\ state p' = STATE_READLINE /\ data_left p' = 0
      /\ parser_wf p'.
Proof.
  induction raw as [|ch raw IH]; intros p fuel rest len Hwf Hst Hne Hleft Hroom Hlen;
    [congruence|].
  cbn [length app Nat.add] in *.
  rewrite feed_loop_raw_step by assumption.
  assert (Hsz : buf_size p < SIZE_MOD) by apply Hwf.
  assert (Hused : 0 <= buf_used p) by (destruct Hwf as [[[? ?] ?] _]; lia).
  destruct raw as [|ch' raw'].
  - destruct (feed_rawdata_byte_last p ch Hwf) as (Hu & Hc & Hd & Hs & Hwf');
      [exact Hleft | simpl in Hroom; lia |].
    exists (feed_rawdata_byte p ch). cbn [length app Nat.add].
    split; [reflexivity|]. do 4 (split; [assumption|]). exact Hwf'.
  - destruct (feed_rawdata_byte_more p ch Hwf) as (Hu & Hb & Hd & Hs & Hz & Hwf');
      [cbn [length] in *; lia | cbn [length] in *; lia |].
    destruct (IH (feed_rawdata_byte p ch) fuel rest len Hwf')
      as (p' & Heq & Hu' & Hc' & Hs' & Hd' & Hwf''); try assumption.
    { congruence. }
    { discriminate. }
    { rewrite Hd, Hleft. cbn [length]. lia. }
    { rewrite Hb, Hz. cbn [length] in *. lia. }
    exists p'. split; [exact Heq|]. split.
    { rewrite Hu', Hu, <- app_assoc. reflexivity. }
    do 3 (split; [assumption|]). exact Hwf''.
Qed.

Lemma rawdata_is_captured_verbatim_witness :
  exists p' : at_parser,
    at_parser_feed (length [CR; LF] + 0) after_raw_header ([CR; LF] ++ []) 1
    = at_parser_feed 0 p' [] 1
    /\ used_bytes p' = used_bytes after_raw_header ++ [CR; LF] ++ [LF]
    /\ buf_current p' = buf_used p'
    /\ state p' = STATE_READLINE /\ data_left p' = 0
    /\ parser_wf p'.
Proof.
  apply (rawdata_is_captured_verbatim [CR; LF] after_raw_header 0 [] 1).
  - apply at_parser_feed_wf.
    apply (at_parser_alloc_wf None 64 0 (replicate 64 0) 0);
      [rewrite SIZE_MOD_value; lia | reflexivity].
  - vm_compute. reflexivity.
  - discriminate.
  - vm_compute. reflexivity.
  - vm_compute. reflexivity.
  - lia.
Defined.

End ParserExtras.

(** ** More properties of the dispatcher *)

Module HalExtras.
Import CString CStringFacts Parser ParserSpec LineSpec Fixtures ParserFacts.
Import Hal HalSpec HalFixtures HalFacts HalSend HalPort HalSendSpec HalRunSpec.
Import PortFixtures LineFixtures ParserExtras.

(** *** Hexadecimal text *)

Lemma nibble_digit (h : Z) :
  0 <= h < 16 ->
  hex_value (if h <? 10 then 48 + h else 65 + h - 10) = Some h.
Proof.
  intros Hh. unfold hex_value.
  destruct (Z.ltb_spec h 10).
  - rewrite (proj2 (Z.leb_le 48 (48 + h))), (proj2 (Z.leb_le (48 + h) 57)) by lia.
    cbn [andb]. f_equal. lia.
  - rewrite (proj2 (Z.leb_gt (65 + h - 10) 57)), andb_false_r by lia.
    rewrite (proj2 (Z.leb_le 65 (65 + h - 10))),
      (proj2 (Z.leb_le (65 + h - 10) 70)) by lia.
    cbn [andb]. f_equal. lia.
Qed.

(** X13. [byte_to_hex] writes two digits out of 0-9 and A-F, the high
    nibble first: read back as a hexadecimal number they give the byte,
    as a value from 0 to 255, whatever the sign of the [char]. *)
Theorem byte_to_hex_round_trip (byte : Z) :
  exists hi lo : Z,
    hex_value (fst (byte_to_hex byte)) = Some hi
    /\ hex_value (snd (byte_to_hex byte)) = Some lo
    /\ 16 * hi + lo = byte mod 256.
Proof.
  exists (Z.land (Z.shiftr byte 4) 15), (Z.land byte 15).
  assert (Hlo : Z.land byte 15 = byte mod 16) by (apply (Z.land_ones byte 4); lia).
  assert (Hhi : Z.land (Z.shiftr byte 4) 15 = (byte / 16) mod 16).
  { rewrite (Z.land_ones _ 4), Z.shiftr_div_pow2 by lia. reflexivity. }
  unfold byte_to_hex. cbn [fst snd].
  split; [|split].
  - apply nibble_digit. rewrite Hhi. apply Z.mod_pos_bound. lia.
  - apply nibble_digit. rewrite Hlo. apply Z.mod_pos_bound. lia.
  - rewrite Hhi, Hlo.
    pose proof (Z.div_mod byte 16 ltac:(lia)) as H1.
    pose proof (Z.div_mod (byte / 16) 16 ltac:(lia)) as H2.
    pose proof (Z.mod_pos_bound byte 16 ltac:(lia)) as B1.
    pose proof (Z.mod_pos_bound (byte / 16) 16 ltac:(lia)) as B2.
    apply (Z.mod_unique byte 256 (byte / 16 / 16)); [left|]; lia.
Qed.

(** *** Sending without waiting *)

Lemma hex_text_length (data : list Z) :
  length (hex_text data) = (2 * length data)%nat.
Proof.
  unfold hex_text. induction data as [|b data IH]; [reflexivity|].
  cbn [map concat length app]. rewrite IH. lia.
Qed.

Lemma hex_text_app (d1 d2 : list Z) :
  hex_text (d1 ++ d2) = hex_text d1 ++ hex_text d2.
Proof. unfold hex_text. now rewrite map_app, concat_app. Qed.

Lemma hex_line_in_range (data : list Z) (oset len : Z) :
  0 <= oset -> 0 <= len -> oset + len <= Z.of_nat (length data) ->
  hex_line data oset len
  = Some (hex_text (take (Z.to_nat len) (drop (Z.to_nat oset) data))).
Proof.
  intros Ho Hl Hlen. unfold hex_line.
  rewrite (proj2 (Z.ltb_ge _ _)); [reflexivity|].
  rewrite length_take, length_drop. lia.
Qed.

Lemma set_uart_tx_nil (a : at_freertos) : set_uart_tx (uart_tx a ++ []) a = a.
Proof. destruct a. unfold set_uart_tx. cbn. now rewrite app_nil_r. Qed.

Lemma at_send_hex_loop_ok (ops_write : list Z -> Z) (data : list Z) (size : Z) :
  writes_succeed ops_write ->
  size <= Z.of_nat (length data) -> size < SIZE_MOD ->
  forall (fuel : nat) (a : at_freertos) (oset : Z),
    open a = true -> 0 <= oset <= size -> size - oset <= Z.of_nat fuel ->
    exists ws : list (list Z),
      at_send_hex_loop ops_write fuel a data size oset
      = (HexReturned true, set_uart_tx (uart_tx a ++ ws) a)
      /\ concat ws
         = hex_text (take (Z.to_nat (size - oset)) (drop (Z.to_nat oset) data))
      /\ full_but_last 80 ws
      /\ (oset = size -> ws = []).
Proof.
  intros Hw Hdata Hsize.
  induction fuel as [|fuel IH]; intros a oset Ho Hoset Hfuel.
  - assert (oset = size) as -> by lia.
    exists []. cbn [at_send_hex_loop].
    rewrite size_t_wrap_small, Z.ltb_irrefl by lia.
    rewrite set_uart_tx_nil, Z.sub_diag. repeat split.
  - cbn [at_send_hex_loop]. rewrite size_t_wrap_small by lia.
    destruct (Z.ltb_spec oset size) as [Hlt|Hge].
    2:{ assert (oset = size) as -> by lia.
        exists []. rewrite set_uart_tx_nil, Z.sub_diag. repeat split. }
    rewrite size_t_wrap_small by lia.
    change (AT_COMMAND_LENGTH / 2) with 40.
    set (len := if size - oset >? 40 then 40 else size - oset).
    assert (Hlen : 1 <= len <= 40 /\ len <= size - oset
                   /\ (len <> 40 -> oset + len = size)).
    { subst len. destruct (Z.gtb_spec (size - oset) 40); lia. }
    destruct Hlen as (Hl1 & Hl2 & Hl3).
    rewrite hex_line_in_range by lia.
    set (chunk := take (Z.to_nat len) (drop (Z.to_nat oset) data)).
    assert (Hchunk : length chunk = Z.to_nat len).
    { subst chunk. rewrite length_take, length_drop. lia. }
    unfold _at_send. rewrite Ho. cbn [negb].
    rewrite (proj2 (Z.eqb_neq _ _) (Hw _)). cbn [negb].
    rewrite take_ge by (rewrite hex_text_length, Hchunk; lia).
    destruct (IH (set_uart_tx (uart_tx a ++ [hex_text chunk]) a) (oset + len))
      as (ws & Heq & Hcat & Hfull & Hnil); [exact Ho | lia | lia |].
    exists (hex_text chunk :: ws). rewrite Heq.
    split.
    { destruct a. unfold set_uart_tx. cbn. now rewrite <- app_assoc. }
    split.
    { cbn [concat]. rewrite Hcat, <- hex_text_app. f_equal. subst chunk.
      replace (Z.to_nat (size - oset))
        with (Z.to_nat len + Z.to_nat (size - (oset + len)))%nat by lia.
      rewrite <- take_take_drop, drop_drop. do 3 f_equal. lia. }
    split.
    { cbn [full_but_last]. destruct ws as [|w ws'].
      - rewrite hex_text_length, Hchunk. lia.
      - split; [|exact Hfull].
        rewrite hex_text_length, Hchunk.
        destruct (Z.eq_dec len 40) as [->|Hne]; [reflexivity|].
        specialize (Hnil (Hl3 Hne)). discriminate. }
    intros ->. lia.
Qed.

(** X14. On an open channel whose writes succeed, [at_send_hex] returns
    true, given fuel for one round per byte, and what it has sent is the
    [size] bytes as hexadecimal text, two digits per byte in the order of
    the bytes, in writes of 80 characters, the last of which may be
    shorter. Nothing else of the dispatcher changes. *)
Theorem at_send_hex_sends_hex_text (ops_write : list Z -> Z) (fuel : nat)
    (a : at_freertos) (data : list Z) (size : Z) :
  writes_succeed ops_write ->
  open a = true ->
  0 <= size -> size <= Z.of_nat (length data) -> size < SIZE_MOD ->
  size <= Z.of_nat fuel ->
  exists ws : list (list Z),
    at_send_hex ops_write fuel a data size
    = (HexReturned true, set_uart_tx (uart_tx a ++ ws) a)
    /\ concat ws = hex_text (take (Z.to_nat size) data)
    /\ full_but_last 80 ws.
Proof.
  intros Hw Ho H0 Hdata Hsize Hfuel.
  destruct (at_send_hex_loop_ok ops_write data size Hw Hdata Hsize fuel a 0)
    as (ws & Heq & Hcat & Hfull & _); [exact Ho | lia | lia |].
  exists ws. split; [exact Heq|]. split; [|exact Hfull].
  rewrite Hcat, Z.sub_0_r. reflexivity.
Qed.

Lemma at_send_hex_sends_hex_text_witness :
  exists ws : list (list Z),
    at_send_hex (fun _ => 1) 41 idle_channel (replicate 41 255) 41
    = (HexReturned true, set_uart_tx (uart_tx idle_channel ++ ws) idle_channel)
    /\ concat ws = hex_text (take (Z.to_nat 41) (replicate 41 255))
    /\ full_but_last 80 ws.
Proof.
  apply (at_send_hex_sends_hex_text (fun _ => 1) 41 idle_channel (replicate 41 255) 41).
  - intros chunk. discriminate.
  - reflexivity.
  - lia.
  - simpl. lia.
  - rewrite SIZE_MOD_value. lia.
  - lia.
Defined.

(** X15. On a channel that is not open [at_send_hex] hands nothing to
    the transport and leaves the dispatcher as it is. It returns false,
    unless there is nothing to send: with a [size] of zero it returns true
    without a look at the channel. *)
Theorem at_send_hex_on_closed_channel (ops_write : list Z -> Z) (fuel : nat)
    (a : at_freertos) (data : list Z) (size : Z) :
  open a = false ->
  0 <= size -> size <= Z.of_nat (length data) -> size < SIZE_MOD ->
  (0 < fuel)%nat ->
  at_send_hex ops_write fuel a data size = (HexReturned (size =? 0), a).
Proof.
  intros Ho H0 Hdata Hsize Hfuel.
  destruct fuel as [|fuel]; [lia|].
  unfold at_send_hex. cbn [at_send_hex_loop].
  change (size_t_wrap 0) with 0.
  destruct (Z.ltb_spec 0 size) as [Hlt|Hge].
  - rewrite Z.sub_0_r, size_t_wrap_small by lia.
    change (AT_COMMAND_LENGTH / 2) with 40.
    rewrite hex_line_in_range by (destruct (Z.gtb_spec size 40); lia).
    unfold _at_send. rewrite Ho. cbn [negb].
    now rewrite (proj2 (Z.eqb_neq size 0)) by lia.
  - assert (size = 0) as -> by lia. reflexivity.
Qed.

Lemma at_send_hex_on_closed_channel_witness :
  at_send_hex (fun _ => 1) 1 closed_channel [65; 66] 2
  = (HexReturned (2 =? 0), closed_channel)
  /\ at_send_hex (fun _ => 1) 1 closed_channel [65; 66] 0
     = (HexReturned (0 =? 0), closed_channel).
Proof.
  split.
  - apply (at_send_hex_on_closed_channel (fun _ => 1) 1 closed_channel [65; 66] 2);
      [reflexivity | lia | simpl; lia | rewrite SIZE_MOD_value; lia | lia].
  - apply (at_send_hex_on_closed_channel (fun _ => 1) 1 closed_channel [65; 66] 0);
      [reflexivity | lia | simpl; lia | rewrite SIZE_MOD_value; lia | lia].
Defined.

(** X16. [at_send] formats into a scratch of 80 bytes, of which it hands
    79 to [vsnprintf]. A text of 79 bytes or more makes it return false
    with nothing written. A text of at most 78 bytes is handed to the
    transport as it is, with no CR behind it, in one write, and the value
    of the write is returned; on a channel that is not open [at_send]
    returns false and nothing is written. *)
Theorem at_send_bounds (ops_write : list Z -> Z) (a : at_freertos)
    (formatted : list Z) :
  (AT_COMMAND_LENGTH - 1 <= Z.of_nat (length formatted) ->
   at_send ops_write a formatted = (false, a))
  /\ (Z.of_nat (length formatted) < AT_COMMAND_LENGTH - 1 ->
      (open a = true ->
       at_send ops_write a formatted
       = (negb (ops_write formatted =? 0),
          set_uart_tx (uart_tx a ++ [formatted]) a))
      /\ (open a = false -> at_send ops_write a formatted = (false, a))).
Proof.
  unfold at_send, vsnprintf, AT_COMMAND_LENGTH. split.
  - intros Hlen. now rewrite (proj2 (Z.geb_le _ _)) by lia.
  - intros Hlen.
    destruct (Z.geb_spec (Z.of_nat (length formatted)) (80 - 1)) as [Hge|_]; [lia|].
    unfold _at_send. split; intros Ho; rewrite Ho; cbn [negb]; [|reflexivity].
    rewrite (take_ge formatted) by lia.
    rewrite Nat2Z.id, take_app_length. reflexivity.
Qed.

Lemma at_send_bounds_witness :
  at_send (fun _ => 1) idle_channel (replicate 79 65) = (false, idle_channel)
  /\ at_send (fun _ => 1) idle_channel (CString.bytes "AT+CSQ")
     = (negb (1 =? 0),
        set_uart_tx (uart_tx idle_channel ++ [CString.bytes "AT+CSQ"]) idle_channel)
  /\ at_send (fun _ => 1) closed_channel (CString.bytes "AT+CSQ")
     = (false, closed_channel).
Proof.
  split; [|split].
  - apply (proj1 (at_send_bounds (fun _ => 1) idle_channel (replicate 79 65))).
    unfold AT_COMMAND_LENGTH. simpl. lia.
  - apply (proj2 (at_send_bounds (fun _ => 1) idle_channel (CString.bytes "AT+CSQ")));
      [unfold AT_COMMAND_LENGTH; simpl; lia | reflexivity].
  - apply (proj2 (at_send_bounds (fun _ => 1) closed_channel (CString.bytes "AT+CSQ")));
      [unfold AT_COMMAND_LENGTH; simpl; lia | reflexivity].
Defined.

(** *** The response buffer *)

Lemma handle_response_copy (AT_BUF_SIZE : Z) (a : at_freertos)
    (buf : list Z) (len : Z) :
  1 <= AT_BUF_SIZE < SIZE_MOD ->
  Z.of_nat (length (response a)) = AT_BUF_SIZE ->
  0 <= len <= Z.of_nat (length buf) ->
  let n := Z.to_nat (Z.min len (AT_BUF_SIZE - 1)) in
  let a' := handle_response AT_BUF_SIZE buf len a in
  length (response a') = length (response a)
  /\ response a' = take n buf ++ 0 :: drop (S n) (response a)
  /\ (nul_free (take n buf) -> contents (response a') = take n buf)
  /\ waiting a' = false /\ xSem a' = true
  /\ same_channel a a' /\ parser a' = parser a /\ urc_log a' = urc_log a.
Proof.
  intros Hsz Hresp Hlen n a'.
  assert (Hn : handle_response AT_BUF_SIZE buf len a
               = set_xSem true
                   (set_waiting false
                      (set_response
                         (<[n := 0]> (take n buf ++ drop n (response a))) a))).
  { unfold handle_response. rewrite size_t_wrap_small by lia.
    subst n. destruct (Z.ltb_spec len (AT_BUF_SIZE - 1)).
    - now rewrite Z.min_l by lia.
    - now rewrite Z.min_r by lia. }
  assert (Hnb : (n <= length buf)%nat) by lia.
  assert (Hnr : (n < length (response a))%nat) by lia.
  assert (Hcopy : <[n := 0]> (take n buf ++ drop n (response a))
                  = take n buf ++ 0 :: drop (S n) (response a)).
  { rewrite insert_app_r_alt by (rewrite length_take; lia).
    rewrite length_take, Nat.min_l, Nat.sub_diag by lia.
    f_equal. destruct (drop n (response a)) as [|x r] eqn:E.
    - apply (f_equal length) in E. rewrite length_drop in E. simpl in E. lia.
    - cbn. f_equal.
      change r with (drop 1 (x :: r)). rewrite <- E, drop_drop. f_equal. lia. }
  subst a'. rewrite Hn. cbn [response set_xSem set_waiting set_response
                              waiting xSem parser urc_log].
  rewrite Hcopy.
  split.
  { rewrite length_app, length_take. cbn [length]. rewrite length_drop. lia. }
  split; [reflexivity|]. split.
  { intros Hnul. unfold contents.
    rewrite strlen_nul_free by assumption.
    rewrite length_take, Nat.min_l by lia.
    rewrite take_app_length' by (rewrite length_take; lia). reflexivity. }
  repeat split.
Qed.

(** X17. [handle_response] never writes behind the response buffer: it
    copies the payload cut to [AT_BUF_SIZE - 1] bytes and stores a NUL
    behind the copy; the bytes behind the NUL and the length of the buffer
    stay as they are. Where the bytes copied have no NUL among them, the
    buffer read as a C string is exactly these bytes. The caller is marked
    as no longer waiting and the semaphore is given. *)
Theorem handle_response_fills_buffer (AT_BUF_SIZE : Z) (a : at_freertos)
    (buf : list Z) (len : Z) :
  1 <= AT_BUF_SIZE < SIZE_MOD ->
  Z.of_nat (length (response a)) = AT_BUF_SIZE ->
  0 <= len <= Z.of_nat (length buf) ->
  let n := Z.to_nat (Z.min len (AT_BUF_SIZE - 1)) in
  let a' := handle_response AT_BUF_SIZE buf len a in
  length (response a') = length (response a)
  /\ response a' = take n buf ++ 0 :: drop (S n) (response a)
  /\ (nul_free (take n buf) -> contents (response a') = take n buf)
  /\ waiting a' = false /\ xSem a' = true
  /\ same_channel a a' /\ parser a' = parser a /\ urc_log a' = urc_log a.
Proof. apply handle_response_copy. Qed.

Lemma handle_response_fills_buffer_witness :
  1 <= 32 < SIZE_MOD
  /\ Z.of_nat (length (response idle_channel)) = 32
  /\ (let n := Z.to_nat (Z.min 10 (32 - 1)) in
      let a' := handle_response 32 (CString.bytes "+CSQ: 21,0") 10 idle_channel in
      length (response a') = length (response idle_channel)
      /\ response a'
         = take n (CString.bytes "+CSQ: 21,0")
             ++ 0 :: drop (S n) (response idle_channel)
      /\ (nul_free (take n (CString.bytes "+CSQ: 21,0")) ->
          contents (response a') = take n (CString.bytes "+CSQ: 21,0"))
      /\ waiting a' = false /\ xSem a' = true
      /\ same_channel idle_channel a' /\ parser a' = parser idle_channel
      /\ urc_log a' = urc_log idle_channel).
Proof.
  assert (H1 : 1 <= 32 < SIZE_MOD) by (rewrite SIZE_MOD_value; lia).
  assert (H2 : Z.of_nat (length (response idle_channel)) = 32) by reflexivity.
  assert (H3 : 0 <= 10 <= Z.of_nat (length (CString.bytes "+CSQ: 21,0")))
    by (simpl; lia).
  split; [exact H1|]. split; [exact H2|].
  exact (handle_response_fills_buffer 32 idle_channel
           (CString.bytes "+CSQ: 21,0") 10 H1 H2 H3).
Defined.

(** *** The life of the channel *)

(** X18. A channel that was closed stays closed. [at_close] returns 0,
    marks the channel as not open and forgets the transport; from then on
    [at_open] returns -1 and changes nothing, every command returns null
    at once with nothing written, and a round of the reader task leaves
    the port as it is. *)
Theorem closed_port_stays_closed (AT_BUF_SIZE : Z) (c c' : at_port) (r : Z) :
  at_close c = Some (r, c') ->
  r = 0
  /\ open (dev c') = false
  /\ at_open c' = (-1, c')
  /\ (forall (data : list Z) (size : Z) (env : list tick),
        _at_command AT_BUF_SIZE (dev c') data size env
        = (CmdReturned None, dev c', env))
  /\ (forall rx : option Z, at_reader_round AT_BUF_SIZE rx c' = Some c').
Proof.
  unfold at_close. cbn [xUART set_dev].
  destruct (xUART c) eqn:Hu; cbn [negb]; [|discriminate].
  intros H. injection H as <- <-.
  split; [reflexivity|]. split; [reflexivity|]. split; [reflexivity|].
  split.
  - intros data size env. reflexivity.
  - intros rx. unfold at_reader_round. cbn.
    destruct (running c); reflexivity.
Qed.

Lemma closed_port_stays_closed_witness :
  at_close open_port = Some (0, closed_port)
  /\ open (dev closed_port) = false
  /\ at_open closed_port = (-1, closed_port).
Proof.
  assert (H : at_close open_port = Some (0, closed_port)) by reflexivity.
  split; [exact H|].
  destruct (closed_port_stays_closed 32 open_port closed_port 0 H)
    as (_ & H1 & H2 & _).
  split; [exact H1 | exact H2].
Defined.

(** X19. [at_close] reaches the transport through [xUART] and then
    clears [xUART]: a second [at_close] has no result, and neither has
    [at_free], which starts by closing, on a port that was closed
    before. *)
Theorem second_close_has_no_result (c c' : at_port) (r : Z) :
  at_close c = Some (r, c') ->
  at_close c' = None /\ at_free c' = None.
Proof.
  unfold at_free, at_close. cbn [xUART set_dev].
  destruct (xUART c) eqn:Hu; cbn [negb]; [|discriminate].
  intros H. injection H as <- <-. split; reflexivity.
Qed.

Lemma second_close_has_no_result_witness :
  at_close open_port = Some (0, closed_port)
  /\ at_close closed_port = None /\ at_free closed_port = None.
Proof.
  assert (H : at_close open_port = Some (0, closed_port)) by reflexivity.
  split; [exact H|].
  exact (second_close_has_no_result open_port closed_port 0 H).
Defined.

(** X20. A dispatcher fresh from [at_alloc_freertos] has a timeout of
    zero, and [at_open] leaves it so. On an open dispatcher with a timeout
    of zero a command is written to the transport and returns null without
    waiting a single tick: the ticks to come are all still to come, the
    parser is reset and [waiting] is left set. The dispatcher is then open
    with a timeout of zero as before, so that the same holds of the next
    command, until [at_set_timeout] is called. *)
Theorem fresh_channel_commands_do_not_wait (AT_BUF_SIZE : Z) (p : at_parser)
    (sem : bool) :
  at_open (at_alloc_freertos AT_BUF_SIZE p true sem)
  = (0, snd (at_open (at_alloc_freertos AT_BUF_SIZE p true sem)))
  /\ open (dev (snd (at_open (at_alloc_freertos AT_BUF_SIZE p true sem)))) = true
  /\ timeout (dev (snd (at_open (at_alloc_freertos AT_BUF_SIZE p true sem)))) = 0
  /\ forall (a : at_freertos) (data : list Z) (size : Z) (env : list tick),
       open a = true -> timeout a = 0 ->
       exists a' : at_freertos,
         _at_command AT_BUF_SIZE a data size env = (CmdReturned None, a', env)
         /\ uart_tx a' = uart_tx a ++ [take (Z.to_nat size) data]
         /\ parser a' = at_parser_reset (parser a)
         /\ open a' = true /\ timeout a' = 0 /\ waiting a' = true.
Proof.
  split; [reflexivity|]. split; [reflexivity|]. split; [reflexivity|].
  intros a data size env Ho Ht.
  rewrite at_command_unfold by exact Ho.
  rewrite Ht, wait_loop_expired.
  unfold resolve, waiting_for. cbn. rewrite Ho. cbn.
  eexists. split; [reflexivity|]. cbn. repeat split; assumption.
Qed.

Lemma fresh_channel_commands_do_not_wait_witness :
  open (dev open_port) = true
  /\ timeout (dev open_port) = 0
  /\ exists a' : at_freertos,
       _at_command 32 (dev open_port) (CString.bytes "AT" ++ [CR]) 3
         [received (CString.bytes "OK" ++ [CR; LF])]
       = (CmdReturned None, a', [received (CString.bytes "OK" ++ [CR; LF])])
       /\ uart_tx a'
          = uart_tx (dev open_port) ++ [take (Z.to_nat 3) (CString.bytes "AT" ++ [CR])]
       /\ parser a' = at_parser_reset (parser (dev open_port))
       /\ open a' = true /\ timeout a' = 0 /\ waiting a' = true.
Proof.
  assert (H1 : open (dev open_port) = true) by reflexivity.
  assert (H2 : timeout (dev open_port) = 0) by reflexivity.
  split; [exact H1|]. split; [exact H2|].
  exact (proj2 (proj2 (proj2 (fresh_channel_commands_do_not_wait 32 fresh false)))
           (dev open_port) (CString.bytes "AT" ++ [CR]) 3
           [received (CString.bytes "OK" ++ [CR; LF])] H1 H2).
Defined.

(** *** The reader task and the callbacks *)

Lemma run_callbacks_app (AT_BUF_SIZE : Z) (cs1 cs2 : list callback) :
  forall a : at_freertos,
    run_callbacks AT_BUF_SIZE (cs1 ++ cs2) a
    = match run_callbacks AT_BUF_SIZE cs1 a with
      | Some a' => run_callbacks AT_BUF_SIZE cs2 a'
      | None => None
      end.
Proof.
  induction cs1 as [|c cs1 IH]; intros a; [reflexivity|].
  destruct c as [b l|b l|b l|b l]; cbn [app run_callbacks]; try apply IH.
  destruct (handle_urc b l a); [apply IH | reflexivity].
Qed.

(** The callbacks neither read nor write the parser. *)
Lemma run_callbacks_set_parser (AT_BUF_SIZE : Z) (cs : list callback)
    (p : at_parser) :
  forall a : at_freertos,
    run_callbacks AT_BUF_SIZE cs (set_parser p a)
    = option_map (set_parser p) (run_callbacks AT_BUF_SIZE cs a).
Proof.
  induction cs as [|c cs IH]; intros a; [reflexivity|].
  destruct c as [b l|b l|b l|b l]; cbn [run_callbacks]; try apply IH.
  - rewrite <- IH. reflexivity.
  - unfold handle_urc. cbn [cbs set_parser].
    destruct (cbs a) as [c|]; [|reflexivity].
    destruct (handle_urc_cb c); rewrite <- IH; reflexivity.
Qed.

Lemma run_callbacks_same (AT_BUF_SIZE : Z) (cs : list callback) :
  forall a a' : at_freertos,
    run_callbacks AT_BUF_SIZE cs a = Some a' ->
    same_channel a a' /\ parser a' = parser a.
Proof.
  induction cs as [|c cs IH]; intros a a' H; cbn [run_callbacks] in H.
  - injection H as <-. repeat split.
  - destruct c as [b l|b l|b l|b l]; try (now apply IH).
    + apply IH in H. exact H.
    + unfold handle_urc in H. destruct (cbs a) as [c|]; [|discriminate].
      destruct (handle_urc_cb c); apply IH in H; exact H.
Qed.

(** Without a call of [handle_response] the caller of a command is not
    woken and the response buffer is not written. *)
Lemma run_callbacks_quiet (AT_BUF_SIZE : Z) (cs : list callback) :
  forall a a' : at_freertos,
    List.filter is_response cs = [] ->
    run_callbacks AT_BUF_SIZE cs a = Some a' ->
    response a' = response a /\ waiting a' = waiting a /\ xSem a' = xSem a.
Proof.
  induction cs as [|c cs IH]; intros a a' Hf H; cbn [run_callbacks] in H.
  - injection H as <-. repeat split.
  - destruct c as [b l|b l|b l|b l]; cbn [List.filter is_response] in Hf;
      try discriminate; try (now apply IH).
    unfold handle_urc in H. destruct (cbs a) as [c|]; [|discriminate].
    destruct (handle_urc_cb c); apply IH in H; assumption.
Qed.

Lemma run_callbacks_no_urc (AT_BUF_SIZE : Z) (cs : list callback) :
  forall a : at_freertos,
    List.filter is_response cs = [] -> List.filter is_urc cs = [] ->
    run_callbacks AT_BUF_SIZE cs a = Some a.
Proof.
  induction cs as [|c cs IH]; intros a Hr Hu; [reflexivity|].
  destruct c as [b l|b l|b l|b l];
    cbn [List.filter is_response is_urc] in Hr, Hu; try discriminate;
    cbn [run_callbacks]; now apply IH.
Qed.

Lemma run_callbacks_one_response (AT_BUF_SIZE : Z) (cs : list callback)
    (buf : list Z) (len : Z) :
  forall a : at_freertos,
    List.filter is_response cs = [HandleResponse buf len] ->
    List.filter is_urc cs = [] ->
    run_callbacks AT_BUF_SIZE cs a = Some (handle_response AT_BUF_SIZE buf len a).
Proof.
  induction cs as [|c cs IH]; intros a Hr Hu; [discriminate|].
  destruct c as [b l|b l|b l|b l];
    cbn [List.filter is_response is_urc] in Hr, Hu; try discriminate;
    cbn [run_callbacks]; try (now apply IH).
  injection Hr as -> -> Hr. now apply run_callbacks_no_urc.
Qed.

Lemma run_callbacks_urc_faults (AT_BUF_SIZE : Z) (cs : list callback) :
  forall a : at_freertos,
    cbs a = None -> List.filter is_urc cs <> [] ->
    run_callbacks AT_BUF_SIZE cs a = None.
Proof.
  induction cs as [|c cs IH]; intros a Hc Hu; [exfalso; now apply Hu|].
  destruct c as [b l|b l|b l|b l];
    cbn [List.filter is_urc] in Hu; cbn [run_callbacks]; try (now apply IH).
  unfold handle_urc. now rewrite Hc.
Qed.

Lemma scan_line_same (a a' : at_freertos) :
  same_channel a a' -> scan_line a' = scan_line a.
Proof. intros (H1 & H2 & _). unfold scan_line. now rewrite H1, H2. Qed.

Lemma reader_parser_installed (p : at_parser) (a : at_freertos) :
  cbs_scan_line p = Some (scan_line a) -> reader_parser (set_parser p a) = p.
Proof.
  intros H. destruct p. unfold reader_parser. cbn in *. now rewrite H.
Qed.

Lemma feed_bytes_one (p : at_parser) (ch : Z) :
  line_state (state p) = true ->
  feed_bytes p [ch]
  = (FeedReturned, fst (feed_line_byte p ch), snd (feed_line_byte p ch)).
Proof.
  intros Hst. unfold feed_bytes. cbn [length Nat.mul Nat.add].
  change (Z.of_nat 1) with 1.
  rewrite feed_loop_line_step by (assumption || lia).
  destruct (feed_line_byte p ch) as [p' tr]. cbn [fst snd].
  change (size_t_wrap (1 - 1)) with 0.
  rewrite feed_loop_done, app_nil_r. reflexivity.
Qed.

Lemma parser_handle_line_cbs (p : at_parser) :
  cbs_scan_line (fst (parser_handle_line p)) = cbs_scan_line p.
Proof.
  unfold parser_handle_line.
  destruct (buf_used p =? buf_current p); [reflexivity|].
  destruct (determine_type (store (buf_used p) 0 p)) as [type tr].
  destruct (discard_line_fields (store (buf_used p) 0 p)) as (_ & _ & Hd & _).
  repeat match goal with
         | |- context [if ?b then _ else _] => destruct b
         end; cbn [fst]; try exact Hd; try reflexivity.
Qed.

Lemma feed_line_byte_cbs (p : at_parser) (ch : Z) :
  cbs_scan_line (fst (feed_line_byte p ch)) = cbs_scan_line p.
Proof.
  unfold feed_line_byte.
  set (p1 := if negb (ch =? CR) && negb (ch =? LF) then _ else p).
  assert (H1 : cbs_scan_line p1 = cbs_scan_line p).
  { subst p1. destruct (negb (ch =? CR) && negb (ch =? LF)); [|reflexivity].
    apply feed_line_append_fields. }
  clearbody p1. rewrite <- H1.
  destruct ((ch =? LF) || _); [apply parser_handle_line_cbs | reflexivity].
Qed.

(** One round of the reader task in a line state is one pass through the
    loop of the parser, its calls run against the dispatcher. *)
Lemma reader_feed_step (AT_BUF_SIZE : Z) (ch : Z) (a : at_freertos) :
  line_state (state (parser a)) = true ->
  reader_feed AT_BUF_SIZE ch a
  = option_map (set_parser (fst (feed_line_byte (reader_parser a) ch)))
      (run_callbacks AT_BUF_SIZE
         (calls (snd (feed_line_byte (reader_parser a) ch))) a).
Proof.
  intros Hst. unfold reader_feed. fold (reader_parser a).
  rewrite feed_bytes_one by exact Hst.
  apply run_callbacks_set_parser.
Qed.

(** The bytes of one tick, as long as no scanner announces data. *)
Lemma run_tick_received (AT_BUF_SIZE : Z) (data : list Z) :
  forall a : at_freertos,
    data <> [] -> open a = true -> text_inv (reader_parser a) ->
    run_tick AT_BUF_SIZE (received data) a
    = option_map (set_parser (fst (feed_lines (reader_parser a) data)))
        (run_callbacks AT_BUF_SIZE
           (calls (snd (feed_lines (reader_parser a) data))) a).
Proof.
  induction data as [|ch data IH]; intros a Hne Ho Hinv; [congruence|].
  cbn [received map run_tick run_action feed_lines]. rewrite Ho.
  assert (Hst : line_state (state (parser a)) = true) by apply Hinv.
  rewrite reader_feed_step by exact Hst.
  destruct (feed_line_byte_text _ ch Hinv) as [Hinv1 _].
  pose proof (feed_line_byte_cbs (reader_parser a) ch) as Hcbs.
  destruct (feed_line_byte (reader_parser a) ch) as [p1 tr1]. cbn [fst snd] in *.
  destruct (feed_lines p1 data) as [p2 tr2] eqn:E2. cbn [fst snd].
  unfold calls. rewrite map_app. fold (calls tr1) (calls tr2).
  rewrite run_callbacks_app.
  destruct (run_callbacks AT_BUF_SIZE (calls tr1) a) as [a0|] eqn:E1;
    [|reflexivity].
  cbn [option_map].
  destruct (run_callbacks_same _ _ _ _ E1) as [Hsame _].
  assert (Hrp : reader_parser (set_parser p1 a0) = p1).
  { apply reader_parser_installed. rewrite Hcbs.
    now rewrite (scan_line_same a a0 Hsame). }
  destruct data as [|ch' data'].
  - cbn [feed_lines] in E2. injection E2 as <- <-. reflexivity.
  - rewrite IH; [| discriminate | | now rewrite Hrp].
    2:{ destruct Hsame as (_ & _ & H & _). cbn [open set_parser]. congruence. }
    rewrite Hrp, E2. cbn [fst snd].
    rewrite run_callbacks_set_parser.
    destruct (run_callbacks AT_BUF_SIZE (calls tr2) a0); reflexivity.
Qed.

(** X21. While the parser is idle, nothing that arrives wakes a caller:
    a round of the reader task, whatever byte it reads, leaves the parser
    idle, the response buffer and [waiting] as they are, and the
    semaphore not given. *)
Theorem idle_reader_never_signals (AT_BUF_SIZE : Z) (rx : option Z)
    (c c' : at_port) :
  state (parser (dev c)) = STATE_IDLE ->
  at_reader_round AT_BUF_SIZE rx c = Some c' ->
  state (parser (dev c')) = STATE_IDLE
  /\ response (dev c') = response (dev c)
  /\ waiting (dev c') = waiting (dev c)
  /\ xSem (dev c') = xSem (dev c).
Proof.
  intros Hidle. unfold at_reader_round.
  destruct (running c); cbn [negb];
    [|intros H; injection H as <-; repeat split; assumption].
  destruct (open (dev c)); cbn [negb];
    [|intros H; injection H as <-; repeat split; assumption].
  destruct rx as [ch|];
    [|intros H; injection H as <-; repeat split; assumption].
  unfold reader_feed. fold (reader_parser (dev c)).
  destruct (feed_idle_stays_idle (2 * length [ch] + 1) (reader_parser (dev c))
              [ch] (Z.of_nat (length [ch])) Hidle) as [Hst Hresp].
  fold (feed_bytes (reader_parser (dev c)) [ch]) in Hst, Hresp.
  destruct (feed_bytes (reader_parser (dev c)) [ch]) as [[st p'] tr].
  cbn [fst snd] in Hst, Hresp.
  destruct st; try discriminate.
  destruct (run_callbacks AT_BUF_SIZE (calls tr) (set_parser p' (dev c)))
    as [a'|] eqn:E; [|discriminate].
  intros H. injection H as <-. cbn [dev set_dev].
  destruct (run_callbacks_same _ _ _ _ E) as [_ Hp].
  destruct (run_callbacks_quiet _ _ _ _ Hresp E) as (H1 & H2 & H3).
  rewrite Hp. repeat split; assumption.
Qed.

Lemma idle_reader_never_signals_witness :
  state (parser (dev listening_port)) = STATE_IDLE
  /\ exists c' : at_port,
       at_reader_round 32 (Some 82) listening_port = Some c'
       /\ state (parser (dev c')) = STATE_IDLE
       /\ response (dev c') = response (dev listening_port)
       /\ waiting (dev c') = waiting (dev listening_port)
       /\ xSem (dev c') = xSem (dev listening_port).
Proof.
  assert (H1 : state (parser (dev listening_port)) = STATE_IDLE) by reflexivity.
  split; [exact H1|].
  destruct (at_reader_round 32 (Some 82) listening_port) as [c'|] eqn:E;
    [|vm_compute in E; discriminate].
  exists c'. split; [reflexivity|].
  exact (idle_reader_never_signals 32 (Some 82) listening_port c' H1 E).
Defined.

(** *** From the bytes on the wire to the caller *)

Lemma reader_parser_wf (a : at_freertos) :
  parser_wf (parser a) -> parser_wf (reader_parser a).
Proof. intros Hwf. exact Hwf. Qed.

(** X22. [handle_urc] reads [at->cbs->handle_urc] without a test of
    [at->cbs]. On an open dispatcher on which no callbacks are set, as it
    is after [at_alloc_freertos], a line that arrives while the parser is
    idle is a URC, and the reader task, having read its LF, has no
    result. *)
Theorem urc_without_callbacks_has_no_result (AT_BUF_SIZE : Z)
    (a : at_freertos) (l : list Z) :
  cbs a = None -> command_scanner a = None -> open a = true ->
  parser_wf (parser a) ->
  state (parser a) = STATE_IDLE -> per_command_scanner (parser a) = None ->
  buf_used (parser a) = 0 -> buf_current (parser a) = 0 ->
  text_line l -> Z.of_nat (length l) <= buf_size (parser a) - 1 ->
  run_tick AT_BUF_SIZE (received (l ++ [CR; LF])) a = None.
Proof.
  intros Hcbs Hcs Ho Hwf Hidle Hpc Hu0 Hc0 Hl Hroom.
  pose proof (reader_parser_wf a Hwf) as Hwf'.
  assert (Hdef : scanners_defer (reader_parser a)).
  { split; intros f Hf line len.
    - cbn in Hf. congruence.
    - cbn in Hf. injection Hf as <-. unfold scan_line. now rewrite Hcs, Hcbs. }
  assert (Hinv : text_inv (reader_parser a)).
  { split; [exact Hwf'|]. split.
    - exists []. split; [constructor|].
      change (used_bytes (reader_parser a)) with (used_bytes (parser a)).
      change (buf_current (reader_parser a)) with (buf_current (parser a)).
      unfold used_bytes. rewrite Hu0, Hc0. apply (shape_between _ []).
    - split; [|now apply scanners_defer_text].
      change (state (reader_parser a)) with (state (parser a)). now rewrite Hidle. }
  rewrite run_tick_received by (assumption || (destruct l; discriminate)).
  destruct (feed_lines_idle_line (reader_parser a) l Hwf' Hidle Hu0 Hc0 Hl Hroom)
    as (Hurc & _).
  rewrite run_callbacks_urc_faults; [reflexivity | exact Hcbs|].
  unfold urcs in Hurc. rewrite Hurc. discriminate.
Qed.

Lemma urc_without_callbacks_has_no_result_witness :
  cbs (dev open_port) = None
  /\ open (dev open_port) = true
  /\ run_tick 32 (received (CString.bytes "RING" ++ [CR; LF])) (dev open_port) = None.
Proof.
  split; [reflexivity|]. split; [reflexivity|].
  apply (urc_without_callbacks_has_no_result 32 (dev open_port) (CString.bytes "RING"));
    try reflexivity.
  - apply (at_parser_alloc_wf None 64 0 (replicate 64 0) 0);
      [rewrite SIZE_MOD_value; lia | reflexivity].
  - split; [discriminate | repeat constructor; discriminate].
  - vm_compute. discriminate.
Defined.

(** X23. A command and its response, end to end. On an open dispatcher
    whose scanners defer to the built-in one and whose parser is well
    formed with an empty buffer, a command is sent; nothing arrives for
    [k] ticks, fewer than the timeout, and then, in one tick, the lines of
    a response: intermediate lines and a FINAL_OK line, each ended by CR
    LF, that fit the buffer of the parser. Then the command returns the
    response buffer, in which the intermediate lines joined by single LFs,
    cut to [AT_BUF_SIZE - 1] bytes, are followed by a NUL. It has written
    its bytes once, the parser is idle with an empty buffer again and the
    command scanner is cleared. *)
Theorem command_returns_response (AT_BUF_SIZE : Z) (a : at_freertos)
    (data : list Z) (size : Z) (ls : list (list Z)) (final : list Z)
    (k : nat) (env : list tick) :
  1 <= AT_BUF_SIZE < SIZE_MOD ->
  Z.of_nat (length (response a)) = AT_BUF_SIZE ->
  open a = true ->
  timeout a < 0 \/ Z.of_nat k < timeout a ->
  (forall line len, scan_line a line len = AT_RESPONSE_UNKNOWN) ->
  parser_wf (parser a) ->
  buf_used (parser a) = 0 -> buf_current (parser a) = 0 ->
  Forall text_line ls ->
  Forall (fun l => builtin_scanner l = AT_RESPONSE_INTERMEDIATE) ls ->
  text_line final -> builtin_scanner final = AT_RESPONSE_FINAL_OK ->
  Z.of_nat (length (lead ls)) + Z.of_nat (length final)
  <= buf_size (parser a) - 1 ->
  exists a' : at_freertos,
    _at_command AT_BUF_SIZE a data size
      (replicate k [] ++ received (crlf_lines ls ++ final ++ [CR; LF]) :: env)
    = (CmdReturned (Some (response a')), a', env)
    /\ response a'
       = take (Z.to_nat (Z.min (Z.of_nat (length (join ls))) (AT_BUF_SIZE - 1)))
              (join ls)
           ++ 0 :: drop (S (Z.to_nat (Z.min (Z.of_nat (length (join ls)))
                                            (AT_BUF_SIZE - 1))))
                        (response a)
    /\ uart_tx a' = uart_tx a ++ [take (Z.to_nat size) data]
    /\ state (parser a') = STATE_IDLE /\ buf_used (parser a') = 0
    /\ command_scanner a' = None
    /\ open a' = true /\ waiting a' = false.
Proof.
  intros Hsz Hresp Ho Hk Hdefer Hwf Hu0 Hc0 Hls Hty Hfin Htf Hroom.
  rewrite at_command_unfold by exact Ho.
  set (a1 := waiting_for a data size).
  assert (Ho1 : open a1 = true) by exact Ho.
  rewrite wait_loop_quiet by (first [exact Ho1 | reflexivity | lia]).
  assert (Hwf1 : parser_wf (reader_parser a1)) by exact Hwf.
  assert (Hdef : scanners_defer (reader_parser a1)).
  { split; intros f Hf line len.
    - cbn in Hf. discriminate.
    - cbn in Hf. injection Hf as <-. apply Hdefer. }
  destruct (feed_lines_response (reader_parser a1) ls final Hwf1 eq_refl Hdef
              Hu0 Hc0 Hls Hty Hfin Htf Hroom)
    as (Hinv & q & Hq & Hp & Hr & Hu).
  assert (Htick : run_tick AT_BUF_SIZE
                    (received (crlf_lines ls ++ final ++ [CR; LF])) a1
                  = Some (set_parser (at_parser_reset q)
                            (handle_response AT_BUF_SIZE (join ls)
                               (Z.of_nat (length (join ls))) a1))).
  { rewrite run_tick_received; [| |exact Ho1|exact Hinv].
    2:{ destruct (crlf_lines ls); [destruct final|]; discriminate. }
    rewrite Hp.
    rewrite (run_callbacks_one_response AT_BUF_SIZE _ (join ls)
               (Z.of_nat (length (join ls))) a1 Hr Hu).
    reflexivity. }
  cbn [wait_loop]. rewrite Ho1. change (waiting a1) with true. cbn [negb orb].
  rewrite (proj2 (Z.eqb_neq _ _)) by lia. cbn [orb].
  rewrite Htick.
  destruct (handle_response_copy AT_BUF_SIZE a1 (join ls)
              (Z.of_nat (length (join ls))) Hsz Hresp ltac:(lia))
    as (_ & Hcopy & _ & Hw & Hx & (_ & _ & Hop & _ & Htx) & _).
  set (h := handle_response AT_BUF_SIZE (join ls) (Z.of_nat (length (join ls))) a1)
    in *.
  change (xSem (set_parser (at_parser_reset q) h)) with (xSem h). rewrite Hx.
  unfold resolve.
  change (open (set_xSem false (set_parser (at_parser_reset q) h))) with (open h).
  change (waiting (set_xSem false (set_parser (at_parser_reset q) h)))
    with (waiting h).
  rewrite Hop, Ho1, Hw. cbn [negb].
  exists (set_command_scanner None
            (set_xSem false (set_parser (at_parser_reset q) h))).
  split; [reflexivity|].
  cbn [response uart_tx parser command_scanner open waiting
       set_command_scanner set_xSem set_parser].
  split; [exact Hcopy|]. split; [exact Htx|].
  repeat split. now rewrite Hop.
Qed.

Lemma command_returns_response_witness :
  exists a' : at_freertos,
    _at_command 32 idle_channel (CString.bytes "AT+CSQ" ++ [CR]) 7
      (replicate 1 []
         ++ received (crlf_lines [CString.bytes "+CSQ: 21,0"]
                        ++ CString.bytes "OK" ++ [CR; LF]) :: [])
    = (CmdReturned (Some (response a')), a', [])
    /\ response a'
       = take (Z.to_nat (Z.min (Z.of_nat (length (join [CString.bytes "+CSQ: 21,0"])))
                               (32 - 1)))
              (join [CString.bytes "+CSQ: 21,0"])
           ++ 0 :: drop (S (Z.to_nat (Z.min (Z.of_nat (length
                                                        (join [CString.bytes "+CSQ: 21,0"])))
                                            (32 - 1))))
                        (response idle_channel)
    /\ uart_tx a' = uart_tx idle_channel ++ [take (Z.to_nat 7) (CString.bytes "AT+CSQ" ++ [CR])]
    /\ state (parser a') = STATE_IDLE /\ buf_used (parser a') = 0
    /\ command_scanner a' = None
    /\ open a' = true /\ waiting a' = false.
Proof.
  apply (command_returns_response 32 idle_channel (CString.bytes "AT+CSQ" ++ [CR]) 7
           [CString.bytes "+CSQ: 21,0"] (CString.bytes "OK") 1 []).
  - rewrite SIZE_MOD_value. lia.
  - reflexivity.
  - reflexivity.
  - right. simpl. lia.
  - intros line len. reflexivity.
  - apply (at_parser_alloc_wf None 64 0 (replicate 64 0) 0);
      [rewrite SIZE_MOD_value; lia | reflexivity].
  - reflexivity.
  - reflexivity.
  - repeat constructor; first [discriminate | split; discriminate].
  - repeat constructor.
  - split; [discriminate | repeat constructor; discriminate].
  - reflexivity.
  - vm_compute. discriminate.
Defined.

(** *** The scanners of the dispatcher *)



(** *** The wait *)

Lemma wait_loop_bounded (AT_BUF_SIZE : Z) (env : list tick) :
  forall (a : at_freertos) (t : Z) (b : bool) (a' : at_freertos) (env' : list tick),
    0 <= t ->
    wait_loop AT_BUF_SIZE env a t = (b, a', env') ->
    env' `suffix_of` env
    /\ Z.of_nat (length env) - Z.of_nat (length env') <= t.
Proof.
  induction env as [|tk env IH]; intros a t b a' env' Ht H; cbn [wait_loop] in H.
  - destruct ((t =? 0) || negb (open a) || negb (waiting a));
      injection H as _ _ <-; (split; [reflexivity | simpl; lia]).
  - destruct ((t =? 0) || negb (open a) || negb (waiting a)) eqn:E.
    { injection H as _ _ <-. split; [reflexivity | lia]. }
    assert (Hpos : 0 < t).
    { destruct (Z.eqb_spec t 0); [discriminate E | lia]. }
    destruct (run_tick AT_BUF_SIZE tk a) as [a1|].
    + destruct (xSem a1).
      * injection H as _ _ <-. split; [apply suffix_cons_r; reflexivity|].
        cbn [length]. lia.
      * apply IH in H; [|lia]. destruct H as [Hs Hl].
        split; [now apply suffix_cons_r|]. cbn [length]. lia.
    + injection H as _ _ <-. split; [apply suffix_cons_r; reflexivity|].
      cbn [length]. lia.
Qed.

(** X25. On a channel that is not open a command takes none of the
    ticks to come. On any channel, a command with a timeout that is not
    negative waits for at most that many ticks: whatever arrives and
    whatever the other tasks do, the ticks left over when the command comes
    back, or when the reader task gets stuck, are the ticks to come but
    for at most [timeout] of them from the front. *)
Theorem command_waits_at_most_timeout (AT_BUF_SIZE : Z) (a : at_freertos)
    (data : list Z) (size : Z) (env : list tick) :
  (open a = false ->
   snd (_at_command AT_BUF_SIZE a data size env) = env)
  /\ (0 <= timeout a ->
      snd (_at_command AT_BUF_SIZE a data size env) `suffix_of` env
      /\ Z.of_nat (length env)
         - Z.of_nat (length (snd (_at_command AT_BUF_SIZE a data size env)))
         <= timeout a).
Proof.
  unfold _at_command. split.
  - intros Ho. rewrite Ho. reflexivity.
  - intros Ht.
    destruct (open a); cbn [negb]; [|split; [reflexivity | cbn [snd]; lia]].
    destruct (wait_loop AT_BUF_SIZE env (waiting_for a data size)
                (timeout (waiting_for a data size))) as [[b a'] env'] eqn:E.
    apply wait_loop_bounded in E; [|exact Ht].
    destruct b; [destruct (resolve a') as [r a'']|]; exact E.
Qed.

Lemma command_waits_at_most_timeout_witness :
  open closed_channel = false
  /\ snd (_at_command 32 closed_channel (CString.bytes "AT" ++ [CR]) 3
            [[]; received (CString.bytes "OK" ++ [CR; LF])])
     = [[]; received (CString.bytes "OK" ++ [CR; LF])]
  /\ 0 <= timeout idle_channel
  /\ snd (_at_command 32 idle_channel (CString.bytes "AT" ++ [CR]) 3
            [[]; received [CR]; []; []; received (CString.bytes "OK" ++ [CR; LF])])
     `suffix_of` [[]; received [CR]; []; []; received (CString.bytes "OK" ++ [CR; LF])]
  /\ Z.of_nat (length [[]; received [CR]; []; [];
                       received (CString.bytes "OK" ++ [CR; LF])])
     - Z.of_nat (length (snd (_at_command 32 idle_channel
                                (CString.bytes "AT" ++ [CR]) 3
                                [[]; received [CR]; []; [];
                                 received (CString.bytes "OK" ++ [CR; LF])])))
     <= timeout idle_channel.
Proof.
  assert (Hc : open closed_channel = false) by reflexivity.
  assert (H : 0 <= timeout idle_channel) by (simpl; lia).
  split; [exact Hc|]. split.
  { exact (proj1 (command_waits_at_most_timeout 32 closed_channel
                    (CString.bytes "AT" ++ [CR]) 3
                    [[]; received (CString.bytes "OK" ++ [CR; LF])]) Hc). }
  split; [exact H|].
  exact (proj2 (command_waits_at_most_timeout 32 idle_channel
                  (CString.bytes "AT" ++ [CR]) 3
                  [[]; received [CR]; []; [];
                   received (CString.bytes "OK" ++ [CR; LF])]) H).
Defined.

End HalExtras.
